(** * mem0 REST API server for OpenClaw: the tiered memory coordinator

    A shallow embedding of [extensions/memory-mem0/docker/mem0_server.py]:
    the Redis short-term helpers ([store_short_term], [get_short_term],
    [get_promotable_memories]) and the endpoints built on them
    ([add_memory], [search_memories], [promote_memories],
    [get_user_memories]).

    Conventions of the embedding.
    - Python [str] is [string] (a byte string); Python [int] is [Z];
      [Optional[T]] is [option T]; a score (a non-NaN float) is a rational.
    - Redis is a finite map from keys to documents together with a script
      of upcoming command failures: every command consumes one flag and
      raises when the flag is set.  A JSON document written by the server
      is kept in parsed form.  [KEYS] lists the matching keys in the order
      of the map's enumeration.
    - The mem0 [Memory] engine is an interface ([Mem0]); its calls return a
      new engine state and either an exception or a value.
    - A handler is a function from the process state ([World]) to the new
      state and either an exception or a value; [try ... except] is
      [try_except].  Logging has no effect on the state and is left out.
    - The clock readings and the MD5 digest are inputs of [add_memory].

    What a read, a scan or a promotion does to a stored entry is stated for
    a Redis that answers its commands ([redis_quiet]); what holds whatever
    fails (the helpers never raise, no handler lowers an [access_count], a
    key is deleted only after its durable write) is proved for every
    failure script. *)

From Stdlib Require Import Ascii String ZArith QArith.
From stdpp Require Import gmap strings list fin_maps sorting.

Local Open Scope Z_scope.

(** ** Python string primitives *)

Module Py.

(** [x or d] on an optional string: [None] and the empty string are falsy. *)
Definition truthy (s : string) : bool :=
  match s with EmptyString => false | _ => true end.

Definition or_else (o : option string) (d : string) : string :=
  match o with
  | Some s => if truthy s then s else d
  | None => d
  end.

(** [f"{x}"] of an optional string: [None] prints as [None]. *)
Definition fmt (o : option string) : string :=
  match o with Some s => s | None => "None" end.

(** [str.lower()] on the ASCII range. *)
Definition lower_ascii (c : ascii) : ascii :=
  let n := nat_of_ascii c in
  if ((65 <=? n)%nat && (n <=? 90)%nat)%bool then ascii_of_nat (n + 32) else c.

Fixpoint lower (s : string) : string :=
  match s with
  | EmptyString => EmptyString
  | String c s' => String (lower_ascii c) (lower s')
  end.

(** [sub in s]. *)
Fixpoint contains (sub s : string) : bool :=
  String.prefix sub s ||
  match s with
  | EmptyString => false
  | String _ s' => contains sub s'
  end.

(** [str.split()] with no argument: split on runs of whitespace. *)
Definition is_space (c : ascii) : bool :=
  let n := nat_of_ascii c in
  ((9 <=? n)%nat && (n <=? 13)%nat) || ((28 <=? n)%nat && (n <=? 32)%nat).

Fixpoint split_aux (cur : string) (s : string) : list string :=
  match s with
  | EmptyString => if truthy cur then [cur] else []
  | String c s' =>
      if is_space c
      then (if truthy cur then cur :: split_aux EmptyString s'
            else split_aux EmptyString s')
      else split_aux (cur +:+ String c EmptyString) s'
  end.

Definition split (s : string) : list string := split_aux EmptyString s.

(** [repr] of a string: single quotes unless the text has a single quote
    and no double quote; backslash, the quote, newline, carriage return and
    tab are escaped, other control characters print as [\xNN]. *)
Definition hex_digit (n : nat) : ascii :=
  if (n <? 10)%nat then ascii_of_nat (48 + n) else ascii_of_nat (87 + n).

Definition repr_char (q : ascii) (c : ascii) : string :=
  let n := nat_of_ascii c in
  if Ascii.eqb c "\" then "\\"
  else if Ascii.eqb c q then String "\" (String q EmptyString)
  else if (n =? 10)%nat then "\n"
  else if (n =? 13)%nat then "\r"
  else if (n =? 9)%nat then "\t"
  else if ((n <? 32)%nat || (n =? 127)%nat)%bool
       then String "\" (String "x" (String (hex_digit (n / 16))
              (String (hex_digit (n mod 16)) EmptyString)))
  else String c EmptyString.

Fixpoint repr_body (q : ascii) (s : string) : string :=
  match s with
  | EmptyString => EmptyString
  | String c s' => repr_char q c +:+ repr_body q s'
  end.

Definition dquote : ascii := ascii_of_nat 34.

Definition has_char (c : ascii) (s : string) : bool :=
  contains (String c EmptyString) s.

Definition repr (s : string) : string :=
  let q : ascii :=
    if (has_char "'" s && negb (has_char dquote s))%bool then dquote
    else "'"%char in
  String q (repr_body q s) +:+ String q EmptyString.

(** [", ".join(l)] and friends. *)
Fixpoint join (sep : string) (l : list string) : string :=
  match l with
  | [] => EmptyString
  | [x] => x
  | x :: l' => x +:+ sep +:+ join sep l'
  end.

(** [l[:n]] for a Python [int] n: a negative bound counts from the end. *)
Definition slice_to {A} (n : Z) (l : list A) : list A :=
  if 0 <=? n then firstn (Z.to_nat n) l
  else firstn (Z.to_nat (Z.of_nat (length l) + n)) l.

End Py.

(** ** Redis glob patterns (the argument of [KEYS])

    [*] matches any run of characters, [?] one character, [[...]] a
    character class (with [^] negation and [a-b] ranges) and a backslash
    quotes the next character.  The pattern is first cut into tokens, then
    matched against the key. *)

Module Glob.

Inductive tok : Type :=
  | TStar
  | TAny
  | TLit (c : ascii)
  | TClass (neg : bool) (items : list (ascii * ascii)).

Inductive mode : Type :=
  | Norm
  | InClass (neg : bool) (items : list (ascii * ascii)).

Fixpoint lex (m : mode) (p : string) : list tok :=
  match m, p with
  | Norm, EmptyString => []
  | Norm, String "*" p' => TStar :: lex Norm p'
  | Norm, String "?" p' => TAny :: lex Norm p'
  | Norm, String "\" (String c p') => TLit c :: lex Norm p'
  | Norm, String "[" (String "^" p') => lex (InClass true []) p'
  | Norm, String "[" p' => lex (InClass false []) p'
  | Norm, String c p' => TLit c :: lex Norm p'
  | InClass neg items, EmptyString => [TClass neg (rev items)]
  | InClass neg items, String "]" p' => TClass neg (rev items) :: lex Norm p'
  | InClass neg items, String "\" (String c p') =>
      lex (InClass neg ((c, c) :: items)) p'
  | InClass neg items, String a (String "-" (String b p')) =>
      lex (InClass neg ((a, b) :: items)) p'
  | InClass neg items, String c p' => lex (InClass neg ((c, c) :: items)) p'
  end.

Definition in_range (c : ascii) (ab : ascii * ascii) : bool :=
  let n := nat_of_ascii c in
  let a := nat_of_ascii (fst ab) in
  let b := nat_of_ascii (snd ab) in
  ((Nat.min a b <=? n)%nat && (n <=? Nat.max a b)%nat)%bool.

Fixpoint tmatch (ts : list tok) (s : string) : bool :=
  match ts with
  | [] => match s with EmptyString => true | _ => false end
  | TStar :: ts' =>
      (fix star (s : string) : bool :=
         tmatch ts' s ||
         match s with
         | EmptyString => false
         | String _ s' => star s'
         end) s
  | TAny :: ts' =>
      match s with
      | EmptyString => false
      | String _ s' => tmatch ts' s'
      end
  | TLit c :: ts' =>
      match s with
      | EmptyString => false
      | String c' s' => Ascii.eqb c c' && tmatch ts' s'
      end
  | TClass neg items :: ts' =>
      match s with
      | EmptyString => false
      | String c' s' => xorb neg (existsb (in_range c') items) && tmatch ts' s'
      end
  end.

Definition matches (pattern key : string) : bool := tmatch (lex Norm pattern) key.

(** Characters with a special meaning in a pattern. *)
Definition is_meta (c : ascii) : bool :=
  Ascii.eqb c "*" || Ascii.eqb c "?" || Ascii.eqb c "[" || Ascii.eqb c "\".

Fixpoint literal (p : string) : bool :=
  match p with
  | EmptyString => true
  | String c p' => negb (is_meta c) && literal p'
  end.

(** The tokens of a pattern without special characters. *)
Fixpoint lits (p : string) : list tok :=
  match p with
  | EmptyString => []
  | String c p' => TLit c :: lits p'
  end.

End Glob.

(** [c not in s] for a single character. *)
Fixpoint lacks (c : ascii) (s : string) : bool :=
  match s with
  | EmptyString => true
  | String c' s' => negb (Ascii.eqb c c') && lacks c s'
  end.

(** ** Data model *)

(** [class Message(BaseModel)]. *)
Record Message := { role : string; content : string }.

(** Open JSON values the server passes through unchanged (request
    metadata, the engine's results) are kept as their JSON text. *)
Definition Json := string.

(** The JSON document of a short-term memory: the [short_term_data] dict
    of [add_memory], to which [store_short_term] adds [created_at] and
    [access_count] and [get_promotable_memories] adds [redis_key]. *)
Record Entry := {
  stm_messages : list Message;
  stm_user_id : option string;
  stm_agent_id : option string;
  stm_session_id : option string;
  stm_metadata : option Json;
  stm_created_at : option string;
  stm_access_count : option Z;
  stm_redis_key : option string;
}.

(** [parsed.get("access_count", 0)]. *)
Definition get_access_count (e : Entry) : Z := default 0 (stm_access_count e).

Definition set_created_at (v : string) (e : Entry) : Entry :=
  {| stm_messages := stm_messages e; stm_user_id := stm_user_id e;
     stm_agent_id := stm_agent_id e; stm_session_id := stm_session_id e;
     stm_metadata := stm_metadata e; stm_created_at := Some v;
     stm_access_count := stm_access_count e; stm_redis_key := stm_redis_key e |}.

Definition set_access_count (v : Z) (e : Entry) : Entry :=
  {| stm_messages := stm_messages e; stm_user_id := stm_user_id e;
     stm_agent_id := stm_agent_id e; stm_session_id := stm_session_id e;
     stm_metadata := stm_metadata e; stm_created_at := stm_created_at e;
     stm_access_count := Some v; stm_redis_key := stm_redis_key e |}.

Definition set_redis_key (v : string) (e : Entry) : Entry :=
  {| stm_messages := stm_messages e; stm_user_id := stm_user_id e;
     stm_agent_id := stm_agent_id e; stm_session_id := stm_session_id e;
     stm_metadata := stm_metadata e; stm_created_at := stm_created_at e;
     stm_access_count := stm_access_count e; stm_redis_key := Some v |}.

(** Constants. *)
Definition SHORT_TERM_TTL_HOURS : Z := 24.
Definition SHORT_TERM_PREFIX : string := "stm:".
Definition PROMOTION_THRESHOLD : Z := 3.

(** ** Exceptions *)

Inductive Exn : Type :=
  | Exception (msg : string)
  | HTTPException (status_code : Z) (detail : string).

(** ** Redis *)

(** A stored value: the document and its expiry in hours ([None]: the key
    does not expire). *)
Record Cell := { ttl : option Z; doc : Entry }.

(** The key space and the script of upcoming command failures. *)
Record Redis := { db : gmap string Cell; faults : list bool }.

Module RedisCmd.

Definition connection_error : Exn := Exception "redis.exceptions.ConnectionError".

(** Every command first consumes one flag of the failure script; a failed
    command has no effect on the key space. *)
Definition run {A} (f : gmap string Cell -> gmap string Cell * A) (r : Redis)
  : Redis * (Exn + A) :=
  if hd false (faults r)
  then ({| db := db r; faults := tl (faults r) |}, inl connection_error)
  else let '(d, a) := f (db r) in ({| db := d; faults := tl (faults r) |}, inr a).

(** [KEYS pattern]. *)
Definition keys (pattern : string) : Redis -> Redis * (Exn + list string) :=
  run (fun d => (d, filter (fun k => Glob.matches pattern k = true) (map fst (map_to_list d)))).

(** [GET key]. *)
Definition get (key : string) : Redis -> Redis * (Exn + option Cell) :=
  run (fun d => (d, d !! key)).

(** [SETEX key ttl value]. *)
Definition setex (key : string) (hours : Z) (value : Entry)
  : Redis -> Redis * (Exn + unit) :=
  run (fun d => (<[key := {| ttl := Some hours; doc := value |}]> d, tt)).

(** [SET key value KEEPTTL]: an existing key keeps its expiry. *)
Definition set_keepttl (key : string) (value : Entry)
  : Redis -> Redis * (Exn + unit) :=
  run (fun d => (<[key := {| ttl := d !! key ≫= ttl; doc := value |}]> d, tt)).

(** [DEL key]. *)
Definition delete (key : string) : Redis -> Redis * (Exn + unit) :=
  run (fun d => (base.delete key d, tt)).

End RedisCmd.

(** ** The audit log (Postgres) *)

Record MemoryHistory := {
  operation : string;
  h_user_id : option string;
  h_agent_id : option string;
  h_session_id : option string;
  content_hash : option string;
  memory_tier : option string;
  extra_data : option Json;
}.

Record Postgres := { history : list MemoryHistory; pg_faults : list bool }.

(** ** The mem0 engine *)

(** Keyword arguments of [Memory.add]. *)
Record AddArgs := {
  a_messages : list Message;
  a_user_id : option string;
  a_agent_id : option string;
  a_run_id : option string;
  a_metadata : option Json;
}.

(** Keyword arguments of [Memory.search]; an absent keyword is [None]. *)
Record SearchArgs := {
  s_query : string;
  s_limit : Z;
  s_user_id : option string;
  s_agent_id : option string;
  s_run_id : option string;
}.

(** One element of the engine's ["results"] list. *)
Record Hit := {
  hit_id : option string;
  hit_memory : option string;
  hit_user_id : option string;
  hit_agent_id : option string;
  hit_score : option Q;
  hit_metadata : option Json;
}.

Class Mem0 (E : Type) := {
  mem_add : AddArgs -> E -> E * (Exn + Json);
  mem_search : SearchArgs -> E -> E * (Exn + list Hit);
  mem_get_all : option string -> Z -> E -> E * (Exn + list Hit);
}.

Inductive MemCall : Type :=
  | CallAdd (a : AddArgs)
  | CallSearch (a : SearchArgs)
  | CallGetAll (user_id : option string) (limit : Z).

(** ** Requests and responses *)

Record AddMemoryRequest := {
  add_messages : list Message;
  add_user_id : option string;
  add_agent_id : option string;
  add_session_id : option string;
  add_metadata : option Json;
  short_term_only : bool;
}.

Record AddMemoryResponse := {
  success : bool;
  short_term : bool;
  long_term : bool;
  memory_key : option string;
  result : option Json;
}.

Record SearchRequest := {
  query : string;
  search_user_id : option string;
  search_agent_id : option string;
  search_session_id : option string;
  limit : Z;
  include_short_term : bool;
}.

Inductive Source : Type := short_term_source | long_term_source.

Global Instance Source_eq_dec : EqDecision Source.
Proof. solve_decision. Defined.

(** [class MemoryResponse(BaseModel)]. *)
Record MemoryResponse := {
  id : string;
  memory_text : string;
  user_id : option string;
  agent_id : option string;
  score : option Q;
  source : Source;
  metadata : option Json;
}.

Record SearchResponse := {
  memories : list MemoryResponse;
  count : nat;
  sources_short_term : nat;
  sources_long_term : nat;
}.

Record PromoteRequest := {
  memory_ids : option (list string);
  promote_user_id : option string;
  promote_agent_id : option string;
}.

Record Promoted := { original_key : option string; promoted_result : Json }.

Record PromoteResponse := {
  promoted_count : nat;
  promoted : list Promoted;
}.

(** An element of the list returned by [get_user_memories]. *)
Inductive UserMemory : Type :=
  | StmItem (item_id memory : string) (access_count : Z) (created_at : option string)
  | LtmItem (h : Hit).

Record UserMemoriesResponse := {
  um_memories : list UserMemory;
  um_user_id : string;
}.

(** The two readings of the clock made while a memory is added:
    [strftime("%Y%m%d%H%M%S")] in [add_memory] and [isoformat()] in
    [store_short_term]. *)
Record Now := { stamp : string; iso : string }.

(** ** Formatting of messages *)

(** [str(messages)] for the list of [{"role": ..., "content": ...}] dicts. *)
Definition str_message (m : Message) : string :=
  "{'role': " +:+ Py.repr (role m) +:+ ", 'content': " +:+ Py.repr (content m) +:+ "}".

Definition str_messages (ms : list Message) : string :=
  "[" +:+ Py.join ", " (map str_message ms) +:+ "]".

Definition message_part (m : Message) : list string :=
  if (String.eqb (role m) "user" && Py.truthy (content m))%bool
  then ["User said: " +:+ content m]
  else if (String.eqb (role m) "assistant" && Py.truthy (content m))%bool
  then ["Assistant said: " +:+ content m]
  else [].

Definition format_messages_as_memory (messages : list Message) : string :=
  match messages with
  | [] => str_messages messages
  | _ =>
      let parts := concat (map message_part messages) in
      match parts with
      | [] => str_messages messages
      | _ => Py.join " | " parts
      end
  end.

(** ** [list.sort(key=..., reverse=True)]

    Python's sort is stable, also with [reverse=True]: elements whose keys
    compare equal keep their order.  Insertion from the right, placing an
    element in front of the first one whose key is not larger, computes
    that list. *)

Section Sort.
Context {A : Type} (key : A -> Q).

Fixpoint insert_desc (x : A) (l : list A) : list A :=
  match l with
  | [] => [x]
  | y :: l' =>
      if Qle_bool (key y) (key x) then x :: y :: l'
      else y :: insert_desc x l'
  end.

Fixpoint sort_desc (l : list A) : list A :=
  match l with
  | [] => []
  | x :: l' => insert_desc x (sort_desc l')
  end.

(** The order of the sorted list: keys do not go up. *)
Definition desc (a b : A) : Prop := (key b <= key a)%Q.

(** The elements whose key equals [v]. *)
Definition has_key (v : Q) (x : A) : bool := Qeq_bool (key x) v.
End Sort.

(** [x.score or 0]. *)
Definition score_key (x : MemoryResponse) : Q := default 0%Q (score x).

(** ** The server *)

Section Server.
Context {E : Type} `{Mem0 E}.
(** [hashlib.md5(s.encode()).hexdigest()]. *)
Variable md5_hexdigest : string -> string.

(** The module's global state: the Redis client, the mem0 instance and
    the database session factory, each [None] when its initialisation
    failed.  [mem_calls] is a ghost log of the calls made to the engine. *)
Record World := {
  redis_client : option Redis;
  memory : option E;
  DbSession : option Postgres;
  mem_calls : list MemCall;
}.

Definition with_redis (w : World) (r : Redis) : World :=
  {| redis_client := Some r; memory := memory w;
     DbSession := DbSession w; mem_calls := mem_calls w |}.

Definition with_memory (w : World) (e : E) (c : MemCall) : World :=
  {| redis_client := redis_client w; memory := Some e;
     DbSession := DbSession w; mem_calls := mem_calls w ++ [c] |}.

Definition with_db (w : World) (pg : Postgres) : World :=
  {| redis_client := redis_client w; memory := memory w;
     DbSession := Some pg; mem_calls := mem_calls w |}.

(** *** Handlers: state and exceptions *)

Definition M (A : Type) : Type := World -> World * (Exn + A).

Definition ret {A} (a : A) : M A := fun w => (w, inr a).

Definition raise {A} (e : Exn) : M A := fun w => (w, inl e).

Definition bind {A B} (m : M A) (k : A -> M B) : M B := fun w =>
  match m w with
  | (w', inl e) => (w', inl e)
  | (w', inr a) => k a w'
  end.

(** [try: m  except Exception as e: h e]. *)
Definition try_except {A} (m : M A) (h : Exn -> M A) : M A := fun w =>
  match m w with
  | (w', inl e) => h e w'
  | (w', inr a) => (w', inr a)
  end.

Notation "x <- m ;; k" := (bind m (fun x => k))
  (at level 100, m at next level, right associativity).
Notation "m ;;; k" := (bind m (fun _ => k))
  (at level 100, right associativity).

Definition attribute_error : Exn := Exception "AttributeError: 'NoneType' object".

(** A command sent through [redis_client]. *)
Definition redis {A} (cmd : Redis -> Redis * (Exn + A)) : M A := fun w =>
  match redis_client w with
  | None => (w, inl attribute_error)
  | Some r => let '(r', o) := cmd r in (with_redis w r', o)
  end.

(** A call of a method of [memory]. *)
Definition mem0_call {A} (c : MemCall) (f : E -> E * (Exn + A)) : M A := fun w =>
  match memory w with
  | None => (w, inl attribute_error)
  | Some e => let '(e', o) := f e in (with_memory w e' c, o)
  end.

(** [log_operation]: appends a row to the audit log; without a session
    factory it does nothing, and a database error is swallowed. *)
Definition log_operation (entry : MemoryHistory) : M unit := fun w =>
  match DbSession w with
  | None => (w, inr tt)
  | Some pg =>
      if hd false (pg_faults pg)
      then (with_db w {| history := history pg; pg_faults := tl (pg_faults pg) |}, inr tt)
      else (with_db w {| history := history pg ++ [entry];
                         pg_faults := tl (pg_faults pg) |}, inr tt)
  end.

(** *** Short-term memory helpers *)

Definition store_short_term (now_iso : string) (key : string) (data : Entry)
    (ttl_hours : Z) : M bool := fun w =>
  match redis_client w with
  | None => ret false w
  | Some _ =>
      try_except
        (let full_key := SHORT_TERM_PREFIX +:+ key in
         let data := set_created_at now_iso data in
         let data := set_access_count 0 data in
         redis (RedisCmd.setex full_key ttl_hours data) ;;;
         ret true)
        (fun _ => ret false) w
  end.

(** The body of the loop of [get_short_term]. *)
Fixpoint get_short_term_loop (keys : list string) (results : list Entry)
  : M (list Entry) :=
  match keys with
  | [] => ret results
  | key :: keys' =>
      data <- redis (RedisCmd.get key) ;;
      match data with
      | Some cell =>
          let parsed := doc cell in
          let parsed := set_access_count (get_access_count parsed + 1) parsed in
          redis (RedisCmd.set_keepttl key parsed) ;;;
          get_short_term_loop keys' (results ++ [parsed])
      | None => get_short_term_loop keys' results
      end
  end.

Definition get_short_term (pattern : string) : M (list Entry) := fun w =>
  match redis_client w with
  | None => ret [] w
  | Some _ =>
      try_except
        (keys <- redis (RedisCmd.keys (SHORT_TERM_PREFIX +:+ pattern +:+ "*")) ;;
         get_short_term_loop keys [])
        (fun _ => ret []) w
  end.

Fixpoint get_promotable_loop (keys : list string) (promotable : list Entry)
  : M (list Entry) :=
  match keys with
  | [] => ret promotable
  | key :: keys' =>
      data <- redis (RedisCmd.get key) ;;
      match data with
      | Some cell =>
          let parsed := doc cell in
          if PROMOTION_THRESHOLD <=? get_access_count parsed
          then get_promotable_loop keys' (promotable ++ [set_redis_key key parsed])
          else get_promotable_loop keys' promotable
      | None => get_promotable_loop keys' promotable
      end
  end.

Definition promotable_pattern (user_id : option string) : string :=
  SHORT_TERM_PREFIX +:+ Py.or_else user_id "*" +:+ ":*".

Definition get_promotable_memories (user_id : option string) : M (list Entry) := fun w =>
  match redis_client w with
  | None => ret [] w
  | Some _ =>
      try_except
        (keys <- redis (RedisCmd.keys (promotable_pattern user_id)) ;;
         get_promotable_loop keys [])
        (fun _ => ret []) w
  end.

(** *** [POST /memories/add] *)

Definition add_args (request : AddMemoryRequest) : AddArgs :=
  {| a_messages := add_messages request; a_user_id := add_user_id request;
     a_agent_id := add_agent_id request; a_run_id := add_session_id request;
     a_metadata := add_metadata request |}.

Definition content_hash_of (messages : list Message) : string :=
  String.substring 0 8 (md5_hexdigest (str_messages messages)).

Definition memory_key_of (user_id : option string) (timestamp hash : string) : string :=
  Py.or_else user_id "anon" +:+ ":" +:+ timestamp +:+ ":" +:+ hash.

(** The long-term step of [add_memory]: skipped for a short-term-only
    request and without an engine; an exception of the engine is logged
    and leaves [long_term_result] at [None]. *)
Definition add_long_term (request : AddMemoryRequest) (content_hash : string)
  : M (option Json) := fun w =>
  if (negb (short_term_only request) && bool_decide (is_Some (memory w)))%bool
  then
    try_except
      (long_term_result <- mem0_call (CallAdd (add_args request))
                             (mem_add (add_args request)) ;;
       log_operation
         {| operation := "add"; h_user_id := add_user_id request;
            h_agent_id := add_agent_id request;
            h_session_id := add_session_id request;
            content_hash := Some content_hash;
            memory_tier := Some "long_term";
            extra_data := Some (String.substring 0 500 long_term_result) |} ;;;
       ret (Some long_term_result))
      (fun _ => ret None) w
  else ret None w.

Definition add_memory (now : Now) (request : AddMemoryRequest)
  : M AddMemoryResponse :=
  let messages := add_messages request in
  let content_hash := content_hash_of messages in
  let timestamp := stamp now in
  let memory_key := memory_key_of (add_user_id request) timestamp content_hash in
  let short_term_data :=
    {| stm_messages := messages; stm_user_id := add_user_id request;
       stm_agent_id := add_agent_id request;
       stm_session_id := add_session_id request;
       stm_metadata := add_metadata request;
       stm_created_at := None; stm_access_count := None;
       stm_redis_key := None |} in
  redis_stored <- store_short_term (iso now) memory_key short_term_data
                    SHORT_TERM_TTL_HOURS ;;
  (if redis_stored : bool
   then log_operation
          {| operation := "add"; h_user_id := add_user_id request;
             h_agent_id := add_agent_id request;
             h_session_id := add_session_id request;
             content_hash := Some content_hash;
             memory_tier := Some "short_term";
             extra_data := Some memory_key |}
   else ret tt) ;;;
  long_term_result <- add_long_term request content_hash ;;
  ret {| success := true;
         short_term := redis_stored;
         long_term := bool_decide (is_Some long_term_result);
         memory_key := if redis_stored then Some memory_key else None;
         result := long_term_result |}.

(** *** [POST /memories/search] *)

(** The keyword test applied to a short-term memory. *)
Definition keyword_match (query : string) (stm : Entry) : bool :=
  let query_lower := Py.lower query in
  let content := Py.lower (str_messages (stm_messages stm)) in
  Py.contains query_lower content ||
  existsb (fun word => Py.contains word content) (Py.split query_lower).

Definition short_term_response (stm : Entry) : MemoryResponse :=
  {| id := "stm:" +:+ Py.fmt (stm_user_id stm) +:+ ":" +:+ default "" (stm_created_at stm);
     memory_text := format_messages_as_memory (stm_messages stm);
     user_id := stm_user_id stm;
     agent_id := stm_agent_id stm;
     score := Some (8 # 10)%Q;
     source := short_term_source;
     metadata := stm_metadata stm |}.

Definition long_term_response (r : Hit) : MemoryResponse :=
  {| id := default "" (hit_id r);
     memory_text := default "" (hit_memory r);
     user_id := hit_user_id r;
     agent_id := hit_agent_id r;
     score := hit_score r;
     source := long_term_source;
     metadata := hit_metadata r |}.

(** A keyword argument is passed only when the request field is truthy. *)
Definition kwarg (o : option string) : option string :=
  match o with
  | Some s => if Py.truthy s then Some s else None
  | None => None
  end.

Definition search_kwargs (request : SearchRequest) : SearchArgs :=
  {| s_query := query request; s_limit := limit request;
     s_user_id := kwarg (search_user_id request);
     s_agent_id := kwarg (search_agent_id request);
     s_run_id := kwarg (search_session_id request) |}.

(** The short-term part of the search: the matches appended to [results]. *)
Definition search_short_term (request : SearchRequest) : M (list MemoryResponse) := fun w =>
  if (include_short_term request && bool_decide (is_Some (redis_client w)))%bool
  then
    (let pattern := Py.or_else (search_user_id request) "*" in
     short_term <- get_short_term pattern ;;
     ret (map short_term_response
            (List.filter (keyword_match (query request)) short_term))) w
  else ret [] w.

(** The long-term part: the engine's hits, or nothing when it raises. *)
Definition search_long_term (request : SearchRequest) : M (list MemoryResponse) := fun w =>
  if bool_decide (is_Some (memory w))
  then
    try_except
      (long_term <- mem0_call (CallSearch (search_kwargs request))
                      (mem_search (search_kwargs request)) ;;
       ret (map long_term_response long_term))
      (fun _ => ret []) w
  else ret [] w.

Definition count_source (s : Source) (l : list MemoryResponse) : nat :=
  length (List.filter (fun r => bool_decide (source r = s)) l).

Definition search_memories (request : SearchRequest) : M SearchResponse :=
  short <- search_short_term request ;;
  long <- search_long_term request ;;
  let results := short ++ long in
  let results := sort_desc score_key results in
  let final := Py.slice_to (limit request) results in
  ret {| memories := final;
         count := length final;
         sources_short_term := count_source short_term_source final;
         sources_long_term := count_source long_term_source final |}.

(** *** [POST /memories/promote] *)

Definition promote_args (mem : Entry) : AddArgs :=
  {| a_messages := stm_messages mem; a_user_id := stm_user_id mem;
     a_agent_id := stm_agent_id mem; a_run_id := stm_session_id mem;
     a_metadata := stm_metadata mem |}.

(** One iteration of the loop: the [try] block and its handler. *)
Definition promote_one (mem : Entry) (promoted : list Promoted) : M (list Promoted) :=
  try_except
    (result <- mem0_call (CallAdd (promote_args mem)) (mem_add (promote_args mem)) ;;
     (fun w =>
        match redis_client w, stm_redis_key mem with
        | Some _, Some k =>
            if Py.truthy k then redis (RedisCmd.delete k) w else ret tt w
        | _, _ => ret tt w
        end) ;;;
     ret (promoted ++ [{| original_key := stm_redis_key mem;
                          promoted_result := result |}]))
    (fun _ => ret promoted).

Fixpoint promote_loop (promotable : list Entry) (promoted : list Promoted)
  : M (list Promoted) :=
  match promotable with
  | [] => ret promoted
  | mem :: rest =>
      promoted' <- promote_one mem promoted ;;
      promote_loop rest promoted'
  end.

Definition promote_memories (request : PromoteRequest) : M PromoteResponse := fun w =>
  match memory w with
  | None => raise (HTTPException 503 "Long-term memory not initialized") w
  | Some _ =>
      (promotable <- get_promotable_memories (promote_user_id request) ;;
       promoted <- promote_loop promotable [] ;;
       ret {| promoted_count := length promoted; promoted := promoted |}) w
  end.

(** *** [GET /memories/user/{user_id}] *)

Definition user_short_term_item (user_id : string) (stm : Entry) : UserMemory :=
  StmItem ("stm:" +:+ user_id +:+ ":" +:+ default "" (stm_created_at stm))
          (format_messages_as_memory (stm_messages stm))
          (get_access_count stm)
          (stm_created_at stm).

Definition get_user_memories (user_id : string) (limit : Z) (include_short_term : bool)
  : M UserMemoriesResponse :=
  short <- (if include_short_term
            then short_term <- get_short_term user_id ;;
                 ret (map (user_short_term_item user_id) short_term)
            else ret []) ;;
  long <- (fun w =>
             if bool_decide (is_Some (memory w))
             then
               try_except
                 (long_term <- mem0_call (CallGetAll (Some user_id) limit)
                                 (mem_get_all (Some user_id) limit) ;;
                  ret (map LtmItem long_term))
                 (fun _ => ret []) w
             else ret [] w) ;;
  ret {| um_memories := short ++ long; um_user_id := user_id |}.

End Server.

Arguments World E : clear implicits.

(** ** Notions used to state the properties *)

(** The document after one read: [access_count] is one more. *)
Definition bump (e : Entry) : Entry :=
  set_access_count (get_access_count e + 1) e.

Definition bump_cell (c : Cell) : Cell := {| ttl := ttl c; doc := bump (doc c) |}.

(** The key space after a read that touched the keys satisfying [p]. *)
Definition bump_where (p : string -> bool) (d : gmap string Cell) : gmap string Cell :=
  map_imap (fun k c => Some (if p k then bump_cell c else c)) d.

(** No key appears, and no key's [access_count] goes down, from [d] to [d']. *)
Definition count_le (d d' : gmap string Cell) : Prop :=
  forall k c', d' !! k = Some c' ->
    exists c, d !! k = Some c /\
      get_access_count (doc c) <= get_access_count (doc c').

Definition stm_mono {E} (w w' : World E) : Prop :=
  match redis_client w, redis_client w' with
  | Some r, Some r' => count_le (db r) (db r')
  | None, None => True
  | _, _ => False
  end.

(** A handler that, whatever fails, neither creates a key nor lowers the
    [access_count] of one. *)
Definition keeps_counts {E A} (m : @M E A) : Prop :=
  forall w, stm_mono w (fst (m w)).

(** The key space of a world; empty without a client. *)
Definition stm_db {E} (w : World E) : gmap string Cell :=
  match redis_client w with
  | Some r => db r
  | None => ∅
  end.

(** A world whose Redis client is connected with no failure ahead. *)
Definition qworld {E} (d : gmap string Cell) (m : option E) (s : option Postgres)
    (c : list MemCall) : World E :=
  {| redis_client := Some {| db := d; faults := [] |}; memory := m;
     DbSession := s; mem_calls := c |}.

(** The keys [KEYS pattern] returns on the key space [d]. *)
Definition keys_of (pattern : string) (d : gmap string Cell) : list string :=
  filter (fun k => Glob.matches pattern k = true) (map fst (map_to_list d)).

(** The documents a promotion scan selects on the key space [d]. *)
Definition promotable_doc (d : gmap string Cell) (k : string) : option Entry :=
  c ← d !! k;
  if PROMOTION_THRESHOLD <=? get_access_count (doc c)
  then Some (set_redis_key k (doc c)) else None.

Definition promotable_of (user_id : option string) (d : gmap string Cell) : list Entry :=
  omap (promotable_doc d) (keys_of (promotable_pattern user_id) d).

(** The documents a read of [pattern] returns on the key space [d]. *)
Definition read_of (pattern : string) (d : gmap string Cell) : list Entry :=
  omap (fun k => (fun c => bump (doc c)) <$> d !! k)
       (keys_of (SHORT_TERM_PREFIX +:+ pattern +:+ "*") d).

(** The Redis commands of a world all succeed from now on. *)
Definition redis_quiet {E} (w : World E) : Prop :=
  exists r, redis_client w = Some r /\ faults r = [].

(** What the engine answers to the [add] calls of a promotion batch, one
    answer per record, in order. *)
Fixpoint add_outcomes {E} `{Mem0 E} (batch : list Entry) (e : E) : list (Exn + Json) :=
  match batch with
  | [] => []
  | mem :: rest =>
      let '(e', o) := mem_add (promote_args mem) e in
      o :: add_outcomes rest e'
  end.

Definition succeeded {A} (o : Exn + A) : bool :=
  match o with inr _ => true | inl _ => false end.

(** The entries of the response for a batch and the engine's answers. *)
Fixpoint promoted_of (batch : list Entry) (outcomes : list (Exn + Json)) : list Promoted :=
  match batch, outcomes with
  | mem :: batch', inr j :: outcomes' =>
      {| original_key := stm_redis_key mem; promoted_result := j |}
        :: promoted_of batch' outcomes'
  | _ :: batch', inl _ :: outcomes' => promoted_of batch' outcomes'
  | _, _ => []
  end.

(** The key the loop of [promote_memories] deletes for a promoted record. *)
Definition key_to_delete (mem : Entry) : list string :=
  match stm_redis_key mem with
  | Some k => if Py.truthy k then [k] else []
  | None => []
  end.

Fixpoint deleted_keys (batch : list Entry) (outcomes : list (Exn + Json)) : list string :=
  match batch, outcomes with
  | mem :: batch', inr _ :: outcomes' => key_to_delete mem ++ deleted_keys batch' outcomes'
  | _ :: batch', inl _ :: outcomes' => deleted_keys batch' outcomes'
  | _, _ => []
  end.

Definition delete_all (ks : list string) (d : gmap string Cell) : gmap string Cell :=
  foldl (fun d k => delete k d) d ks.

(** The engine after the [add] calls of a batch. *)
Fixpoint engine_after {E} `{Mem0 E} (batch : list Entry) (e : E) : E :=
  match batch with
  | [] => e
  | mem :: rest => engine_after rest (fst (mem_add (promote_args mem) e))
  end.

Definition failed_count (outcomes : list (Exn + Json)) : nat :=
  length (List.filter (fun o => negb (succeeded o)) outcomes).

(** ** A scripted engine, to run the server on concrete inputs

    The engine answers its [add] and [search] calls from a script; once the
    script is used up [add] succeeds and [search] finds nothing. *)

Module Demo.

Record Scripted := {
  added : list AddArgs;
  add_script : list (Exn + Json);
  search_script : list (Exn + list Hit);
}.

Definition scripted_add (a : AddArgs) (e : Scripted) : Scripted * (Exn + Json) :=
  match add_script e with
  | [] => ({| added := added e ++ [a]; add_script := [];
              search_script := search_script e |}, inr "{}"%string)
  | inl x :: rest =>
      ({| added := added e; add_script := rest;
          search_script := search_script e |}, inl x)
  | inr j :: rest =>
      ({| added := added e ++ [a]; add_script := rest;
          search_script := search_script e |}, inr j)
  end.

Definition scripted_search (a : SearchArgs) (e : Scripted)
  : Scripted * (Exn + list Hit) :=
  match search_script e with
  | [] => (e, inr [])
  | o :: rest =>
      ({| added := added e; add_script := add_script e; search_script := rest |}, o)
  end.

Global Instance Scripted_Mem0 : Mem0 Scripted :=
  {| mem_add := scripted_add;
     mem_search := scripted_search;
     mem_get_all := fun _ _ e => (e, inr []) |}.

Definition md5 (s : string) : string := "9f86d081884c7d659a2feaa0c55ad015".

Definition engine (adds : list (Exn + Json)) (searches : list (Exn + list Hit)) : Scripted :=
  {| added := []; add_script := adds; search_script := searches |}.

Definition world (d : gmap string Cell) (fs : list bool) (m : option Scripted)
  : World Scripted :=
  {| redis_client := Some {| db := d; faults := fs |}; memory := m;
     DbSession := None; mem_calls := [] |}.

Definition tea : Message := {| role := "user"; content := "I like tea" |}.

(** A short-term document of [owner] that has been read [n] times. *)
Definition entry (owner : string) (n : Z) : Entry :=
  {| stm_messages := [tea]; stm_user_id := Some owner; stm_agent_id := None;
     stm_session_id := None; stm_metadata := None;
     stm_created_at := Some "2024-01-01T00:00:00"%string;
     stm_access_count := Some n; stm_redis_key := None |}.

Definition cell (owner : string) (n : Z) : Cell :=
  {| ttl := Some 24; doc := entry owner n |}.

Definition key_of (owner hash : string) : string :=
  SHORT_TERM_PREFIX +:+ memory_key_of (Some owner) "20240101000000" hash.

Definition hit (name : string) (s : Q) : Hit :=
  {| hit_id := Some name; hit_memory := Some name; hit_user_id := None;
     hit_agent_id := None; hit_score := Some s; hit_metadata := None |}.

Definition boom : Exn := Exception "embedder returned no vector".

Definition now : Now := {| stamp := "20240101000000"; iso := "2024-01-01T00:00:00" |}.

(** Three keys of owner [u1]. *)
Definition k1 : string := key_of "u1" "aaaaaaaa".
Definition k2 : string := key_of "u1" "bbbbbbbb".
Definition k3 : string := key_of "u1" "cccccccc".

(** The key [add_memory] gives to [tea] added by [u1] at [now]. *)
Definition k_tea : string := key_of "u1" (content_hash_of md5 [tea]).

Definition store2 : gmap string Cell :=
  <[k1 := cell "u1" 3]> (<[k2 := cell "u1" 5]> ∅).

Definition store3 : gmap string Cell := <[k3 := cell "u1" 4]> store2.

Definition store_tea : gmap string Cell := <[k_tea := cell "u1" 2]> ∅.

(** An owner whose id has a colon, and one whose id has a bracket. *)
Definition store_colon : gmap string Cell := <[key_of "u1:x" "aaaaaaaa" := cell "u1:x" 3]> ∅.

Definition store_bracket : gmap string Cell :=
  <[key_of "a[b]c" "aaaaaaaa" := cell "a[b]c" 0]> ∅.

Definition store_u10 : gmap string Cell := <[key_of "u10" "aaaaaaaa" := cell "u10" 0]> ∅.

Definition promote_request (ids : option (list string)) : PromoteRequest :=
  {| memory_ids := ids; promote_user_id := Some "u1"%string; promote_agent_id := None |}.

Definition search_request (owner : string) (lim : Z) : SearchRequest :=
  {| query := "tea"; search_user_id := Some owner; search_agent_id := None;
     search_session_id := None; limit := lim; include_short_term := true |}.

Definition add_request (only_short_term : bool) : AddMemoryRequest :=
  {| add_messages := [tea]; add_user_id := Some "u1"%string; add_agent_id := None;
     add_session_id := None; add_metadata := None;
     short_term_only := only_short_term |}.

Definition three_hits : list Hit :=
  [hit "m1" (9 # 10); hit "m2" (5 # 10); hit "m3" (7 # 10)].

End Demo.

(** ** The other endpoints

    [GET /memories/agent/{agent_id}], [DELETE /memories/{memory_id}],
    [GET /stats], [GET /health] and the profile endpoints. *)

(** The methods of the engine these endpoints call:
    [Memory.get_all(agent_id=..., limit=...)], whose value is the
    ["results"] list, [Memory.delete(memory_id)] and
    [Memory.embedding_model.embed(text)], whose value is the vector (an
    absent vector is the empty list).  An exception they raise is given
    by its message [str(e)]. *)
Class Mem0Admin (E : Type) := {
  mem_get_all_agent : string -> Z -> E -> E * (string + list Hit);
  mem_delete : string -> E -> E * (string + unit);
  mem_embed : string -> E -> E * (string + list Q);
}.

Record AgentMemoriesResponse := {
  am_memories : list Hit;
  am_agent_id : string;
}.

Record DeleteResponse := {
  delete_success : bool;
  deleted : string;
}.

(** [embedder_details] of the health report: empty, the dimension of
    the test vector, or an error. *)
Inductive EmbedderInfo : Type :=
  | no_details
  | dims (n : nat)
  | embedder_error (msg : string).

(** [_embedder_cache]; a reading of [time.time()] is a rational, and
    the sum [now + 300] is exact. *)
Record EmbedderCache := {
  cache_ok : option bool;
  cache_info : EmbedderInfo;
  cache_expires : Q;
}.

Record HealthResponse := {
  status : string;
  service : string;
  database : string;
  short_term_memory : string;
  long_term_memory : string;
  graph_memory : string;
  embedder : string;
  embedder_details : EmbedderInfo;
}.

(** The dict returned by [get_stats]. *)
Record Stats := {
  database_available : bool;
  history_count : nat;
  short_term_available : bool;
  short_term_count : nat;
  long_term_available : bool;
}.

Section Endpoints.
Context {E : Type} `{Mem0 E} `{Mem0Admin E}.

Notation "x <- m ;; k" := (bind m (fun x => k))
  (at level 100, m at next level, right associativity).

(** The engine after one of these calls; the calls are not entered in
    [mem_calls]. *)
Definition with_engine (w : World E) (e : E) : World E :=
  {| redis_client := redis_client w; memory := Some e;
     DbSession := DbSession w; mem_calls := mem_calls w |}.

(** *** [GET /memories/agent/{agent_id}] *)

Definition get_agent_memories (agent_id : string) (limit : Z)
  : @M E AgentMemoriesResponse := fun w =>
  match memory w with
  | None => raise (HTTPException 503 "Memory system not initialized") w
  | Some e =>
      match mem_get_all_agent agent_id limit e with
      | (e', inr results) =>
          (with_engine w e', inr {| am_memories := results; am_agent_id := agent_id |})
      | (e', inl msg) => (with_engine w e', inl (HTTPException 500 msg))
      end
  end.

(** *** [DELETE /memories/{memory_id}] *)

Definition delete_memory (memory_id : string) : @M E DeleteResponse := fun w =>
  match memory w with
  | None => raise (HTTPException 503 "Memory system not initialized") w
  | Some e =>
      match mem_delete memory_id e with
      | (e', inr _) =>
          (with_engine w e', inr {| delete_success := true; deleted := memory_id |})
      | (e', inl msg) => (with_engine w e', inl (HTTPException 500 msg))
      end
  end.

(** *** [GET /stats] *)

Definition database_error : Exn := Exception "sqlalchemy.exc.OperationalError".

(** [session.query(MemoryHistory).count()] on a new session. *)
Definition count_history : @M E nat := fun w =>
  match DbSession w with
  | None => (w, inl attribute_error)
  | Some pg =>
      let pg' := {| history := history pg; pg_faults := tl (pg_faults pg) |} in
      if hd false (pg_faults pg)
      then (with_db w pg', inl database_error)
      else (with_db w pg', inr (length (history pg)))
  end.

(** [lifespan] assigns [db_engine] and [DbSession] together, so that
    [db_engine is not None] holds when [DbSession] is set.  Both counts
    start at 0 and stay there when their query raises. *)
Definition get_stats : @M E Stats := fun w =>
  let database_available := bool_decide (is_Some (DbSession w)) in
  let short_term_available := bool_decide (is_Some (redis_client w)) in
  let long_term_available := bool_decide (is_Some (memory w)) in
  (history_count <-
     (fun w => if bool_decide (is_Some (DbSession w))
               then try_except count_history (fun _ => ret 0%nat) w
               else ret 0%nat w) ;;
   short_term_count <-
     (fun w => if bool_decide (is_Some (redis_client w))
               then try_except
                      (keys <- redis (RedisCmd.keys (SHORT_TERM_PREFIX +:+ "*")) ;;
                       ret (length keys))
                      (fun _ => ret 0%nat) w
               else ret 0%nat w) ;;
   ret {| database_available := database_available;
          history_count := history_count;
          short_term_available := short_term_available;
          short_term_count := short_term_count;
          long_term_available := long_term_available |}) w.

(** *** [GET /health] *)

Definition connected (ok : bool) : string :=
  if ok then "connected" else "unavailable".

(** [redis_client.ping()]. *)
Definition ping : Redis -> Redis * (Exn + unit) := RedisCmd.run (fun d => (d, tt)).

(** The test of the embedder made when the cache has expired: the
    verdict and the details. *)
Definition probe_embedder (w : World E) : World E * (bool * EmbedderInfo) :=
  match memory w with
  | None => (w, (false, no_details))
  | Some e =>
      match mem_embed "health check" e with
      | (e', inr test_vector) =>
          (with_engine w e',
           match test_vector with
           | [] => (false, embedder_error "returned empty vector")
           | _ :: _ => (true, dims (length test_vector))
           end)
      | (e', inl msg) =>
          (with_engine w e', (false, embedder_error (String.substring 0 200 msg)))
      end
  end.

(** [now] is the reading of [time.time()], [enable_graph_env] the
    environment variable [MEM0_ENABLE_GRAPH].  As in [get_stats],
    [db_engine is not None] holds when [DbSession] is set. *)
Definition health_check (now : Q) (enable_graph_env : option string)
    (state : World E * EmbedderCache) : (World E * EmbedderCache) * HealthResponse :=
  let '(w, cache) := state in
  let postgres_ok := bool_decide (is_Some (DbSession w)) in
  let '(w, redis_ok) :=
    match redis_client w with
    | None => (w, false)
    | Some _ =>
        match redis ping w with
        | (w', inr _) => (w', true)
        | (w', inl _) => (w', false)
        end
    end in
  let '(w, cache, embedder_ok, embedder_info) :=
    if negb (Qle_bool (cache_expires cache) now)
    then (w, cache, bool_decide (cache_ok cache = Some true), cache_info cache)
    else
      let '(w, (ok, info)) := probe_embedder w in
      (w, {| cache_ok := Some ok; cache_info := info;
             cache_expires := (now + 300)%Q |}, ok, info) in
  let enable_graph :=
    String.eqb (Py.lower (default "false"%string enable_graph_env)) "true" in
  let has_memory := bool_decide (is_Some (memory w)) in
  let all_healthy := (postgres_ok && redis_ok && has_memory && embedder_ok)%bool in
  ((w, cache),
   {| status := if all_healthy then "healthy" else "degraded";
      service := "mem0-api";
      database := connected postgres_ok;
      short_term_memory := connected redis_ok;
      long_term_memory := connected has_memory;
      graph_memory :=
        if (has_memory && enable_graph)%bool then "connected"
        else if negb enable_graph then "disabled" else "unavailable";
      embedder := connected embedder_ok;
      embedder_details := embedder_info |}).

End Endpoints.

(** *** User and agent profiles

    The profile endpoints use the database and no other part of the
    process state: they are functions of the [user_profiles] and
    [agent_profiles] tables, keyed by [user_id] and [agent_id], and of
    the script of upcoming database failures.  The session factory is
    [None] when the database was not reachable at start-up.  A
    [DateTime] is kept as its [isoformat()]. *)

Record UserProfile := {
  display_name : option string;
  preferences : option Json;
  last_seen : option string;
  created_at : option string;
}.

Record AgentProfile := {
  agent_display_name : option string;
  personality : option string;
  private_notes : option string;
  agent_created_at : option string;
  updated_at : option string;
}.

Record ProfileDb := {
  user_profiles : gmap string UserProfile;
  agent_profiles : gmap string AgentProfile;
  profile_faults : list bool;
}.

Record UserProfileRequest := {
  req_display_name : option string;
  req_preferences : option Json;
}.

Record AgentProfileRequest := {
  req_agent_display_name : option string;
  req_personality : option string;
  req_private_notes : option string;
}.

(** The dict returned by [get_user_profile]: without a row only
    [user_id] and [exists: False]. *)
Inductive UserProfileResponse : Type :=
  | NoProfile (user_id : string)
  | Profile (user_id : string) (row : UserProfile).

Inductive AgentProfileResponse : Type :=
  | NoAgentProfile (agent_id : string)
  | AgentProfileOf (agent_id : string) (row : AgentProfile).

Record UpdateProfileResponse := {
  update_success : bool;
  updated_user_id : string;
}.

Record UpdateAgentResponse := {
  agent_update_success : bool;
  updated_agent_id : string;
}.

(** A statement sent to the database consumes one flag of the failure
    script and raises when the flag is set. *)
Definition next_statement (pdb : ProfileDb) : ProfileDb * bool :=
  ({| user_profiles := user_profiles pdb; agent_profiles := agent_profiles pdb;
      profile_faults := tl (profile_faults pdb) |},
   hd false (profile_faults pdb)).

(** [if request.field is not None: profile.field = request.field]. *)
Definition or_keep {A} (given stored : option A) : option A :=
  match given with
  | Some v => Some v
  | None => stored
  end.

(** [GET /profiles/user/{user_id}]. *)
Definition get_user_profile (user_id : string) (session : option ProfileDb)
  : option ProfileDb * (Exn + UserProfileResponse) :=
  match session with
  | None => (None, inl (HTTPException 503 "Database not available"))
  | Some pdb =>
      let '(pdb, failed) := next_statement pdb in
      if failed then (Some pdb, inl database_error)
      else
        match user_profiles pdb !! user_id with
        | None => (Some pdb, inr (NoProfile user_id))
        | Some profile => (Some pdb, inr (Profile user_id profile))
        end
  end.

(** [PUT /profiles/user/{user_id}].  [now] is the reading of
    [datetime.utcnow()] in the handler, [created_default] the one the
    column default of [created_at] makes when a new row is inserted. *)
Definition update_user_profile (now created_default : string) (user_id : string)
    (request : UserProfileRequest) (session : option ProfileDb)
  : option ProfileDb * (Exn + UpdateProfileResponse) :=
  match session with
  | None => (None, inl (HTTPException 503 "Database not available"))
  | Some pdb =>
      let '(pdb, failed) := next_statement pdb in
      if failed then (Some pdb, inl database_error)
      else
        let profile :=
          match user_profiles pdb !! user_id with
          | Some profile => profile
          | None => {| display_name := None; preferences := None;
                       last_seen := None; created_at := Some created_default |}
          end in
        let profile :=
          {| display_name := or_keep (req_display_name request) (display_name profile);
             preferences := or_keep (req_preferences request) (preferences profile);
             last_seen := Some now;
             created_at := created_at profile |} in
        let '(pdb, failed) := next_statement pdb in
        if failed then (Some pdb, inl database_error)
        else
          (Some {| user_profiles := <[user_id := profile]> (user_profiles pdb);
                   agent_profiles := agent_profiles pdb;
                   profile_faults := profile_faults pdb |},
           inr {| update_success := true; updated_user_id := user_id |})
  end.

(** [GET /profiles/agent/{agent_id}]. *)
Definition get_agent_profile (agent_id : string) (session : option ProfileDb)
  : option ProfileDb * (Exn + AgentProfileResponse) :=
  match session with
  | None => (None, inl (HTTPException 503 "Database not available"))
  | Some pdb =>
      let '(pdb, failed) := next_statement pdb in
      if failed then (Some pdb, inl database_error)
      else
        match agent_profiles pdb !! agent_id with
        | None => (Some pdb, inr (NoAgentProfile agent_id))
        | Some profile => (Some pdb, inr (AgentProfileOf agent_id profile))
        end
  end.

(** A field the request gives with a value other than the stored one:
    the ORM writes a row back, and applies [onupdate], only when there is
    such a field. *)
Definition gives_new (given stored : option string) : bool :=
  match given with
  | Some v => negb (bool_decide (stored = Some v))
  | None => false
  end.

(** [PUT /profiles/agent/{agent_id}].  The handler reads no clock:
    [created_default] and [updated_default] are the readings the column
    defaults make when a new row is inserted, [on_update] the one
    [onupdate] makes when a stored row is written back. *)
Definition update_agent_profile (created_default updated_default on_update : string)
    (agent_id : string) (request : AgentProfileRequest) (session : option ProfileDb)
  : option ProfileDb * (Exn + UpdateAgentResponse) :=
  match session with
  | None => (None, inl (HTTPException 503 "Database not available"))
  | Some pdb =>
      let '(pdb, failed) := next_statement pdb in
      if failed then (Some pdb, inl database_error)
      else
        let profile :=
          match agent_profiles pdb !! agent_id with
          | Some profile =>
              {| agent_display_name :=
                   or_keep (req_agent_display_name request) (agent_display_name profile);
                 personality := or_keep (req_personality request) (personality profile);
                 private_notes :=
                   or_keep (req_private_notes request) (private_notes profile);
                 agent_created_at := agent_created_at profile;
                 updated_at :=
                   if (gives_new (req_agent_display_name request)
                         (agent_display_name profile)
                       || gives_new (req_personality request) (personality profile)
                       || gives_new (req_private_notes request) (private_notes profile))%bool
                   then Some on_update
                   else updated_at profile |}
          | None =>
              {| agent_display_name := req_agent_display_name request;
                 personality := req_personality request;
                 private_notes := req_private_notes request;
                 agent_created_at := Some created_default;
                 updated_at := Some updated_default |}
          end in
        let '(pdb, failed) := next_statement pdb in
        if failed then (Some pdb, inl database_error)
        else
          (Some {| user_profiles := user_profiles pdb;
                   agent_profiles := <[agent_id := profile]> (agent_profiles pdb);
                   profile_faults := profile_faults pdb |},
           inr {| agent_update_success := true; updated_agent_id := agent_id |})
  end.

(** ** Further notions used to state the properties *)

(** The document [add_memory] hands to Redis, and the key it is stored
    under. *)
Definition stored_entry (now : Now) (request : AddMemoryRequest) : Entry :=
  {| stm_messages := add_messages request; stm_user_id := add_user_id request;
     stm_agent_id := add_agent_id request; stm_session_id := add_session_id request;
     stm_metadata := add_metadata request; stm_created_at := Some (iso now);
     stm_access_count := Some 0; stm_redis_key := None |}.

Definition stored_key (md5_hexdigest : string -> string) (now : Now)
    (request : AddMemoryRequest) : string :=
  SHORT_TERM_PREFIX +:+
  memory_key_of (add_user_id request) (stamp now)
    (content_hash_of md5_hexdigest (add_messages request)).

(** The pattern [search_memories] reads the short-term store with. *)
Definition search_pattern (request : SearchRequest) : string :=
  SHORT_TERM_PREFIX +:+ Py.or_else (search_user_id request) "*" +:+ "*".

(** The rows of the audit log of a world; none without a database. *)
Definition audit_log {E} (w : World E) : list MemoryHistory :=
  match DbSession w with
  | Some pg => history pg
  | None => []
  end.

(** The database statements of a world all succeed from now on. *)
Definition db_quiet {E} (w : World E) : Prop :=
  exists pg, DbSession w = Some pg /\ pg_faults pg = [].

(** No key appears from [d] to [d'], and a key of [d'] has the expiry
    and, but for [access_count], the document it has in [d]. *)
Definition content_kept (d d' : gmap string Cell) : Prop :=
  forall k c', d' !! k = Some c' ->
    exists c, d !! k = Some c /\ ttl c' = ttl c /\
      set_access_count 0 (doc c') = set_access_count 0 (doc c).

(** A handler that, whatever fails, creates no key and changes nothing
    of a stored entry but its [access_count]. *)
Definition keeps_content {E A} (m : @M E A) : Prop :=
  forall w, content_kept (stm_db w) (stm_db (fst (m w))).

(** Every stored entry expires. *)
Definition all_expire (d : gmap string Cell) : Prop :=
  map_Forall (fun _ c => is_Some (ttl c)) d.

(** A handler that, whatever fails, uses Redis alone: the engine, the
    log of its calls and the database stay as they are. *)
Definition redis_only {E A} (m : @M E A) : Prop :=
  forall w, memory (fst (m w)) = memory w /\
            mem_calls (fst (m w)) = mem_calls w /\
            DbSession (fst (m w)) = DbSession w.

(** A handler that, whatever fails, leaves the rows of the audit log as
    they are. *)
Definition keeps_audit {E A} (m : @M E A) : Prop :=
  forall w, audit_log (fst (m w)) = audit_log w.

(** The world after a sequence of searches. *)
Definition after_searches {E} `{Mem0 E} (requests : list SearchRequest) (w : World E)
  : World E :=
  foldl (fun w request => fst (search_memories request w)) w requests.



(** ** More concrete inputs *)

Module Cases.

(** [delete] raises for the id [missing]; [get_all] by agent returns the
    three hits of [Demo.three_hits]; [embed] returns a vector of two
    numbers. *)
Global Instance Scripted_Mem0Admin : Mem0Admin Demo.Scripted :=
  {| mem_get_all_agent := fun _ _ e => (e, inr Demo.three_hits);
     mem_delete := fun memory_id e =>
       if String.eqb memory_id "missing"
       then (e, inl "memory not found"%string)
       else (e, inr tt);
     mem_embed := fun _ e => (e, inr [1 # 2; 1 # 4]%Q) |}.

(** A world with a database that answers and an empty audit log. *)
Definition world_db (d : gmap string Cell) (m : option Demo.Scripted)
  : World Demo.Scripted :=
  {| redis_client := Some {| db := d; faults := [] |}; memory := m;
     DbSession := Some {| history := []; pg_faults := [] |}; mem_calls := [] |}.

Definition search_for (q : string) (owner : option string) (include : bool)
  : SearchRequest :=
  {| query := q; search_user_id := owner; search_agent_id := None;
     search_session_id := None; limit := 10; include_short_term := include |}.

Definition system_message : Message := {| role := "system"; content := "be brief" |}.

(** A store with two promotable entries of [u1] and one read twice. *)
Definition store_mixed : gmap string Cell :=
  <[Demo.k3 := Demo.cell "u1" 2]> Demo.store2.

Definition ann : UserProfile :=
  {| display_name := Some "Ann"%string; preferences := None;
     last_seen := Some "2024-01-01T00:00:00"%string;
     created_at := Some "2024-01-01T00:00:00"%string |}.

Definition scout : AgentProfile :=
  {| agent_display_name := Some "Scout"%string; personality := Some "curious"%string;
     private_notes := None;
     agent_created_at := Some "2024-01-01T00:00:00"%string;
     updated_at := Some "2024-01-01T00:00:00"%string |}.

Definition profiles : ProfileDb :=
  {| user_profiles := <["u1"%string := ann]> ∅;
     agent_profiles := <["a1"%string := scout]> ∅;
     profile_faults := [] |}.

Definition set_notes : AgentProfileRequest :=
  {| req_agent_display_name := Some "Scout"%string; req_personality := None;
     req_private_notes := Some "asked about tea"%string |}.

Definition cold_cache : EmbedderCache :=
  {| cache_ok := None; cache_info := no_details; cache_expires := 0 |}.

Definition set_preferences : UserProfileRequest :=
  {| req_display_name := None; req_preferences := Some "{}"%string |}.

End Cases.

(** * Properties *)

(** ** Strings and patterns *)

Section StringFacts.

Lemma app_nil (b : string) : "" +:+ b = b.
Proof. reflexivity. Qed.

Lemma app_cons (c : ascii) (a b : string) : String c a +:+ b = String c (a +:+ b).
Proof. reflexivity. Qed.

Lemma append_assoc (a b c : string) : (a +:+ b) +:+ c = a +:+ (b +:+ c).
Proof.
induction a as [|x a IH]; [reflexivity |].
rewrite !app_cons. by f_equal.
Qed.

Lemma lex_literal (p q : string) :
Glob.literal p = true ->
Glob.lex Glob.Norm (p +:+ q) = Glob.lits p ++ Glob.lex Glob.Norm q.
Proof.
induction p as [|c p IH]; [reflexivity |].
cbn [Glob.literal Glob.lits]. intros [Hc Hp]%andb_prop.
rewrite app_cons, <- app_comm_cons, <- (IH Hp).
unfold Glob.is_meta in Hc.
destruct c as [[] [] [] [] [] [] [] []]; simpl in Hc; try discriminate; reflexivity.
Qed.

Lemma tmatch_lits (p s : string) (ts : list Glob.tok) :
Glob.tmatch (Glob.lits p ++ ts) (p +:+ s) = Glob.tmatch ts s.
Proof.
induction p as [|c p IH]; [reflexivity |].
rewrite app_cons. cbn [Glob.lits app Glob.tmatch].
by rewrite Ascii.eqb_refl, IH.
Qed.

Lemma tmatch_lits_inv (p s : string) (ts : list Glob.tok) :
Glob.tmatch (Glob.lits p ++ ts) s = true ->
exists s', s = p +:+ s' /\ Glob.tmatch ts s' = true.
Proof.
revert s; induction p as [|c p IH]; intros s Hm.
- by exists s.
- cbn [Glob.lits app Glob.tmatch] in Hm.
  destruct s as [|c' s]; [discriminate |].
  apply andb_prop in Hm as [Hc Hm]. apply Ascii.eqb_eq in Hc as ->.
  destruct (IH _ Hm) as (s' & -> & Hs'). by exists s'.
Qed.

Lemma tmatch_star (ts : list Glob.tok) (s : string) :
Glob.tmatch ts s = true -> Glob.tmatch (Glob.TStar :: ts) s = true.
Proof. intros Hm. cbn [Glob.tmatch]. destruct s; rewrite Hm; reflexivity. Qed.

Lemma tmatch_star_skip (ts : list Glob.tok) (a s : string) :
Glob.tmatch (Glob.TStar :: ts) s = true ->
Glob.tmatch (Glob.TStar :: ts) (a +:+ s) = true.
Proof.
induction a as [|c a IH]; [done |].
intros Hm. specialize (IH Hm). rewrite app_cons.
cbn [Glob.tmatch] in *. rewrite IH. apply orb_true_r.
Qed.

Lemma tmatch_star_any (s : string) : Glob.tmatch [Glob.TStar] s = true.
Proof.
induction s as [|c s IH]; [reflexivity |].
cbn [Glob.tmatch] in *. rewrite IH. apply orb_true_r.
Qed.

End StringFacts.

(** ** The stable descending sort *)

Section SortFacts.
Context {A : Type} (key : A -> Q).

Lemma insert_desc_perm (x : A) (l : list A) :
  Permutation (insert_desc key x l) (x :: l).
Proof.
  induction l as [|y l IH]; cbn [insert_desc]; [reflexivity |].
  destruct (Qle_bool (key y) (key x)); [reflexivity |].
  rewrite IH. apply perm_swap.
Qed.

Lemma sort_desc_perm (l : list A) : Permutation (sort_desc key l) l.
Proof.
  induction l as [|x l IH]; cbn [sort_desc]; [reflexivity |].
  rewrite insert_desc_perm. by constructor.
Qed.

Lemma insert_desc_sorted (x : A) (l : list A) :
  StronglySorted (desc key) l -> StronglySorted (desc key) (insert_desc key x l).
Proof.
  induction 1 as [|y l Hl IH Hy]; cbn [insert_desc].
  - repeat constructor.
  - destruct (Qle_bool (key y) (key x)) eqn:Hle.
    + apply Qle_bool_iff in Hle.
      constructor; [by constructor |].
      constructor; [exact Hle |].
      eapply Forall_impl; [exact Hy |].
      intros z Hz. unfold desc in *. eapply Qle_trans; eassumption.
    + constructor; [exact IH |].
      rewrite insert_desc_perm. constructor; [| exact Hy].
      unfold desc. apply Qlt_le_weak, Qnot_le_lt.
      intros Hc. apply Qle_bool_iff in Hc. congruence.
Qed.

Lemma sort_desc_sorted (l : list A) : StronglySorted (desc key) (sort_desc key l).
Proof.
  induction l as [|x l IH]; cbn [sort_desc]; [constructor |].
  by apply insert_desc_sorted.
Qed.

(** Stability: the elements of any given key keep their order. *)
Lemma insert_desc_stable (v : Q) (x : A) (l : list A) :
  List.filter (has_key key v) (insert_desc key x l) = List.filter (has_key key v) (x :: l).
Proof.
  induction l as [|y l IH]; cbn [insert_desc]; [reflexivity |].
  destruct (Qle_bool (key y) (key x)) eqn:Hle; [reflexivity |].
  cbn [List.filter] in *. rewrite IH.
  destruct (has_key key v y) eqn:Hy, (has_key key v x) eqn:Hx; try reflexivity.
  exfalso. unfold has_key in *.
  apply Qeq_bool_iff in Hy, Hx.
  assert (Qle_bool (key y) (key x) = true); [| congruence].
  apply Qle_bool_iff. rewrite Hy, Hx. apply Qle_refl.
Qed.

Lemma sort_desc_stable (v : Q) (l : list A) :
  List.filter (has_key key v) (sort_desc key l) = List.filter (has_key key v) l.
Proof.
  induction l as [|x l IH]; cbn [sort_desc]; [reflexivity |].
  rewrite insert_desc_stable. cbn [List.filter]. by rewrite IH.
Qed.

Lemma StronglySorted_firstn (R : A -> A -> Prop) (n : nat) (l : list A) :
  StronglySorted R l -> StronglySorted R (firstn n l).
Proof.
  intros Hl. revert n. induction Hl as [|x l Hl IH Hx]; intros [|n]; cbn [firstn];
    try constructor; [apply IH |].
  apply Forall_forall. intros y Hy. rewrite Forall_forall in Hx.
  apply Hx. rewrite <- (take_drop n l). apply elem_of_app. by left.
Qed.

(** If a list is cut in two ways and the element [d] of the second cut
    is not in the first part of the first cut, then what follows [d]
    lies in the second part of the first cut. *)
Lemma app_split_tail (a b x y : list A) (d : A) :
  a ++ b = x ++ d :: y -> ~ In d a -> forall e, In e y -> In e b.
Proof.
  revert x. induction a as [|a0 a IH]; intros x Heq Hd e He.
  - cbn [app] in Heq. subst b. apply in_or_app. right. by right.
  - destruct x as [|x0 x]; cbn [app] in Heq; injection Heq as -> Heq.
    + exfalso. apply Hd. by left.
    + eapply IH; eauto. intros Hin. apply Hd. by right.
Qed.

End SortFacts.

(** ** Redis with no failure ahead *)

Section QuietFacts.
Context {E : Type} `{Mem0 E}.
Implicit Types (d : gmap string Cell) (m : option E) (s : option Postgres)
  (cs : list MemCall) (w : World E).

Lemma redis_quiet_inv w :
  redis_quiet w -> exists d m s cs, w = qworld d m s cs.
Proof.
  intros (r & Hr & Hf). destruct w as [rc m s cs], r as [d fs].
  cbn in *. subst. by exists d, m, s, cs.
Qed.

Lemma redis_quiet_qworld d m s cs : redis_quiet (qworld d m s cs).
Proof. by eexists. Qed.

Lemma bump_where_lookup (p : string -> bool) d (k : string) :
  bump_where p d !! k = (fun c => if p k then bump_cell c else c) <$> d !! k.
Proof. unfold bump_where. rewrite map_lookup_imap. by destruct (d !! k). Qed.

Lemma elem_of_keys_of (pattern : string) d (k : string) :
  k ∈ keys_of pattern d <-> Glob.matches pattern k = true /\ is_Some (d !! k).
Proof.
  unfold keys_of. rewrite list_elem_of_filter, list_elem_of_fmap.
  split.
  - intros (Hm & [k' c'] & -> & Hin). split; [done |].
    apply elem_of_map_to_list in Hin. by eexists.
  - intros (Hm & c' & Hc). split; [done |].
    exists (k, c'). split; [done |]. by apply elem_of_map_to_list.
Qed.

Lemma NoDup_keys_of (pattern : string) d : NoDup (keys_of pattern d).
Proof. apply NoDup_filter, NoDup_fst_map_to_list. Qed.

Lemma bind_inr {A B} (mm : M A) (k : A -> M B) w w' (a : A) :
  mm w = (w', inr a) -> bind mm k w = k a w'.
Proof. unfold bind. by intros ->. Qed.

Lemma bind_inl {A B} (mm : M A) (k : A -> M B) w w' (e : Exn) :
  mm w = (w', inl e) -> bind mm k w = (w', inl e).
Proof. unfold bind. by intros ->. Qed.

Lemma try_inr {A} (mm : M A) (h : Exn -> M A) w w' (a : A) :
  mm w = (w', inr a) -> try_except mm h w = (w', inr a).
Proof. unfold try_except. by intros ->. Qed.

Lemma try_inl {A} (mm : M A) (h : Exn -> M A) w w' (e : Exn) :
  mm w = (w', inl e) -> try_except mm h w = h e w'.
Proof. unfold try_except. by intros ->. Qed.

Lemma redis_keys_quiet (pattern : string) d m s cs :
  redis (RedisCmd.keys pattern) (qworld d m s cs)
  = (qworld d m s cs, inr (keys_of pattern d)).
Proof. reflexivity. Qed.

Lemma redis_get_quiet (k : string) d m s cs :
  redis (RedisCmd.get k) (qworld d m s cs) = (qworld d m s cs, inr (d !! k)).
Proof. reflexivity. Qed.

Lemma redis_set_quiet (k : string) (v : Entry) d m s cs :
  redis (RedisCmd.set_keepttl k v) (qworld d m s cs)
  = (qworld (<[k := {| ttl := d !! k ≫= ttl; doc := v |}]> d) m s cs, inr tt).
Proof. reflexivity. Qed.

Lemma redis_setex_quiet (k : string) (hours : Z) (v : Entry) d m s cs :
  redis (RedisCmd.setex k hours v) (qworld d m s cs)
  = (qworld (<[k := {| ttl := Some hours; doc := v |}]> d) m s cs, inr tt).
Proof. reflexivity. Qed.

Lemma redis_delete_quiet (k : string) d m s cs :
  redis (RedisCmd.delete k) (qworld d m s cs)
  = (qworld (delete k d) m s cs, inr tt).
Proof. reflexivity. Qed.

(** The loop of [get_short_term] on distinct keys. *)
Lemma get_short_term_loop_quiet (ks : list string) :
  NoDup ks -> forall d acc m s cs,
  get_short_term_loop ks acc (qworld d m s cs) =
    (qworld (bump_where (fun k => bool_decide (k ∈ ks)) d) m s cs,
     inr (acc ++ omap (fun k => (fun c => bump (doc c)) <$> d !! k) ks)).
Proof.
  induction 1 as [|k ks Hk Hks IH]; intros d acc m s cs.
  - cbn [get_short_term_loop omap list_omap]. unfold ret. rewrite app_nil_r.
    f_equal. f_equal. apply map_eq. intros k. rewrite bump_where_lookup.
    rewrite bool_decide_eq_false_2 by apply not_elem_of_nil.
    by destruct (d !! k).
  - cbn [get_short_term_loop].
    rewrite (bind_inr _ _ _ _ _ (redis_get_quiet _ _ _ _ _)).
    destruct (d !! k) as [cell|] eqn:Hd.
    + rewrite (bind_inr _ _ _ _ _ (redis_set_quiet _ _ _ _ _ _)).
      rewrite IH. cbn [omap list_omap]. rewrite Hd.
      cbn [fmap option_fmap option_map mbind option_bind].
      rewrite <- app_assoc. cbn [app].
      f_equal; [f_equal | do 3 f_equal].
      * apply map_eq. intros k'. rewrite !bump_where_lookup.
        destruct (decide (k' = k)) as [->|Hne].
        -- rewrite lookup_insert_eq, Hd. cbn.
           rewrite bool_decide_eq_false_2 by done.
           rewrite bool_decide_eq_true_2 by apply list_elem_of_here.
           done.
        -- rewrite lookup_insert_ne by done.
           destruct (d !! k') as [c'|]; [cbn | done].
           destruct (decide (k' ∈ ks)).
           ++ rewrite !bool_decide_eq_true_2; [done | by apply list_elem_of_further | done].
           ++ rewrite !bool_decide_eq_false_2; [done | | done].
              rewrite elem_of_cons. tauto.
      * apply list_omap_ext, Forall_Forall2_diag, Forall_forall.
        intros k' Hk'. rewrite lookup_insert_ne; [done |]. by intros ->.
    + rewrite IH. cbn [omap list_omap]. rewrite Hd.
      cbn [fmap option_fmap option_map].
      f_equal; f_equal. apply map_eq. intros k'. rewrite !bump_where_lookup.
      destruct (decide (k' = k)) as [->|Hne]; [by rewrite Hd |].
      destruct (d !! k') as [c'|]; [cbn | done].
      destruct (decide (k' ∈ ks)).
      * rewrite !bool_decide_eq_true_2; [done | by apply list_elem_of_further | done].
      * rewrite !bool_decide_eq_false_2; [done | | done].
        rewrite elem_of_cons. tauto.
Qed.

Lemma get_short_term_quiet (pattern : string) d m s cs :
  get_short_term pattern (qworld d m s cs) =
    (qworld (bump_where (Glob.matches (SHORT_TERM_PREFIX +:+ pattern +:+ "*")) d) m s cs,
     inr (read_of pattern d)).
Proof.
  unfold get_short_term. cbn [redis_client qworld]. fold (qworld d m s cs).
  erewrite try_inr; [reflexivity |].
  rewrite (bind_inr _ _ _ _ _ (redis_keys_quiet _ _ _ _ _)).
  rewrite get_short_term_loop_quiet by apply NoDup_keys_of.
  cbn [app]. unfold read_of. f_equal. f_equal.
  apply map_eq. intros k. rewrite !bump_where_lookup.
  destruct (d !! k) as [c|] eqn:Hd; [cbn | done].
  destruct (Glob.matches _ k) eqn:Hm.
  - rewrite bool_decide_eq_true_2; [done |]. apply elem_of_keys_of. eauto.
  - rewrite bool_decide_eq_false_2; [done |].
    rewrite elem_of_keys_of. intros [? _]. congruence.
Qed.

(** The promotion scan reads and changes nothing. *)
Lemma get_promotable_loop_quiet (ks : list string) d acc m s cs :
  get_promotable_loop ks acc (qworld d m s cs) =
    (qworld d m s cs, inr (acc ++ omap (promotable_doc d) ks)).
Proof.
  revert acc. induction ks as [|k ks IH]; intros acc.
  - cbn [get_promotable_loop omap list_omap]. unfold ret. by rewrite app_nil_r.
  - cbn [get_promotable_loop omap list_omap].
    rewrite (bind_inr _ _ _ _ _ (redis_get_quiet _ _ _ _ _)).
    unfold promotable_doc at 1.
    destruct (d !! k) as [cell|] eqn:Hd; cbn [mbind option_bind].
    + destruct (PROMOTION_THRESHOLD <=? _); rewrite IH; [| done].
      by rewrite <- app_assoc.
    + apply IH.
Qed.

Lemma get_promotable_memories_quiet (user_id : option string) d m s cs :
  get_promotable_memories user_id (qworld d m s cs) =
    (qworld d m s cs, inr (promotable_of user_id d)).
Proof.
  unfold get_promotable_memories. cbn [redis_client qworld]. fold (qworld d m s cs).
  erewrite try_inr; [reflexivity |].
  rewrite (bind_inr _ _ _ _ _ (redis_keys_quiet _ _ _ _ _)).
  by rewrite get_promotable_loop_quiet.
Qed.

Lemma elem_of_promotable_of (user_id : option string) d (mem : Entry) :
  mem ∈ promotable_of user_id d <->
  exists k cell, d !! k = Some cell /\
    Glob.matches (promotable_pattern user_id) k = true /\
    PROMOTION_THRESHOLD <= get_access_count (doc cell) /\
    mem = set_redis_key k (doc cell).
Proof.
  unfold promotable_of. rewrite list_elem_of_omap. split.
  - intros (k & Hk & Hdoc). apply elem_of_keys_of in Hk as [Hm _].
    unfold promotable_doc in Hdoc.
    destruct (d !! k) as [cell|] eqn:Hd; [cbn in Hdoc | done].
    destruct (PROMOTION_THRESHOLD <=? _) eqn:Hle; [| done].
    injection Hdoc as <-. exists k, cell. repeat split; try done. lia.
  - intros (k & cell & Hd & Hm & Hle & ->). exists k. split.
    + apply elem_of_keys_of. eauto.
    + unfold promotable_doc. rewrite Hd. cbn.
      destruct (PROMOTION_THRESHOLD <=? _) eqn:Hle'; [done | lia].
Qed.

End QuietFacts.

(** ** The promotion loop *)

Section PromoteFacts.
Context {E : Type} `{Mem0 E}.
Implicit Types (d : gmap string Cell) (s : option Postgres)
  (cs : list MemCall) (w : World E) (e : E).

Lemma delete_all_lookup (ks : list string) d (k : string) :
  delete_all ks d !! k = if decide (k ∈ ks) then None else d !! k.
Proof.
  unfold delete_all. revert d. induction ks as [|k0 ks IH]; intros d; cbn [foldl].
  - by rewrite decide_False by apply not_elem_of_nil.
  - rewrite IH. destruct (decide (k ∈ ks)) as [Hin|Hni].
    + by rewrite decide_True by (by apply list_elem_of_further).
    + destruct (decide (k = k0)) as [->|Hne].
      * rewrite lookup_delete_eq. by rewrite decide_True by apply list_elem_of_here.
      * rewrite lookup_delete_ne by done.
        rewrite decide_False; [done |]. rewrite elem_of_cons. tauto.
Qed.

Lemma delete_all_app (ks1 ks2 : list string) d :
  delete_all (ks1 ++ ks2) d = delete_all ks2 (delete_all ks1 d).
Proof. unfold delete_all. apply foldl_app. Qed.

Lemma mem0_call_qworld {A} (call : MemCall) (f : E -> E * (Exn + A)) d e s cs :
  mem0_call call f (qworld d (Some e) s cs) =
    (qworld d (Some (fst (f e))) s (cs ++ [call]), snd (f e)).
Proof. unfold mem0_call. cbn. by destruct (f e). Qed.

Lemma promote_one_quiet (mem : Entry) (acc : list Promoted) d e s cs :
  promote_one mem acc (qworld d (Some e) s cs) =
    (qworld (delete_all (deleted_keys [mem] [snd (mem_add (promote_args mem) e)]) d)
            (Some (fst (mem_add (promote_args mem) e))) s
            (cs ++ [CallAdd (promote_args mem)]),
     inr (acc ++ promoted_of [mem] [snd (mem_add (promote_args mem) e)])).
Proof.
  unfold promote_one.
  pose proof (mem0_call_qworld (CallAdd (promote_args mem))
                (mem_add (promote_args mem)) d e s cs) as Hcall.
  destruct (mem_add (promote_args mem) e) as [e' [x|j]]; cbn [fst snd] in *.
  - erewrite try_inl; [| by erewrite bind_inl].
    unfold ret. cbn. by rewrite app_nil_r.
  - erewrite try_inr; [reflexivity |].
    rewrite (bind_inr _ _ _ _ _ Hcall).
    cbn [deleted_keys promoted_of]. rewrite app_nil_r.
    unfold key_to_delete. cbn [redis_client qworld].
    destruct (stm_redis_key mem) as [k|]; [destruct (Py.truthy k) |].
    + erewrite bind_inr; [| unfold redis; cbn; reflexivity]. reflexivity.
    + by erewrite bind_inr.
    + by erewrite bind_inr.
Qed.

Lemma promote_loop_quiet (batch : list Entry) (acc : list Promoted) d e s cs :
  promote_loop batch acc (qworld d (Some e) s cs) =
    (qworld (delete_all (deleted_keys batch (add_outcomes batch e)) d)
            (Some (engine_after batch e)) s
            (cs ++ map (fun mem => CallAdd (promote_args mem)) batch),
     inr (acc ++ promoted_of batch (add_outcomes batch e))).
Proof.
  revert acc d e cs. induction batch as [|mem batch IH]; intros acc d e cs.
  - cbn. unfold ret. by rewrite !app_nil_r.
  - cbn [promote_loop].
    rewrite (bind_inr _ _ _ _ _ (promote_one_quiet _ _ _ _ _ _)).
    rewrite IH. cbn [add_outcomes engine_after map].
    destruct (mem_add (promote_args mem) e) as [e' o]; cbn [fst snd].
    rewrite <- !app_assoc. cbn [app].
    destruct o as [x|j]; cbn [deleted_keys promoted_of app];
      rewrite ?app_nil_r, ?delete_all_app; reflexivity.
Qed.

Lemma promote_memories_quiet (request : PromoteRequest) d e s cs :
  let batch := promotable_of (promote_user_id request) d in
  let outcomes := add_outcomes batch e in
  promote_memories request (qworld d (Some e) s cs) =
    (qworld (delete_all (deleted_keys batch outcomes) d)
            (Some (engine_after batch e)) s
            (cs ++ map (fun mem => CallAdd (promote_args mem)) batch),
     inr {| promoted_count := length (promoted_of batch outcomes);
            promoted := promoted_of batch outcomes |}).
Proof.
  intros batch outcomes. unfold promote_memories. cbn [memory qworld].
  fold (qworld d (Some e) s cs).
  rewrite (bind_inr _ _ _ _ _ (get_promotable_memories_quiet _ _ _ _ _)).
  by rewrite (bind_inr _ _ _ _ _ (promote_loop_quiet _ _ _ _ _ _)).
Qed.

End PromoteFacts.

(** ** Adding a memory *)

Section AddFacts.
Context {E : Type} `{Mem0 E}.
Variable md5_hexdigest : string -> string.
Implicit Types (w : World E).

(** What [store_short_term] does, case by case. *)
Lemma store_short_term_spec (now_iso key : string) (data : Entry) (hours : Z) w :
  store_short_term now_iso key data hours w =
    match redis_client w with
    | None => (w, inr false)
    | Some r =>
        if hd false (faults r)
        then (with_redis w {| db := db r; faults := tl (faults r) |}, inr false)
        else (with_redis w
                {| db := <[SHORT_TERM_PREFIX +:+ key :=
                            {| ttl := Some hours;
                               doc := set_access_count 0 (set_created_at now_iso data) |}]>
                          (db r);
                   faults := tl (faults r) |}, inr true)
    end.
Proof.
  unfold store_short_term. destruct (redis_client w) as [r|] eqn:Hr; [| done].
  unfold try_except, bind, redis, RedisCmd.setex, RedisCmd.run. rewrite Hr.
  by destruct (hd false (faults r)).
Qed.

(** The audit log never raises and touches neither Redis nor the engine. *)
Lemma log_operation_spec (entry : MemoryHistory) w :
  exists w', log_operation entry w = (w', inr tt) /\
    redis_client w' = redis_client w /\ memory w' = memory w /\
    mem_calls w' = mem_calls w.
Proof.
  unfold log_operation. destruct (DbSession w) as [pg|]; [| by eexists].
  destruct (hd false (pg_faults pg)); by eexists.
Qed.

Lemma store_short_term_frame (now_iso key : string) (data : Entry) (hours : Z) w :
  exists w' b, store_short_term now_iso key data hours w = (w', inr b) /\
    memory w' = memory w /\ mem_calls w' = mem_calls w /\
    (b = true <-> exists r, redis_client w = Some r /\ hd false (faults r) = false).
Proof.
  rewrite store_short_term_spec. destruct (redis_client w) as [r|].
  - destruct (hd false (faults r)) eqn:Hf; do 2 eexists; (split; [reflexivity |]);
      repeat split; try done; eauto.
    intros (r' & [= <-] & Hf'). congruence.
  - do 2 eexists. split; [reflexivity |]. repeat split; try done.
    by intros (r & ? & _).
Qed.


(** The long-term step never raises; it leaves Redis alone, and without
    a call to the engine it leaves the engine alone. *)
Lemma add_long_term_spec (request : AddMemoryRequest) (hash : string) w :
  exists w' o, add_long_term request hash w = (w', inr o) /\
    redis_client w' = redis_client w /\
    (short_term_only request = true ->
       memory w' = memory w /\ mem_calls w' = mem_calls w /\ o = None) /\
    (is_Some o <->
       short_term_only request = false /\
       exists e j, memory w = Some e /\
         snd (mem_add (add_args request) e) = inr j).
Proof.
  unfold add_long_term.
  destruct (short_term_only request) eqn:Hsto; cbn [negb andb].
  { exists w, None. split; [reflexivity |]. split; [done |].
    split; [done |]. split; [by intros [? ?] | by intros [? _]]. }
  destruct (memory w) as [e|] eqn:Hm.
  2: { rewrite bool_decide_eq_false_2 by (by intros [? ?]).
       exists w, None. split; [reflexivity |]. split; [done |].
       split; [done |].
       split; [by intros [? ?] | by intros (_ & ? & ? & ? & _)]. }
  rewrite bool_decide_eq_true_2 by eauto.
  unfold try_except, bind, mem0_call. rewrite Hm.
  destruct (mem_add (add_args request) e) as [e' [x|j]] eqn:Hadd.
  - eexists _, None. split; [reflexivity |]. split; [done |].
    split; [done |]. split; [by intros [? ?] |].
    intros (_ & e0 & j & [= <-] & Hj). rewrite Hadd in Hj. done.
  - match goal with |- context [log_operation ?en ?w0] =>
      destruct (log_operation_spec en w0) as (w2 & -> & Hr2 & Hm2 & Hc2) end.
    eexists _, (Some j). split; [reflexivity |]. split; [done |].
    split; [done |]. split; [| by eauto].
    intros _. split; [done |]. exists e, j. by rewrite Hadd.
Qed.

(** One run of [add_memory]: the response and what each step did. *)
Lemma add_memory_run (now : Now) (request : AddMemoryRequest) w :
  exists w' b o,
    add_memory md5_hexdigest now request w =
      (w', inr {| success := true; short_term := b;
                  long_term := bool_decide (is_Some o);
                  memory_key :=
                    if b then Some (memory_key_of (add_user_id request) (stamp now)
                                      (content_hash_of md5_hexdigest (add_messages request)))
                    else None;
                  result := o |}) /\
    (b = true <-> exists r, redis_client w = Some r /\ hd false (faults r) = false) /\
    (is_Some o <->
       short_term_only request = false /\
       exists e j, memory w = Some e /\
         snd (mem_add (add_args request) e) = inr j) /\
    (short_term_only request = true ->
       memory w' = memory w /\ mem_calls w' = mem_calls w /\ o = None) /\
    redis_client w' =
      redis_client (fst (store_short_term (iso now)
        (memory_key_of (add_user_id request) (stamp now)
           (content_hash_of md5_hexdigest (add_messages request)))
        {| stm_messages := add_messages request; stm_user_id := add_user_id request;
           stm_agent_id := add_agent_id request;
           stm_session_id := add_session_id request;
           stm_metadata := add_metadata request;
           stm_created_at := None; stm_access_count := None;
           stm_redis_key := None |} SHORT_TERM_TTL_HOURS w)).
Proof.
  unfold add_memory; cbv zeta.
  match goal with |- context [store_short_term ?a ?b ?c ?d] =>
    destruct (store_short_term_frame a b c d w) as (w1 & b1 & Hst & Hm1 & Hc1 & Hb) end.
  rewrite (bind_inr _ _ _ _ _ Hst).
  match goal with |- context [bind (if b1 then ?l else ret tt)] =>
    assert (exists w2, (if b1 then l else ret tt) w1 = (w2, inr tt) /\
              memory w2 = memory w1 /\ mem_calls w2 = mem_calls w1 /\
              redis_client w2 = redis_client w1)
      as (w2 & Hlog & Hm2 & Hc2 & Hr2) end.
  { destruct b1.
    - match goal with |- context [log_operation ?en w1] =>
        destruct (log_operation_spec en w1) as (w2 & Hl & ? & ? & ?) end.
      by exists w2.
    - by exists w1. }
  rewrite (bind_inr _ _ _ _ _ Hlog).
  destruct (add_long_term_spec request
              (content_hash_of md5_hexdigest (add_messages request)) w2)
    as (w3 & o & Hlt & Hr3 & Hskip & Ho).
  rewrite (bind_inr _ _ _ _ _ Hlt). unfold ret.
  exists w3, b1, o. split; [reflexivity |]. split; [done |].
  split; [by rewrite Ho, Hm2, Hm1 |].
  split; [| by rewrite Hst, Hr3, Hr2].
  intros Hsto. destruct (Hskip Hsto) as (? & ? & ?).
  split; [congruence |]. split; [congruence | done].
Qed.

(** Keys other than the one written are left as they were. *)
Lemma store_short_term_other_keys (now_iso key : string) (data : Entry) (hours : Z)
    w (k : string) :
  k <> SHORT_TERM_PREFIX +:+ key ->
  stm_db (fst (store_short_term now_iso key data hours w)) !! k = stm_db w !! k.
Proof.
  intros Hne. rewrite store_short_term_spec. unfold stm_db.
  destruct (redis_client w) as [r|] eqn:Hr; [| cbn [fst]; by rewrite Hr].
  destruct (hd false (faults r)); cbn; [done |].
  by rewrite lookup_insert_ne.
Qed.

Lemma add_memory_other_keys (now : Now) (request : AddMemoryRequest) w (k : string) :
  k <> SHORT_TERM_PREFIX +:+ memory_key_of (add_user_id request) (stamp now)
                             (content_hash_of md5_hexdigest (add_messages request)) ->
  stm_db (fst (add_memory md5_hexdigest now request w)) !! k = stm_db w !! k.
Proof.
  intros Hne.
  destruct (add_memory_run now request w) as (w' & b & o & -> & _ & _ & _ & Hr).
  cbn [fst]. unfold stm_db at 1. rewrite Hr.
  by apply store_short_term_other_keys.
Qed.

(** C6: every add request is answered, not failed, with [success] true;
    [short_term] is true exactly when the Redis write went through (a
    missing client or a failing SETEX gives false), and [long_term] is
    true exactly when the durable write was requested, an engine exists
    and its [add] returned (a raising [add] gives false). *)
Theorem add_memory_reports_tiers (now : Now) (request : AddMemoryRequest) w :
  exists resp,
    snd (add_memory md5_hexdigest now request w) = inr resp /\
    success resp = true /\
    (short_term resp = true <->
       exists r, redis_client w = Some r /\ hd false (faults r) = false) /\
    (long_term resp = true <->
       short_term_only request = false /\
       exists e j, memory w = Some e /\
         snd (mem_add (add_args request) e) = inr j).
Proof.
  destruct (add_memory_run now request w) as (w' & b & o & -> & Hb & Ho & _ & _).
  eexists. split; [reflexivity |]. cbn.
  split; [done |]. split; [done |]. by rewrite bool_decide_eq_true.
Qed.

(** C5: a short-term-only add makes no call to the engine, leaves the
    engine as it was and answers with [long_term] false. *)
Theorem add_short_term_only_skips_engine (now : Now) (request : AddMemoryRequest) w :
  short_term_only request = true ->
  memory (fst (add_memory md5_hexdigest now request w)) = memory w /\
  mem_calls (fst (add_memory md5_hexdigest now request w)) = mem_calls w /\
  exists resp, snd (add_memory md5_hexdigest now request w) = inr resp /\
    long_term resp = false.
Proof.
  intros Hsto.
  destruct (add_memory_run now request w) as (w' & b & o & -> & _ & _ & Hskip & _).
  destruct (Hskip Hsto) as (Hm & Hc & ->). cbn [fst snd].
  split; [done |]. split; [done |].
  eexists. split; [reflexivity |]. done.
Qed.

End AddFacts.

(** ** Promotion under any failure script *)

Section AnyFailure.
Context {E : Type} `{Mem0 E}.
Implicit Types (d : gmap string Cell) (w : World E) (e : E).

Lemma promotable_doc_Some d (k : string) (cell : Cell) :
  d !! k = Some cell ->
  promotable_doc d k =
    if PROMOTION_THRESHOLD <=? get_access_count (doc cell)
    then Some (set_redis_key k (doc cell)) else None.
Proof. intros Hk. unfold promotable_doc. by rewrite Hk. Qed.

Lemma promotable_doc_None d (k : string) :
  d !! k = None -> promotable_doc d k = None.
Proof. intros Hk. unfold promotable_doc. by rewrite Hk. Qed.

(** The scan loop either raises or returns the selection; it changes
    nothing but the failure script. *)
Lemma get_promotable_loop_any (ks : list string) (acc : list Entry) w :
  exists w' out,
    get_promotable_loop ks acc w = (w', out) /\
    stm_db w' = stm_db w /\ memory w' = memory w /\ mem_calls w' = mem_calls w /\
    (out = inr (acc ++ omap (promotable_doc (stm_db w)) ks) \/ exists x, out = inl x).
Proof.
  revert acc w. induction ks as [|k ks IH]; intros acc w.
  { eexists _, _. split; [reflexivity |]. repeat split; try done.
    left. cbn. by rewrite app_nil_r. }
  cbn [get_promotable_loop]. unfold bind at 1, redis at 1.
  destruct (redis_client w) as [r|] eqn:Hr.
  2: { eexists _, _. split; [reflexivity |]. repeat split; try done. right. by eexists. }
  unfold RedisCmd.get, RedisCmd.run.
  destruct (hd false (faults r)).
  { eexists _, _. split; [reflexivity |]. unfold stm_db. cbn. rewrite Hr.
    repeat split; try done. right. by eexists. }
  cbn [fst snd].
  set (w1 := with_redis w {| db := db r; faults := tl (faults r) |}).
  assert (stm_db w1 = stm_db w) as Hdb by (unfold stm_db; cbn; by rewrite Hr).
  assert (stm_db w = db r) as Hdbr by (unfold stm_db; by rewrite Hr).
  cbn [omap list_omap]. rewrite Hdbr.
  destruct (db r !! k) as [cell|] eqn:Hk.
  - rewrite (promotable_doc_Some _ _ _ Hk).
    destruct (PROMOTION_THRESHOLD <=? get_access_count (doc cell)).
    + destruct (IH (acc ++ [set_redis_key k (doc cell)]) w1)
        as (w' & out & -> & Hdb' & Hm' & Hc' & Hout).
      eexists _, _. split; [reflexivity |].
      split; [congruence |]. split; [by rewrite Hm' |]. split; [by rewrite Hc' |].
      destruct Hout as [->|?]; [left | by right].
      by rewrite Hdb, Hdbr, <- app_assoc.
    + destruct (IH acc w1) as (w' & out & -> & Hdb' & Hm' & Hc' & Hout).
      eexists _, _. split; [reflexivity |].
      split; [congruence |]. split; [by rewrite Hm' |]. split; [by rewrite Hc' |].
      destruct Hout as [->|?]; [left | by right].
      by rewrite Hdb, Hdbr.
  - rewrite (promotable_doc_None _ _ Hk).
    destruct (IH acc w1) as (w' & out & -> & Hdb' & Hm' & Hc' & Hout).
    eexists _, _. split; [reflexivity |].
    split; [congruence |]. split; [by rewrite Hm' |]. split; [by rewrite Hc' |].
    destruct Hout as [->|?]; [left | by right].
    by rewrite Hdb, Hdbr.
Qed.

(** The scan never raises: it returns the selection, or nothing when a
    command failed. *)
Lemma get_promotable_memories_any (user_id : option string) w :
  exists w' selected,
    get_promotable_memories user_id w = (w', inr selected) /\
    stm_db w' = stm_db w /\ memory w' = memory w /\ mem_calls w' = mem_calls w /\
    (selected = promotable_of user_id (stm_db w) \/ selected = []).
Proof.
  unfold get_promotable_memories.
  destruct (redis_client w) as [r|] eqn:Hr.
  2: { eexists _, _. split; [reflexivity |]. repeat split; try done. by right. }
  unfold try_except, bind at 1, redis at 1. rewrite Hr.
  unfold RedisCmd.keys, RedisCmd.run.
  destruct (hd false (faults r)).
  { eexists _, _. split; [reflexivity |]. unfold stm_db. cbn. rewrite Hr.
    repeat split; try done. by right. }
  cbn [fst snd].
  set (w1 := with_redis w {| db := db r; faults := tl (faults r) |}).
  assert (stm_db w1 = stm_db w) as Hdb by (unfold stm_db; cbn; by rewrite Hr).
  assert (stm_db w = db r) as Hdbr by (unfold stm_db; by rewrite Hr).
  match goal with |- context [get_promotable_loop ?ks [] w1] =>
    destruct (get_promotable_loop_any ks [] w1) as (w' & out & -> & Hdb' & Hm' & Hc' & Hout)
  end.
  destruct Hout as [->|[x ->]].
  - eexists _, _. split; [reflexivity |].
    split; [congruence |]. split; [by rewrite Hm' |]. split; [by rewrite Hc' |].
    left. cbn [app]. unfold promotable_of, keys_of. by rewrite Hdb, Hdbr.
  - eexists _, _. split; [reflexivity |].
    split; [congruence |]. split; [by rewrite Hm' |]. split; [by rewrite Hc' |]. by right.
Qed.

(** One record: the key is deleted only after the engine's [add]
    returned; in every other case the store is as before. *)
Lemma promote_one_any (mem : Entry) (acc : list Promoted) w e :
  memory w = Some e ->
  exists w' acc',
    promote_one mem acc w = (w', inr acc') /\
    memory w' = Some (fst (mem_add (promote_args mem) e)) /\
    (stm_db w' = stm_db w \/
     (succeeded (snd (mem_add (promote_args mem) e)) = true /\
      exists k, stm_redis_key mem = Some k /\ stm_db w' = delete k (stm_db w))).
Proof.
  intros Hm. unfold promote_one, try_except, bind at 1, mem0_call. rewrite Hm.
  destruct (mem_add (promote_args mem) e) as [e' [x|j]]; cbn [fst snd succeeded].
  { eexists _, _. split; [reflexivity |]. split; [done |]. by left. }
  unfold bind at 1. cbn [redis_client with_memory].
  destruct (redis_client w) as [r|] eqn:Hr.
  2: { eexists _, _. split; [reflexivity |]. split; [done |]. left.
       unfold stm_db. cbn. by rewrite Hr. }
  destruct (stm_redis_key mem) as [k|].
  2: { eexists _, _. split; [reflexivity |]. split; [done |]. left.
       unfold stm_db. cbn. by rewrite Hr. }
  destruct (Py.truthy k).
  2: { eexists _, _. split; [reflexivity |]. split; [done |]. left.
       unfold stm_db. cbn. by rewrite Hr. }
  unfold redis. cbn [redis_client with_memory]. rewrite Hr.
  unfold RedisCmd.delete, RedisCmd.run.
  destruct (hd false (faults r)).
  - eexists _, _. split; [reflexivity |]. split; [done |]. left.
    unfold stm_db. cbn. by rewrite Hr.
  - eexists _, _. split; [reflexivity |]. split; [done |]. right.
    split; [done |]. exists k. split; [done |]. unfold stm_db. cbn. by rewrite Hr.
Qed.

Lemma promote_loop_any (batch : list Entry) (acc : list Promoted) w e (k : string) :
  memory w = Some e ->
  stm_db (fst (promote_loop batch acc w)) !! k = stm_db w !! k \/
  (stm_db (fst (promote_loop batch acc w)) !! k = None /\
   exists mem o, (mem, o) ∈ zip batch (add_outcomes batch e) /\
     stm_redis_key mem = Some k /\ succeeded o = true).
Proof.
  revert acc w e. induction batch as [|mem batch IH]; intros acc w e Hm; [by left |].
  cbn [promote_loop add_outcomes].
  destruct (promote_one_any mem acc w e Hm) as (w1 & acc1 & Hone & Hm1 & Hdb).
  rewrite (bind_inr _ _ _ _ _ Hone).
  destruct (mem_add (promote_args mem) e) as [e' o] eqn:Hadd; cbn [fst snd] in *.
  cbn [zip zip_with].
  destruct (IH acc1 w1 e' Hm1) as [Hsame|(Hnone & mem' & o' & Hin & Hkey & Ho)].
  - destruct Hdb as [Hdb|(Ho & k' & Hkey & Hdb)].
    + left. by rewrite Hsame, Hdb.
    + destruct (decide (k = k')) as [->|Hne].
      * right. split; [by rewrite Hsame, Hdb, lookup_delete_eq |].
        exists mem, o. split; [apply list_elem_of_here | done].
      * left. by rewrite Hsame, Hdb, lookup_delete_ne.
  - right. split; [done |]. exists mem', o'.
    split; [by apply list_elem_of_further | done].
Qed.

Lemma fst_bind_ret {A B} (mm : @M E A) (f : A -> B) w :
  fst (bind mm (fun a => ret (f a)) w) = fst (mm w).
Proof. unfold bind, ret. by destruct (mm w) as [w' [x|a]]. Qed.

Lemma promote_memories_any (request : PromoteRequest) w e (k : string) :
  memory w = Some e ->
  exists batch,
    snd (get_promotable_memories (promote_user_id request) w) = inr batch /\
    (stm_db (fst (promote_memories request w)) !! k = stm_db w !! k \/
     (stm_db (fst (promote_memories request w)) !! k = None /\
      exists mem o, (mem, o) ∈ zip batch (add_outcomes batch e) /\
        stm_redis_key mem = Some k /\ succeeded o = true)).
Proof.
  intros Hm.
  destruct (get_promotable_memories_any (promote_user_id request) w)
    as (w0 & batch & Hscan & Hdb0 & Hm0 & _).
  exists batch. rewrite Hscan. split; [done |].
  unfold promote_memories. rewrite Hm, (bind_inr _ _ _ _ _ Hscan).
  rewrite fst_bind_ret. rewrite Hm in Hm0.
  destruct (promote_loop_any batch [] w0 e k Hm0) as [Hsame|Hdel].
  - left. by rewrite Hsame, Hdb0.
  - by right.
Qed.

End AnyFailure.

(** ** Promotion *)

Section PromotionClaims.
Context {E : Type} `{Mem0 E}.
Implicit Types (d : gmap string Cell) (w : World E) (e : E).

(** C7: without an engine [promote_memories] raises the 503 error before
    it looks at Redis: the whole state, the short-term store included,
    is as before. *)
Theorem promote_without_engine (request : PromoteRequest) w :
  memory w = None ->
  promote_memories request w =
    (w, inl (HTTPException 503 "Long-term memory not initialized")) /\
  stm_db (fst (promote_memories request w)) = stm_db w.
Proof. intros Hm. unfold promote_memories. by rewrite Hm. Qed.

Lemma stm_prefix_cons (x : string) :
  SHORT_TERM_PREFIX +:+ x = String "s" (String "t" (String "m" (String ":" x))).
Proof. reflexivity. Qed.

(** The scan for all owners matches every key [add_memory] writes. *)
Lemma promotable_pattern_all (user_id : option string) (a b : string) :
  Py.or_else user_id "*" = "*" ->
  Glob.matches (promotable_pattern user_id) (SHORT_TERM_PREFIX +:+ a +:+ ":" +:+ b) = true.
Proof.
  intros Hu. unfold promotable_pattern. rewrite Hu.
  change (Glob.tmatch (Glob.lits "stm:" ++ [Glob.TStar; Glob.TLit ":"; Glob.TStar])
            ("stm:" +:+ (a +:+ ":" +:+ b)) = true).
  rewrite tmatch_lits. apply tmatch_star_skip, tmatch_star.
  rewrite app_cons, app_nil. cbn [Glob.tmatch].
  rewrite Ascii.eqb_refl. apply tmatch_star_any.
Qed.

Lemma promotable_pattern_truthy (user_id : option string) (k : string) :
  Glob.matches (promotable_pattern user_id) k = true -> Py.truthy k = true.
Proof.
  unfold promotable_pattern. rewrite stm_prefix_cons. by destruct k.
Qed.

(** C3 (amended): the scan never raises and leaves the store as it is;
    whatever fails, a document it selects comes from a stored key that
    matches the owner pattern and has [access_count] at least 3.  When
    its Redis commands succeed, it selects the document of a stored key
    exactly when the key matches the owner pattern and its
    [access_count] is at least 3; with no owner the pattern matches every
    key written by [add_memory]. *)
Theorem promotable_iff_threshold (user_id : option string) w :
  (exists w' selected,
     get_promotable_memories user_id w = (w', inr selected) /\
     stm_db w' = stm_db w /\
     forall mem, mem ∈ selected ->
       exists k cell,
         stm_db w !! k = Some cell /\ mem = set_redis_key k (doc cell) /\
         Glob.matches (promotable_pattern user_id) k = true /\
         3 <= get_access_count (doc cell)) /\
  (redis_quiet w ->
     exists selected,
       get_promotable_memories user_id w = (w, inr selected) /\
       forall k cell, stm_db w !! k = Some cell ->
         (set_redis_key k (doc cell) ∈ selected <->
            Glob.matches (promotable_pattern user_id) k = true /\
            3 <= get_access_count (doc cell))) /\
  (user_id = None ->
     forall owner timestamp hash,
       Glob.matches (promotable_pattern user_id)
         (SHORT_TERM_PREFIX +:+ memory_key_of owner timestamp hash) = true).
Proof.
  split; [| split].
  - destruct (get_promotable_memories_any user_id w)
      as (w' & selected & Hscan & Hdb & _ & _ & Hsel).
    exists w', selected. split; [done |]. split; [done |].
    intros mem Hin. destruct Hsel as [-> | ->]; [| by apply elem_of_nil in Hin].
    apply elem_of_promotable_of in Hin as (k & cell & Hk & Hm & Hle & ->).
    by exists k, cell.
  - intros (d & m & s & cs & ->)%redis_quiet_inv.
    change (stm_db (qworld d m s cs)) with d.
    exists (promotable_of user_id d).
    split; [apply get_promotable_memories_quiet |].
    intros k cell Hk. rewrite elem_of_promotable_of. split.
    + intros (k' & cell' & Hk' & Hm & Hle & Heq).
      assert (k' = k) as ->.
      { apply (f_equal stm_redis_key) in Heq. cbn in Heq. congruence. }
      rewrite Hk in Hk'. injection Hk' as <-. done.
    + intros [Hm Hle]. by exists k, cell.
  - intros -> owner timestamp hash. unfold memory_key_of.
    by apply promotable_pattern_all.
Qed.

End PromotionClaims.

Section BatchClaims.
Context {E : Type} `{Mem0 E}.
Implicit Types (d : gmap string Cell) (w : World E) (e : E).

(** The selected documents carry distinct keys. *)
Lemma promotable_keys_NoDup (user_id : option string) d :
  NoDup (map stm_redis_key (promotable_of user_id d)).
Proof.
  unfold promotable_of.
  pose proof (NoDup_keys_of (promotable_pattern user_id) d) as Hnd.
  induction Hnd as [|k ks Hk Hks IH]; cbn [omap list_omap]; [constructor |].
  unfold promotable_doc at 1.
  destruct (d !! k) as [cell|]; cbn [mbind option_bind]; [| exact IH].
  destruct (PROMOTION_THRESHOLD <=? _); [| exact IH].
  cbn [map]. constructor; [| exact IH].
  cbn [stm_redis_key set_redis_key].
  intros (mem & Hkey & Hin)%list_elem_of_fmap.
  apply list_elem_of_omap in Hin as (k' & Hk' & Hdoc).
  unfold promotable_doc in Hdoc.
  destruct (d !! k') as [cell'|]; cbn in Hdoc; [| done].
  destruct (PROMOTION_THRESHOLD <=? _); [| done].
  injection Hdoc as <-. cbn in Hkey. congruence.
Qed.

Lemma length_add_outcomes (batch : list Entry) e :
  length (add_outcomes batch e) = length batch.
Proof.
  revert e. induction batch as [|mem batch IH]; intros e; [done |].
  cbn [add_outcomes]. destruct (mem_add _ e). cbn. by rewrite IH.
Qed.

(** In a batch with distinct keys a key has a single outcome. *)
Lemma zip_key_functional (batch : list Entry) (os : list (Exn + Json))
    (m1 m2 : Entry) (o1 o2 : Exn + Json) :
  NoDup (map stm_redis_key batch) ->
  (m1, o1) ∈ zip batch os -> (m2, o2) ∈ zip batch os ->
  stm_redis_key m1 = stm_redis_key m2 -> o1 = o2.
Proof.
  revert os. induction batch as [|m batch IH]; intros os Hnd H1 H2 Hk.
  { by apply elem_of_nil in H1. }
  destruct os as [|o os]; [by apply elem_of_nil in H1 |].
  cbn [zip zip_with map] in *. apply NoDup_cons in Hnd as [Hm Hnd].
  apply elem_of_cons in H1 as [[= -> ->]|H1], H2 as [[= -> ->]|H2]; [done | | |].
  - exfalso. apply Hm. rewrite Hk. apply list_elem_of_fmap.
    exists m2. split; [done |]. eapply elem_of_zip_l, H2.
  - exfalso. apply Hm. rewrite <- Hk. apply list_elem_of_fmap.
    exists m1. split; [done |]. eapply elem_of_zip_l, H1.
  - by eapply IH.
Qed.

Lemma elem_of_deleted_keys (batch : list Entry) (os : list (Exn + Json)) (k : string) :
  k ∈ deleted_keys batch os <->
  exists mem o, (mem, o) ∈ zip batch os /\ succeeded o = true /\ k ∈ key_to_delete mem.
Proof.
  revert os. induction batch as [|m batch IH]; intros os.
  { cbn. split; [by intros ?%elem_of_nil | by intros (? & ? & ?%elem_of_nil & _)]. }
  destruct os as [|[x|j] os]; cbn [deleted_keys zip zip_with].
  - split; [by intros ?%elem_of_nil | by intros (? & ? & ?%elem_of_nil & _)].
  - rewrite IH. split.
    + intros (mem & o & Hin & Hs & Hk). exists mem, o.
      split; [by apply list_elem_of_further | done].
    + intros (mem & o & [[= -> ->]|Hin]%elem_of_cons & Hs & Hk); [done |].
      by exists mem, o.
  - rewrite elem_of_app, IH. split.
    + intros [Hk|(mem & o & Hin & Hs & Hk)].
      * exists m, (inr j). split; [apply list_elem_of_here | done].
      * exists mem, o. split; [by apply list_elem_of_further | done].
    + intros (mem & o & [[= -> ->]|Hin]%elem_of_cons & Hs & Hk); [by left |].
      right. by exists mem, o.
Qed.

Lemma length_promoted_of (batch : list Entry) (os : list (Exn + Json)) :
  length batch = length os ->
  (length (promoted_of batch os) + failed_count os)%nat = length batch.
Proof.
  revert os. induction batch as [|m batch IH]; intros [|[x|j] os] Hlen;
    cbn in *; try done.
  - injection Hlen as Hlen. specialize (IH _ Hlen).
    unfold failed_count in IH. lia.
  - injection Hlen as Hlen. specialize (IH _ Hlen).
    unfold failed_count in IH. lia.
Qed.

(** The short-term store after a batch, key by key. *)
Lemma promote_memories_store (request : PromoteRequest) d e s cs
    (mem : Entry) (o : Exn + Json) (k : string) :
  let batch := promotable_of (promote_user_id request) d in
  (mem, o) ∈ zip batch (add_outcomes batch e) ->
  stm_redis_key mem = Some k ->
  is_Some (d !! k) /\
  stm_db (fst (promote_memories request (qworld d (Some e) s cs))) !! k
    = if succeeded o then None else d !! k.
Proof.
  intros batch Hin Hkey. rewrite promote_memories_quiet. cbn [fst].
  change (stm_db (qworld ?d' _ _ _)) with d'. fold batch.
  pose proof (elem_of_zip_l _ _ _ _ Hin) as Hmem.
  apply elem_of_promotable_of in Hmem as (k' & cell & Hk' & Hm & Hle & ->).
  cbn in Hkey. injection Hkey as ->.
  split; [by eexists |].
  rewrite delete_all_lookup.
  destruct (succeeded o) eqn:Ho.
  - rewrite decide_True; [done |]. apply elem_of_deleted_keys.
    eexists _, o. split; [exact Hin |]. split; [done |].
    unfold key_to_delete. cbn.
    rewrite (promotable_pattern_truthy _ _ Hm). apply list_elem_of_here.
  - rewrite decide_False; [done |].
    intros (mem' & o' & Hin' & Ho' & Hk)%elem_of_deleted_keys.
    assert (stm_redis_key mem' = Some k) as Hkey'.
    { unfold key_to_delete in Hk. destruct (stm_redis_key mem') as [k0|].
      - destruct (Py.truthy k0); [| by apply elem_of_nil in Hk].
        apply list_elem_of_singleton in Hk. by subst.
      - by apply elem_of_nil in Hk. }
    assert (o' = o); [| congruence].
    eapply zip_key_functional; [apply promotable_keys_NoDup | exact Hin' | exact Hin |].
    by rewrite Hkey'.
Qed.

(** C2 (amended): whatever fails, the key of a record of the batch
    disappears from the short-term store only if the engine's [add] for
    the record returned, and when the [add] raised the stored entry is
    as before.  When the Redis commands succeed, every record gets its
    [add] call, the key is gone exactly when the [add] returned, and a
    record whose [add] raised is selected again by the next scan. *)
Theorem promotion_deletes_iff_added (request : PromoteRequest) w e :
  memory w = Some e ->
  exists batch,
    snd (get_promotable_memories (promote_user_id request) w) = inr batch /\
    (forall mem o k,
       (mem, o) ∈ zip batch (add_outcomes batch e) ->
       stm_redis_key mem = Some k ->
       is_Some (stm_db w !! k) /\
       (stm_db (fst (promote_memories request w)) !! k = None -> succeeded o = true) /\
       (succeeded o = false ->
          stm_db (fst (promote_memories request w)) !! k = stm_db w !! k)) /\
    (redis_quiet w ->
       mem_calls (fst (promote_memories request w)) =
         mem_calls w ++ map (fun mem => CallAdd (promote_args mem)) batch /\
       forall mem o k,
         (mem, o) ∈ zip batch (add_outcomes batch e) ->
         stm_redis_key mem = Some k ->
         (stm_db (fst (promote_memories request w)) !! k = None <->
            succeeded o = true) /\
         (succeeded o = false ->
            exists again,
              snd (get_promotable_memories (promote_user_id request)
                     (fst (promote_memories request w))) = inr again /\
              mem ∈ again)).
Proof.
  intros Hm.
  destruct (get_promotable_memories_any (promote_user_id request) w)
    as (w0 & batch & Hscan & _ & _ & _ & Hbatch).
  exists batch. rewrite Hscan. split; [done |]. split.
  - intros mem o k Hin Hkey.
    assert (NoDup (map stm_redis_key batch)) as Hnd.
    { destruct Hbatch as [-> | ->]; [apply promotable_keys_NoDup | constructor]. }
    assert (is_Some (stm_db w !! k)) as Hsome.
    { pose proof (elem_of_zip_l _ _ _ _ Hin) as Hmem.
      destruct Hbatch as [-> | ->]; [| by apply elem_of_nil in Hmem].
      apply elem_of_promotable_of in Hmem as (k' & cell & Hk' & _ & _ & ->).
      cbn in Hkey. injection Hkey as ->. by eexists. }
    split; [done |].
    destruct (promote_memories_any request w e k Hm) as (batch' & Hscan' & Hcases).
    rewrite Hscan in Hscan'. injection Hscan' as <-.
    assert (stm_db (fst (promote_memories request w)) !! k = None -> succeeded o = true)
      as Honly.
    { intros Hnone. destruct Hcases as [Hsame|(_ & mem' & o' & Hin' & Hkey' & Ho')].
      - rewrite Hsame in Hnone. destruct Hsome as [c Hc]. congruence.
      - assert (o' = o); [| congruence].
        eapply zip_key_functional; [exact Hnd | exact Hin' | exact Hin |]. congruence. }
    split; [exact Honly |].
    intros Ho. destruct Hcases as [Hsame|(Hnone & _)]; [done |].
    apply Honly in Hnone. congruence.
  - intros (d & m & s & cs & ->)%redis_quiet_inv. cbn in Hm. subst m.
    rewrite get_promotable_memories_quiet in Hscan. injection Hscan as <- <-.
    split; [by rewrite promote_memories_quiet |].
    intros mem o k Hin Hkey.
    destruct (promote_memories_store request d e s cs mem o k Hin Hkey) as [Hsome Hlook].
    rewrite Hlook. destruct (succeeded o) eqn:Ho.
    { split; [done |]. intros [=]. }
    split.
    { destruct Hsome as [c Hc]. rewrite Hc. split; intros [=]. }
    intros _.
    revert Hlook. rewrite promote_memories_quiet. cbn [fst].
    change (stm_db (qworld ?d' _ _ _)) with d'. intros Hlook.
    rewrite get_promotable_memories_quiet. cbn [snd].
    eexists. split; [reflexivity |].
    pose proof (elem_of_zip_l _ _ _ _ Hin) as Hmem.
    apply elem_of_promotable_of in Hmem as (k' & cell & Hk' & Hmt & Hle & ->).
    cbn in Hkey. injection Hkey as ->.
    apply elem_of_promotable_of. exists k, cell.
    split; [by rewrite Hlook |]. done.
Qed.

(** C9 (amended): when the Redis commands succeed, a failing record does
    not stop the batch: every record gets its [add] call; the response
    lists the promoted records only, in order, and counts them; failed
    records are absent from it.  What was promoted before a failure stays
    promoted: its key is gone from the short-term store and the engine
    keeps every answer it gave. *)
Theorem promote_reports_promoted_only (request : PromoteRequest) w e :
  redis_quiet w -> memory w = Some e ->
  exists batch resp,
    snd (get_promotable_memories (promote_user_id request) w) = inr batch /\
    snd (promote_memories request w) = inr resp /\
    mem_calls (fst (promote_memories request w)) =
      mem_calls w ++ map (fun mem => CallAdd (promote_args mem)) batch /\
    memory (fst (promote_memories request w)) = Some (engine_after batch e) /\
    promoted resp = promoted_of batch (add_outcomes batch e) /\
    promoted_count resp = length (promoted resp) /\
    (promoted_count resp + failed_count (add_outcomes batch e))%nat = length batch /\
    forall mem o k,
      (mem, o) ∈ zip batch (add_outcomes batch e) ->
      stm_redis_key mem = Some k -> succeeded o = true ->
      stm_db (fst (promote_memories request w)) !! k = None.
Proof.
  intros (d & m & s & cs & ->)%redis_quiet_inv Hm. cbn in Hm. subst m.
  exists (promotable_of (promote_user_id request) d). eexists.
  split; [by rewrite get_promotable_memories_quiet |].
  split; [by rewrite promote_memories_quiet |].
  split; [by rewrite promote_memories_quiet |].
  split; [by rewrite promote_memories_quiet |].
  cbn [promoted promoted_count].
  split; [done |]. split; [done |].
  split; [apply length_promoted_of; by rewrite length_add_outcomes |].
  intros mem o k Hin Hkey Ho.
  destruct (promote_memories_store request d e s cs mem o k Hin Hkey) as [_ Hlook].
  by rewrite Hlook, Ho.
Qed.

(** [promote_memories] reads the owner of the request and nothing else. *)
Lemma promote_memories_reads_owner_only (request1 request2 : PromoteRequest) w :
  promote_user_id request1 = promote_user_id request2 ->
  promote_memories request1 w = promote_memories request2 w.
Proof. intros Hu. unfold promote_memories. by rewrite Hu. Qed.

End BatchClaims.

(** ** Search *)

Section SearchClaims.
Context {E : Type} `{Mem0 E}.
Implicit Types (w : World E).

(** [get_short_term] catches every exception. *)
Lemma get_short_term_total (pattern : string) w :
  exists w' l, get_short_term pattern w = (w', inr l).
Proof.
  unfold get_short_term. destruct (redis_client w); [| by eexists _, _].
  unfold try_except.
  match goal with |- context [match ?t with _ => _ end] => destruct t as [w' [x|l]] end;
    by eexists _, _.
Qed.

Lemma search_short_term_total (request : SearchRequest) w :
  exists w' l, search_short_term request w = (w', inr l) /\
    Forall (fun r => source r = short_term_source /\ score r = Some (8 # 10)%Q) l.
Proof.
  unfold search_short_term.
  destruct (include_short_term request && _)%bool.
  - destruct (get_short_term_total (Py.or_else (search_user_id request) "*") w)
      as (w' & l & Hl).
    rewrite (bind_inr _ _ _ _ _ Hl). unfold ret. eexists _, _. split; [reflexivity |].
    apply Forall_fmap, Forall_forall. by intros.
  - eexists _, _. split; [reflexivity | constructor].
Qed.

Lemma search_long_term_total (request : SearchRequest) w :
  exists w' l, search_long_term request w = (w', inr l) /\
    Forall (fun r => source r = long_term_source) l.
Proof.
  unfold search_long_term. destruct (bool_decide _).
  - unfold try_except, bind.
    destruct (mem0_call _ _ w) as [w' [x|l]].
    + eexists _, _. split; [reflexivity | constructor].
    + eexists _, _. split; [reflexivity |].
      apply Forall_fmap, Forall_forall. by intros.
  - eexists _, _. split; [reflexivity | constructor].
Qed.

Lemma has_key_refl {A} (key : A -> Q) (x : A) : has_key key (key x) x = true.
Proof. unfold has_key. apply Qeq_bool_iff. reflexivity. Qed.

(** In a stably sorted, truncated merge no short-term entry follows a
    long-term entry of the same score. *)
Lemma short_term_first (short long : list MemoryResponse) (n : nat)
    (before after : list MemoryResponse) (d e : MemoryResponse) :
  Forall (fun r => source r = short_term_source) short ->
  Forall (fun r => source r = long_term_source) long ->
  firstn n (sort_desc score_key (short ++ long)) = before ++ d :: after ->
  source d = long_term_source -> e ∈ after -> source e = short_term_source ->
  ~ (score_key e == score_key d)%Q.
Proof.
  intros Hshort Hlong Hcut Hd He Hsrc Heq.
  set (P := has_key score_key (score_key d)).
  assert (List.filter P short ++ List.filter P long =
          List.filter P before ++ d :: (List.filter P after ++
            List.filter P (skipn n (sort_desc score_key (short ++ long)))))
    as Hsplit.
  { subst P. rewrite <- List.filter_app, <- (sort_desc_stable score_key).
    rewrite <- (firstn_skipn n (sort_desc score_key (short ++ long))) at 1.
    rewrite Hcut, !List.filter_app. cbn [List.filter].
    rewrite has_key_refl. by rewrite <- app_assoc. }
  assert (In e (List.filter P long)) as Hin.
  { eapply app_split_tail; [exact Hsplit | |].
    - intros [Hin _]%filter_In. rewrite Forall_forall in Hshort.
      apply list_elem_of_In, Hshort in Hin. congruence.
    - apply in_or_app. left. apply filter_In. split.
      + by apply list_elem_of_In.
      + unfold P, has_key. by apply Qeq_bool_iff. }
  apply filter_In in Hin as [Hin _]. rewrite Forall_forall in Hlong.
  apply list_elem_of_In, Hlong in Hin. congruence.
Qed.

(** C1 (amended): for a non-negative limit, the memories returned are the
    first [limit] entries of the stable descending sort of the short-term
    matches (each scored 0.8) followed by the long-term matches: at most
    [limit] entries, scores not increasing, entries of one score in their
    input order, and so no short-term entry after a long-term entry of
    the same score. *)
Theorem search_merges_sorted_capped (request : SearchRequest) w :
  0 <= limit request ->
  exists w1 w2 short long resp,
    search_short_term request w = (w1, inr short) /\
    search_long_term request w1 = (w2, inr long) /\
    search_memories request w = (w2, inr resp) /\
    Forall (fun r => source r = short_term_source /\ score r = Some (8 # 10)%Q) short /\
    Forall (fun r => source r = long_term_source) long /\
    memories resp =
      firstn (Z.to_nat (limit request)) (sort_desc score_key (short ++ long)) /\
    Z.of_nat (length (memories resp)) <= limit request /\
    StronglySorted (desc score_key) (memories resp) /\
    (forall v, List.filter (has_key score_key v) (memories resp)
               `prefix_of` List.filter (has_key score_key v) (short ++ long)) /\
    (forall before d after e,
       memories resp = before ++ d :: after ->
       source d = long_term_source -> e ∈ after -> source e = short_term_source ->
       ~ (score_key e == score_key d)%Q).
Proof.
  intros Hlimit.
  destruct (search_short_term_total request w) as (w1 & short & Hs & Hshort).
  destruct (search_long_term_total request w1) as (w2 & long & Hl & Hlong).
  exists w1, w2, short, long. eexists.
  split; [exact Hs |]. split; [exact Hl |].
  split.
  { unfold search_memories.
    rewrite (bind_inr _ _ _ _ _ Hs), (bind_inr _ _ _ _ _ Hl). reflexivity. }
  split; [exact Hshort |]. split; [exact Hlong |].
  cbn [memories]. unfold Py.slice_to.
  destruct (Z.leb_spec 0 (limit request)) as [_|?]; [| lia].
  split; [reflexivity |]. split; [| split; [| split]].
  - rewrite length_take. lia.
  - apply StronglySorted_firstn, sort_desc_sorted.
  - intros v.
    exists (List.filter (has_key score_key v)
              (skipn (Z.to_nat (limit request)) (sort_desc score_key (short ++ long)))).
    rewrite <- List.filter_app, firstn_skipn. symmetry. apply sort_desc_stable.
  - intros before d after e. apply short_term_first; [| exact Hlong].
    eapply Forall_impl; [exact Hshort |]. by intros ? [? _].
Qed.

End SearchClaims.

(** ** The access count *)

Section CountFacts.
Context {E : Type} `{Mem0 E}.
Implicit Types (d : gmap string Cell) (w : World E).

Lemma count_le_refl d : count_le d d.
Proof. intros k c Hk. exists c. split; [done | lia]. Qed.

Lemma count_le_trans d1 d2 d3 : count_le d1 d2 -> count_le d2 d3 -> count_le d1 d3.
Proof.
  intros H12 H23 k c3 Hk.
  destruct (H23 _ _ Hk) as (c2 & Hk2 & Hle2).
  destruct (H12 _ _ Hk2) as (c1 & Hk1 & Hle1).
  exists c1. split; [done | lia].
Qed.

Lemma count_le_delete (k : string) d : count_le d (delete k d).
Proof.
  intros k' c Hk. exists c. split; [| lia].
  destruct (decide (k' = k)) as [->|Hne].
  - by rewrite lookup_delete_eq in Hk.
  - by rewrite lookup_delete_ne in Hk.
Qed.

Lemma count_le_bump (k : string) (cell : Cell) (t : option Z) d :
  d !! k = Some cell ->
  count_le d (<[k := {| ttl := t;
                        doc := set_access_count (get_access_count (doc cell) + 1)
                                 (doc cell) |}]> d).
Proof.
  intros Hd k' c Hk. destruct (decide (k' = k)) as [->|Hne].
  - rewrite lookup_insert_eq in Hk. injection Hk as <-.
    exists cell. split; [done |]. unfold get_access_count. cbn. lia.
  - rewrite lookup_insert_ne in Hk by done. exists c. split; [done | lia].
Qed.

Lemma stm_mono_refl w : stm_mono w w.
Proof. unfold stm_mono. destruct (redis_client w); [apply count_le_refl | done]. Qed.

Lemma stm_mono_same_redis w w' : redis_client w' = redis_client w -> stm_mono w w'.
Proof.
  intros Hr. unfold stm_mono. rewrite Hr.
  destruct (redis_client w); [apply count_le_refl | done].
Qed.

Lemma stm_mono_trans w1 w2 w3 : stm_mono w1 w2 -> stm_mono w2 w3 -> stm_mono w1 w3.
Proof.
  unfold stm_mono.
  destruct (redis_client w1), (redis_client w2), (redis_client w3); try done.
  apply count_le_trans.
Qed.

Lemma keeps_ret {A} (a : A) : keeps_counts (E:=E) (ret a).
Proof. intros w. apply stm_mono_refl. Qed.

Lemma keeps_raise {A} (x : Exn) : keeps_counts (E:=E) (A:=A) (raise x).
Proof. intros w. apply stm_mono_refl. Qed.

Lemma keeps_bind {A B} (mm : @M E A) (k : A -> @M E B) :
  keeps_counts mm -> (forall a, keeps_counts (k a)) -> keeps_counts (bind mm k).
Proof.
  intros Hm Hk w. unfold bind. specialize (Hm w).
  destruct (mm w) as [w' [x|a]]; [done |].
  eapply stm_mono_trans; [exact Hm | apply Hk].
Qed.

Lemma keeps_try {A} (mm : @M E A) (h : Exn -> @M E A) :
  keeps_counts mm -> (forall x, keeps_counts (h x)) -> keeps_counts (try_except mm h).
Proof.
  intros Hm Hh w. unfold try_except. specialize (Hm w).
  destruct (mm w) as [w' [x|a]]; [| done].
  eapply stm_mono_trans; [exact Hm | apply Hh].
Qed.

(** A Redis command that can only remove keys. *)
Lemma keeps_redis_run {A} (f : gmap string Cell -> gmap string Cell * A) :
  (forall d, count_le d (fst (f d))) -> keeps_counts (E:=E) (redis (RedisCmd.run f)).
Proof.
  intros Hf w. unfold redis.
  destruct (redis_client w) as [r|] eqn:Hr; [| apply stm_mono_refl].
  unfold stm_mono. rewrite Hr.
  unfold RedisCmd.run. destruct (hd false (faults r)); cbn.
  - apply count_le_refl.
  - specialize (Hf (db r)). by destruct (f (db r)).
Qed.

Lemma keeps_redis_keys (pattern : string) : keeps_counts (E:=E) (redis (RedisCmd.keys pattern)).
Proof. apply keeps_redis_run. intros d. apply count_le_refl. Qed.

Lemma keeps_redis_get (k : string) : keeps_counts (E:=E) (redis (RedisCmd.get k)).
Proof. apply keeps_redis_run. intros d. apply count_le_refl. Qed.

Lemma keeps_redis_delete (k : string) : keeps_counts (E:=E) (redis (RedisCmd.delete k)).
Proof. apply keeps_redis_run. intros d. apply count_le_delete. Qed.

Lemma keeps_mem0_call {A} (call : MemCall) (f : E -> E * (Exn + A)) :
  keeps_counts (mem0_call call f).
Proof.
  intros w. unfold mem0_call. destruct (memory w) as [e|]; [| apply stm_mono_refl].
  destruct (f e). by apply stm_mono_same_redis.
Qed.

Lemma keeps_log_operation (entry : MemoryHistory) : keeps_counts (E:=E) (log_operation entry).
Proof.
  intros w. destruct (log_operation_spec entry w) as (w' & -> & Hr & _).
  by apply stm_mono_same_redis.
Qed.

(** The read loop: a key is rewritten with the count just read plus one. *)
Lemma keeps_get_short_term_loop (ks : list string) (acc : list Entry) :
  keeps_counts (E:=E) (get_short_term_loop ks acc).
Proof.
  revert acc. induction ks as [|k ks IH]; intros acc; [apply keeps_ret |].
  intros w. cbn [get_short_term_loop]. unfold bind at 1, redis at 1.
  destruct (redis_client w) as [r|] eqn:Hr; [| apply stm_mono_refl].
  unfold RedisCmd.get, RedisCmd.run. destruct (hd false (faults r)).
  { unfold stm_mono. rewrite Hr. cbn. apply count_le_refl. }
  cbn. destruct (db r !! k) as [cell|] eqn:Hk.
  - unfold bind at 1, redis at 1. cbn.
    unfold RedisCmd.set_keepttl, RedisCmd.run. cbn.
    destruct (hd false (tl (faults r))); cbn.
    { unfold stm_mono. rewrite Hr. cbn. apply count_le_refl. }
    eapply stm_mono_trans; [| apply IH].
    unfold stm_mono. rewrite Hr. cbn. by apply count_le_bump.
  - eapply stm_mono_trans; [| apply IH].
    unfold stm_mono. rewrite Hr. cbn. apply count_le_refl.
Qed.

Lemma keeps_get_short_term (pattern : string) : keeps_counts (E:=E) (get_short_term pattern).
Proof.
  intros w. unfold get_short_term.
  destruct (redis_client w) eqn:Hr; [| apply stm_mono_refl].
  apply keeps_try; [| intros; apply keeps_ret].
  apply keeps_bind; [apply keeps_redis_keys |].
  intros ks. apply keeps_get_short_term_loop.
Qed.

Lemma keeps_get_promotable_loop (ks : list string) (acc : list Entry) :
  keeps_counts (E:=E) (get_promotable_loop ks acc).
Proof.
  revert acc. induction ks as [|k ks IH]; intros acc; [apply keeps_ret |].
  cbn [get_promotable_loop]. apply keeps_bind; [apply keeps_redis_get |].
  intros [cell|]; [| apply IH].
  destruct (PROMOTION_THRESHOLD <=? _); apply IH.
Qed.

Lemma keeps_get_promotable_memories (user_id : option string) :
  keeps_counts (E:=E) (get_promotable_memories user_id).
Proof.
  intros w. unfold get_promotable_memories.
  destruct (redis_client w) eqn:Hr; [| apply stm_mono_refl].
  apply keeps_try; [| intros; apply keeps_ret].
  apply keeps_bind; [apply keeps_redis_keys |].
  intros ks. apply keeps_get_promotable_loop.
Qed.

Lemma keeps_search_memories (request : SearchRequest) :
  keeps_counts (E:=E) (search_memories request).
Proof.
  unfold search_memories. apply keeps_bind.
  - intros w. unfold search_short_term. destruct (_ && _)%bool; [| apply stm_mono_refl].
    apply keeps_bind; [apply keeps_get_short_term | intros; apply keeps_ret].
  - intros short. apply keeps_bind; [| intros; apply keeps_ret].
    intros w. unfold search_long_term. destruct (bool_decide _); [| apply stm_mono_refl].
    apply keeps_try; [| intros; apply keeps_ret].
    apply keeps_bind; [apply keeps_mem0_call | intros; apply keeps_ret].
Qed.

Lemma keeps_get_user_memories (user_id : string) (lim : Z) (include : bool) :
  keeps_counts (E:=E) (get_user_memories user_id lim include).
Proof.
  unfold get_user_memories. apply keeps_bind.
  - destruct include; [| apply keeps_ret].
    apply keeps_bind; [apply keeps_get_short_term | intros; apply keeps_ret].
  - intros short. apply keeps_bind; [| intros; apply keeps_ret].
    intros w. destruct (bool_decide _); [| apply stm_mono_refl].
    apply keeps_try; [| intros; apply keeps_ret].
    apply keeps_bind; [apply keeps_mem0_call | intros; apply keeps_ret].
Qed.

Lemma keeps_promote_one (mem : Entry) (acc : list Promoted) :
  keeps_counts (E:=E) (promote_one mem acc).
Proof.
  unfold promote_one. apply keeps_try; [| intros; apply keeps_ret].
  apply keeps_bind; [apply keeps_mem0_call |]. intros j.
  apply keeps_bind; [| intros; apply keeps_ret].
  intros w. destruct (redis_client w) eqn:Hr; [| apply stm_mono_refl].
  destruct (stm_redis_key mem) as [k|]; [| apply stm_mono_refl].
  destruct (Py.truthy k); [apply keeps_redis_delete | apply stm_mono_refl].
Qed.

Lemma keeps_promote_loop (batch : list Entry) (acc : list Promoted) :
  keeps_counts (E:=E) (promote_loop batch acc).
Proof.
  revert acc. induction batch as [|mem batch IH]; intros acc; [apply keeps_ret |].
  cbn [promote_loop]. apply keeps_bind; [apply keeps_promote_one | intros; apply IH].
Qed.

Lemma keeps_promote_memories (request : PromoteRequest) :
  keeps_counts (E:=E) (promote_memories request).
Proof.
  intros w. unfold promote_memories. destruct (memory w); [| apply stm_mono_refl].
  apply keeps_bind; [apply keeps_get_promotable_memories |].
  intros batch. apply keeps_bind; [apply keeps_promote_loop | intros; apply keeps_ret].
Qed.

End CountFacts.

Section CountClaims.
Context {E : Type} `{Mem0 E}.
Variable md5_hexdigest : string -> string.
Implicit Types (d : gmap string Cell) (w : World E).

(** What a read does to one stored entry, Redis being reachable. *)
Lemma get_short_term_lookup (pattern : string) w (k : string) (cell : Cell) :
  redis_quiet w -> stm_db w !! k = Some cell ->
  stm_db (fst (get_short_term pattern w)) !! k =
    Some (if Glob.matches (SHORT_TERM_PREFIX +:+ pattern +:+ "*") k
          then bump_cell cell else cell).
Proof.
  intros (d & m & s & cs & ->)%redis_quiet_inv Hk.
  change (stm_db (qworld d m s cs)) with d in Hk.
  rewrite get_short_term_quiet. cbn [fst].
  change (stm_db (qworld ?d' _ _ _)) with d'.
  by rewrite bump_where_lookup, Hk.
Qed.

(** C4 (amended): [store_short_term] creates the entry with
    [access_count] 0; when its Redis commands succeed, a [get_short_term]
    adds exactly 1 to the count of every stored key its pattern matches
    and leaves the other keys alone; and no read, scan, search, listing
    or promotion, whatever fails meanwhile, creates a key or lowers a
    count, while an add leaves every key but the one it writes as it
    was. *)
Theorem access_count_lifecycle :
  (forall (now_iso key : string) (data : Entry) (hours : Z) w w',
     store_short_term now_iso key data hours w = (w', inr true) ->
     exists cell,
       stm_db w' !! (SHORT_TERM_PREFIX +:+ key) = Some cell /\
       stm_access_count (doc cell) = Some 0) /\
  (forall (pattern : string) w (k : string) (cell : Cell),
     redis_quiet w -> stm_db w !! k = Some cell ->
     exists cell',
       stm_db (fst (get_short_term pattern w)) !! k = Some cell' /\
       get_access_count (doc cell') =
         get_access_count (doc cell) +
         (if Glob.matches (SHORT_TERM_PREFIX +:+ pattern +:+ "*") k then 1 else 0)) /\
  (forall pattern, keeps_counts (E:=E) (get_short_term pattern)) /\
  (forall user_id, keeps_counts (E:=E) (get_promotable_memories user_id)) /\
  (forall request, keeps_counts (E:=E) (search_memories request)) /\
  (forall user_id lim include,
     keeps_counts (E:=E) (get_user_memories user_id lim include)) /\
  (forall request, keeps_counts (E:=E) (promote_memories request)) /\
  (forall (now : Now) (request : AddMemoryRequest) w (k : string),
     k <> SHORT_TERM_PREFIX +:+
            memory_key_of (add_user_id request) (stamp now)
              (content_hash_of md5_hexdigest (add_messages request)) ->
     stm_db (fst (add_memory md5_hexdigest now request w)) !! k = stm_db w !! k).
Proof.
  split; [| split].
  - intros now_iso key data hours w w' Hst.
    rewrite store_short_term_spec in Hst.
    destruct (redis_client w) as [r|]; [| done].
    destruct (hd false (faults r)); [done |].
    injection Hst as <-. unfold stm_db. cbn.
    eexists. split; [apply lookup_insert_eq | done].
  - intros pattern w k cell Hq Hk.
    rewrite (get_short_term_lookup pattern w k cell Hq Hk).
    eexists. split; [reflexivity |].
    destruct (Glob.matches _ k); [| lia].
    unfold get_access_count. by cbn.
  - repeat split.
    + apply keeps_get_short_term.
    + apply keeps_get_promotable_memories.
    + apply keeps_search_memories.
    + apply keeps_get_user_memories.
    + apply keeps_promote_memories.
    + intros. by apply add_memory_other_keys.
Qed.

End CountClaims.

(** ** Owner patterns *)

Section OwnerClaims.
Context {E : Type} `{Mem0 E}.
Implicit Types (d : gmap string Cell) (w : World E).

Lemma literal_app (p q : string) :
  Glob.literal (p +:+ q) = (Glob.literal p && Glob.literal q)%bool.
Proof.
  induction p as [|c p IH]; [reflexivity |].
  rewrite app_cons. cbn [Glob.literal]. by rewrite IH, andb_assoc.
Qed.

(** A pattern without special characters followed by [*] matches the
    keys it is a prefix of. *)
Lemma matches_literal_star (p key : string) :
  Glob.literal p = true ->
  Glob.matches (p +:+ "*") key = true <-> exists rest, key = p +:+ rest.
Proof.
  intros Hp. unfold Glob.matches. rewrite (lex_literal p "*" Hp).
  change (Glob.lex Glob.Norm "*") with [Glob.TStar]. split.
  - intros (rest & -> & _)%tmatch_lits_inv. by exists rest.
  - intros (rest & ->). rewrite tmatch_lits. apply tmatch_star_any.
Qed.

Lemma matches_all (key : string) :
  Glob.matches (SHORT_TERM_PREFIX +:+ "*" +:+ "*") (SHORT_TERM_PREFIX +:+ key) = true.
Proof.
  change (Glob.tmatch (Glob.lits "stm:" ++ [Glob.TStar; Glob.TStar]) ("stm:" +:+ key) = true).
  rewrite tmatch_lits. apply tmatch_star, tmatch_star_any.
Qed.

(** The key of an owner's memory starts with every literal prefix of
    the owner's id. *)
Lemma memory_key_prefix (shorter rest timestamp hash : string) :
  exists tail,
    memory_key_of (Some (shorter +:+ rest)) timestamp hash = shorter +:+ tail.
Proof.
  unfold memory_key_of. destruct shorter as [|c shorter].
  - rewrite app_nil. by eexists.
  - rewrite app_cons. cbn [Py.or_else Py.truthy]. rewrite <- app_cons.
    rewrite append_assoc. by eexists.
Qed.

(** The read pattern of an owner matches the keys of every owner whose
    id extends it. *)
Lemma read_pattern_prefix (pattern shorter rest timestamp hash : string) :
  Glob.literal shorter = true ->
  pattern = shorter \/ pattern = Py.or_else (Some shorter) "*" ->
  Glob.matches (SHORT_TERM_PREFIX +:+ pattern +:+ "*")
    (SHORT_TERM_PREFIX +:+ memory_key_of (Some (shorter +:+ rest)) timestamp hash) = true.
Proof.
  intros Hlit Hpat.
  assert (pattern = shorter \/ pattern = "*") as [->| ->].
  { destruct Hpat as [->| ->]; [by left |].
    destruct shorter; [by right | by left]. }
  - destruct (memory_key_prefix shorter rest timestamp hash) as (tail & ->).
    rewrite <- !append_assoc. apply matches_literal_star; [| by eexists].
    by rewrite literal_app, Hlit.
  - apply matches_all.
Qed.

Lemma colon_split (a b x y : string) :
  lacks ":" a = true -> lacks ":" b = true ->
  a +:+ ":" +:+ x = b +:+ ":" +:+ y -> a = b.
Proof.
  revert b. induction a as [|c a IH]; intros [|c' b] Ha Hb Heq;
    rewrite ?app_nil, ?app_cons in Heq; cbn [lacks] in *.
  - done.
  - injection Heq as <- _. by rewrite Ascii.eqb_refl in Hb.
  - injection Heq as -> _. by rewrite Ascii.eqb_refl in Ha.
  - injection Heq as -> Heq.
    apply andb_prop in Ha as [_ Ha], Hb as [_ Hb].
    f_equal. by apply IH.
Qed.

(** The scan pattern of an owner matches the keys of that owner only,
    for ids without [:] and without special characters. *)
Lemma scan_pattern_exact (a b timestamp hash : string) :
  Glob.literal a = true -> lacks ":" a = true -> lacks ":" b = true ->
  Py.truthy a = true -> Py.truthy b = true ->
  Glob.matches (promotable_pattern (Some a))
    (SHORT_TERM_PREFIX +:+ memory_key_of (Some b) timestamp hash) = true
  <-> a = b.
Proof.
  intros Hlit Ha Hb Hta Htb. unfold promotable_pattern, memory_key_of.
  cbn [Py.or_else]. rewrite Hta, Htb.
  change (SHORT_TERM_PREFIX +:+ a +:+ ":*")
    with (SHORT_TERM_PREFIX +:+ a +:+ ":" +:+ "*").
  rewrite <- !(append_assoc _ _ "*").
  rewrite matches_literal_star by (by rewrite !literal_app, Hlit).
  split.
  - intros (tail & Heq). rewrite !append_assoc in Heq.
    apply (inj (String.app SHORT_TERM_PREFIX)) in Heq.
    by eapply eq_sym, colon_split.
  - intros ->. eexists. by rewrite !append_assoc.
Qed.

Lemma search_long_term_redis (request : SearchRequest) w :
  redis_client (fst (search_long_term request w)) = redis_client w.
Proof.
  unfold search_long_term. destruct (bool_decide _); [| done].
  unfold try_except, bind, mem0_call. destruct (memory w) as [e|]; [| done].
  by destruct (mem_search _ e) as [e' [x|l]].
Qed.


(** The read of [pattern] on a reachable Redis returns, and counts, the
    stored entry of every key the pattern matches. *)
Lemma get_short_term_returns (pattern : string) w (k : string) (cell : Cell) :
  redis_quiet w -> stm_db w !! k = Some cell ->
  Glob.matches (SHORT_TERM_PREFIX +:+ pattern +:+ "*") k = true ->
  exists w' l,
    get_short_term pattern w = (w', inr l) /\ redis_quiet w' /\
    memory w' = memory w /\
    bump (doc cell) ∈ l /\ stm_db w' !! k = Some (bump_cell cell).
Proof.
  intros (d & m & s & cs & ->)%redis_quiet_inv Hk Hm.
  change (stm_db (qworld d m s cs)) with d in Hk.
  rewrite get_short_term_quiet. eexists _, _. split; [reflexivity |].
  split; [apply redis_quiet_qworld |]. split; [done |]. split.
  - unfold read_of. apply list_elem_of_omap. exists k. split.
    + apply elem_of_keys_of. eauto.
    + by rewrite Hk.
  - change (stm_db (qworld ?d' _ _ _)) with d'.
    by rewrite bump_where_lookup, Hk, Hm.
Qed.

(** C10 (amended): [search_memories] and [get_user_memories] read the
    short-term store with the pattern [stm:{owner}*].  For an owner id
    without glob characters and when the Redis commands succeed, the
    read made for it also returns, and counts, the entries of every
    owner whose id extends it: they are
    among the short-term matches of the search when they pass the
    keyword test (and in the response when the limit cuts nothing), and
    in the listing of [get_user_memories].  The promotion scan uses
    [stm:{owner}:*]; for non-empty ids without [:] and without glob
    characters it matches the keys of that owner and of no other. *)
Theorem owner_prefix_reads (shorter rest timestamp hash : string) (cell : Cell) w :
  Glob.literal shorter = true ->
  redis_quiet w ->
  stm_db w !! (SHORT_TERM_PREFIX +:+
                 memory_key_of (Some (shorter +:+ rest)) timestamp hash) = Some cell ->
  (forall request,
     search_user_id request = Some shorter -> include_short_term request = true ->
     exists w1 w2 short long resp,
       search_short_term request w = (w1, inr short) /\
       search_long_term request w1 = (w2, inr long) /\
       search_memories request w = (w2, inr resp) /\
       stm_db w2 !! (SHORT_TERM_PREFIX +:+
                       memory_key_of (Some (shorter +:+ rest)) timestamp hash)
         = Some (bump_cell cell) /\
       (keyword_match (query request) (bump (doc cell)) = true ->
          short_term_response (bump (doc cell)) ∈ short /\
          (Z.of_nat (length short + length long) <= limit request ->
             short_term_response (bump (doc cell)) ∈ memories resp))) /\
  (forall lim,
     exists w' resp,
       get_user_memories shorter lim true w = (w', inr resp) /\
       stm_db w' !! (SHORT_TERM_PREFIX +:+
                       memory_key_of (Some (shorter +:+ rest)) timestamp hash)
         = Some (bump_cell cell) /\
       user_short_term_item shorter (bump (doc cell)) ∈ um_memories resp) /\
  (forall a b,
     Glob.literal a = true -> lacks ":" a = true -> lacks ":" b = true ->
     Py.truthy a = true -> Py.truthy b = true ->
     (Glob.matches (promotable_pattern (Some a))
        (SHORT_TERM_PREFIX +:+ memory_key_of (Some b) timestamp hash) = true
      <-> a = b)).
Proof.
  intros Hlit Hq Hk. split; [| split].
  - intros request Huser Hinc.
    destruct (get_short_term_returns (Py.or_else (search_user_id request) "*") w _ cell Hq Hk)
      as (w1 & l & Hget & Hq1 & Hm1 & Hin & Hlook).
    { apply read_pattern_prefix; [done |]. right. by rewrite Huser. }
    destruct (search_long_term_total request w1) as (w2 & long & Hlong & _).
    exists w1, w2. eexists _, long, _.
    assert (search_short_term request w =
              (w1, inr (map short_term_response
                          (List.filter (keyword_match (query request)) l)))) as Hshort.
    { unfold search_short_term. rewrite Hinc.
      destruct Hq as (r & -> & _). rewrite bool_decide_eq_true_2 by eauto.
      cbn [andb]. by rewrite (bind_inr _ _ _ _ _ Hget). }
    split; [exact Hshort |]. split; [exact Hlong |].
    split.
    { unfold search_memories.
      rewrite (bind_inr _ _ _ _ _ Hshort), (bind_inr _ _ _ _ _ Hlong). reflexivity. }
    split.
    { unfold stm_db in *. pose proof (search_long_term_redis request w1) as Hr.
      rewrite Hlong in Hr. cbn [fst] in Hr. by rewrite Hr. }
    intros Hkw.
    assert (short_term_response (bump (doc cell)) ∈
              map short_term_response (List.filter (keyword_match (query request)) l))
      as Hmem.
    { apply list_elem_of_fmap. eexists. split; [reflexivity |].
      apply list_elem_of_In, filter_In. split; [by apply list_elem_of_In | done]. }
    split; [exact Hmem |]. intros Hlim. cbn [memories].
    unfold Py.slice_to. destruct (Z.leb_spec 0 (limit request)) as [_|?]; [| lia].
    rewrite firstn_all2.
    + rewrite sort_desc_perm. apply elem_of_app. by left.
    + rewrite (Permutation_length (sort_desc_perm score_key _)), length_app. lia.
  - intros lim.
    destruct (get_short_term_returns shorter w _ cell Hq Hk)
      as (w1 & l & Hget & Hq1 & Hm1 & Hin & Hlook).
    { apply read_pattern_prefix; [done | by left]. }
    unfold get_user_memories.
    erewrite bind_inr; [| by erewrite bind_inr].
    assert (exists w2 long,
              (if bool_decide (is_Some (memory w1))
               then try_except
                      (bind (mem0_call (CallGetAll (Some shorter) lim)
                               (mem_get_all (Some shorter) lim))
                         (fun long_term => ret (map LtmItem long_term)))
                      (fun _ => ret []) w1
               else ret [] w1) = (w2, inr long) /\
              redis_client w2 = redis_client w1) as (w2 & long & Hlong & Hr).
    { destruct (bool_decide _); [| by eexists _, _].
      unfold try_except, bind, mem0_call. destruct (memory w1) as [e|]; [| by eexists _, _].
      destruct (mem_get_all _ _ e) as [e' [x|lt]]; by eexists _, _. }
    erewrite bind_inr; [| exact Hlong]. unfold ret.
    eexists _, _. split; [reflexivity |]. split.
    + unfold stm_db in *. by rewrite Hr.
    + cbn [um_memories]. apply elem_of_app. left.
      apply list_elem_of_fmap. by eexists.
  - intros a b. apply scan_pattern_exact.
Qed.

End OwnerClaims.

(** ** The properties on concrete runs *)

Section Runs.
Import Demo.

Lemma redis_quiet_world (d : gmap string Cell) (m : option Scripted) :
  redis_quiet (world d [] m).
Proof. by eexists. Qed.

Lemma world_qworld (d : gmap string Cell) (m : option Scripted) :
  world d [] m = qworld d m None [].
Proof. reflexivity. Qed.

(** The example of the specification: a short-term-only add of
    "I like tea" for [u1], then a search for "tea". *)
Example add_then_search_tea :
  let added := add_memory md5 now (add_request true) (world ∅ [] None) in
  (exists resp, snd added = inr resp /\ short_term resp = true /\ long_term resp = false) /\
  (exists resp m,
     snd (search_memories (search_request "u1" 10) (fst added)) = inr resp /\
     memories resp = [m] /\ source m = short_term_source /\
     score m = Some (8 # 10)%Q /\ memory_text m = "User said: I like tea").
Proof.
  split.
  - eexists. split; [vm_compute; reflexivity |]. by split.
  - eexists _, _. split; [vm_compute; reflexivity |].
    split; [reflexivity |]. by repeat split.
Qed.

(** The search theorem at a request with limit 2 over one short-term
    entry and three long-term hits. *)
Lemma search_merges_sorted_capped_witness :
  0 <= limit (search_request "u1" 2) /\
  exists resp,
    snd (search_memories (search_request "u1" 2)
           (world store_u10 [] (Some (engine [] [inr three_hits])))) = inr resp /\
    Z.of_nat (length (memories resp)) <= 2 /\
    StronglySorted (desc score_key) (memories resp).
Proof.
  assert (0 <= limit (search_request "u1" 2)) as Hlim by (cbn; lia).
  split; [exact Hlim |].
  destruct (search_merges_sorted_capped (search_request "u1" 2)
              (world store_u10 [] (Some (engine [] [inr three_hits]))) Hlim)
    as (w1 & w2 & short & long & resp & _ & _ & Hs & _ & _ & _ & Hlen & Hsorted & _).
  exists resp. rewrite Hs. split; [reflexivity |]. split; [exact Hlen | exact Hsorted].
Defined.

(** C1, counterexample: three short-term matches and the limit -1; the
    slice [results[:-1]] drops the last entry only, and the two entries
    returned are more than the limit. *)
Lemma search_negative_limit_counterexample :
  exists resp,
    snd (search_memories (search_request "u1" (-1)) (world store3 [] None)) = inr resp /\
    length (memories resp) = 2%nat /\
    ~ (Z.of_nat (length (memories resp)) <= limit (search_request "u1" (-1))).
Proof.
  eexists. split; [vm_compute; reflexivity |].
  split; [reflexivity |]. cbn. lia.
Defined.

Lemma promotion_deletes_iff_added_witness :
  memory (world store2 [] (Some (engine [inr "r1"; inl boom] [])))
    = Some (engine [inr "r1"; inl boom] []) /\
  redis_quiet (world store2 [] (Some (engine [inr "r1"; inl boom] []))) /\
  stm_db (fst (promote_memories (promote_request None)
                 (world store2 [] (Some (engine [inr "r1"; inl boom] []))))) !! k1 = None /\
  stm_db (fst (promote_memories (promote_request None)
                 (world store2 [] (Some (engine [inr "r1"; inl boom] []))))) !! k2
    = store2 !! k2.
Proof.
  split; [reflexivity |]. split; [apply redis_quiet_world |].
  destruct (promotion_deletes_iff_added (promote_request None)
              (world store2 [] (Some (engine [inr "r1"; inl boom] [])))
              (engine [inr "r1"; inl boom] []) eq_refl)
    as (batch & Hbatch & Hany & Hquiet).
  assert (batch = promotable_of (Some "u1") store2) as ->.
  { rewrite world_qworld, get_promotable_memories_quiet in Hbatch.
    cbn in Hbatch. congruence. }
  split.
  - destruct (Hquiet (redis_quiet_world _ _)) as [_ Hrec].
    apply (Hrec (set_redis_key k1 (entry "u1" 3)) (inr "r1") k1).
    + vm_compute. apply list_elem_of_here.
    + reflexivity.
    + reflexivity.
  - apply (Hany (set_redis_key k2 (entry "u1" 5)) (inl boom) k2).
    + vm_compute. apply list_elem_of_further, list_elem_of_here.
    + reflexivity.
    + reflexivity.
Defined.

(** C2, counterexample: the [add] of the record under [k1] returns and
    the DELETE that follows fails; the handler of the loop catches the
    error and the entry stays in the short-term store. *)
Lemma promote_delete_failure_counterexample :
  exists batch mem o,
    snd (get_promotable_memories (Some "u1")
           (world store2 [false; false; false; true] (Some (engine [] []))))
      = inr batch /\
    (mem, o) ∈ zip batch (add_outcomes batch (engine [] [])) /\
    stm_redis_key mem = Some k1 /\ succeeded o = true /\
    stm_db (fst (promote_memories (promote_request None)
                   (world store2 [false; false; false; true] (Some (engine [] [])))))
      !! k1 = Some (cell "u1" 3).
Proof.
  eexists _, (set_redis_key k1 (entry "u1" 3)), (inr "{}").
  split; [vm_compute; reflexivity |].
  split; [vm_compute; apply list_elem_of_here |].
  split; [reflexivity |]. split; [reflexivity |]. vm_compute. reflexivity.
Defined.

(** C3, counterexample: the KEYS command fails; the scan returns nothing
    although the entry under [k1] belongs to the owner and has been read
    three times. *)
Lemma scan_failure_counterexample :
  stm_db (world store2 [true] None) !! k1 = Some (cell "u1" 3) /\
  Glob.matches (promotable_pattern (Some "u1")) k1 = true /\
  PROMOTION_THRESHOLD <= get_access_count (doc (cell "u1" 3)) /\
  snd (get_promotable_memories (Some "u1") (world store2 [true] None)) = inr [].
Proof.
  split; [reflexivity |]. split; [vm_compute; reflexivity |].
  split; [by vm_compute |]. vm_compute. reflexivity.
Defined.

Lemma promotable_iff_threshold_witness :
  redis_quiet (world (<[k3 := cell "u1" 2]> store2) [] None) /\
  exists selected,
    snd (get_promotable_memories (Some "u1")
           (world (<[k3 := cell "u1" 2]> store2) [] None)) = inr selected /\
    set_redis_key k1 (entry "u1" 3) ∈ selected /\
    set_redis_key k3 (entry "u1" 2) ∉ selected.
Proof.
  split; [apply redis_quiet_world |].
  destruct (promotable_iff_threshold (Some "u1")
              (world (<[k3 := cell "u1" 2]> store2) [] None)) as (_ & Hquiet & _).
  destruct (Hquiet (redis_quiet_world _ _)) as (selected & Hsel & Hiff).
  exists selected. rewrite Hsel. split; [reflexivity |]. split.
  - apply (Hiff k1 (cell "u1" 3)); [reflexivity |].
    split; [reflexivity | cbn; lia].
  - intros Hin. apply (Hiff k3 (cell "u1" 2)) in Hin as [_ Hle]; [| reflexivity].
    cbn in Hle. lia.
Defined.

Lemma access_count_lifecycle_witness :
  redis_quiet (world store_u10 [] None) /\
  store_u10 !! key_of "u10" "aaaaaaaa" = Some (cell "u10" 0) /\
  exists after,
    stm_db (fst (get_short_term "u10" (world store_u10 [] None)))
      !! key_of "u10" "aaaaaaaa" = Some after /\
    get_access_count (doc after) = 1.
Proof.
  split; [apply redis_quiet_world |]. split; [reflexivity |].
  destruct (access_count_lifecycle (E:=Scripted) md5) as (_ & Hread & _).
  destruct (Hread "u10"%string (world store_u10 [] None)
              (key_of "u10" "aaaaaaaa") (cell "u10" 0)
              (redis_quiet_world _ _) eq_refl) as (after & Hafter & Hcount).
  exists after. split; [exact Hafter |]. rewrite Hcount. reflexivity.
Defined.

(** C4, counterexample.  Adding the same messages for the same owner
    within the same second writes the same key again: the entry read
    twice before is back at [access_count] 0.  And a read whose GET finds
    the entry and whose SET fails leaves the count as it was. *)
Lemma access_count_counterexample :
  (exists before after,
     stm_db (world store_tea [] None) !! k_tea = Some before /\
     stm_db (fst (add_memory md5 now (add_request true) (world store_tea [] None)))
       !! k_tea = Some after /\
     get_access_count (doc before) = 2 /\
     get_access_count (doc after) = 0 /\
     ~ keeps_counts (E:=Scripted) (add_memory md5 now (add_request true))) /\
  (Glob.matches (SHORT_TERM_PREFIX +:+ "u10" +:+ "*") (key_of "u10" "aaaaaaaa") = true /\
   stm_db (world store_u10 [false; false; true] None) !! key_of "u10" "aaaaaaaa"
     = Some (cell "u10" 0) /\
   stm_db (fst (get_short_term "u10" (world store_u10 [false; false; true] None)))
     !! key_of "u10" "aaaaaaaa" = Some (cell "u10" 0)).
Proof.
  split.
  - eexists _, _. split; [vm_compute; reflexivity |].
    split; [vm_compute; reflexivity |].
    split; [reflexivity |]. split; [reflexivity |].
    intros Hkeeps. specialize (Hkeeps (world store_tea [] None)).
    unfold stm_mono in Hkeeps.
    destruct (redis_client (fst (add_memory md5 now (add_request true)
                                   (world store_tea [] None)))) as [r'|] eqn:Hr;
      [| by vm_compute in Hr].
    cbn [redis_client world] in Hkeeps.
    assert (db r' !! k_tea = Some {| ttl := Some 24; doc := entry "u1" 0 |}) as Hk.
    { vm_compute in Hr. injection Hr as <-. vm_compute. reflexivity. }
    destruct (Hkeeps _ _ Hk) as (c & Hc & Hle).
    vm_compute in Hc. injection Hc as <-. vm_compute in Hle. by apply Hle.
  - split; [vm_compute; reflexivity |]. split; [reflexivity |].
    vm_compute. reflexivity.
Defined.

Lemma add_short_term_only_skips_engine_witness :
  short_term_only (add_request true) = true /\
  memory (fst (add_memory md5 now (add_request true)
                 (world ∅ [] (Some (engine [] [])))))
    = Some (engine [] []) /\
  mem_calls (fst (add_memory md5 now (add_request true)
                    (world ∅ [] (Some (engine [] []))))) = [].
Proof.
  split; [reflexivity |].
  destruct (add_short_term_only_skips_engine md5 now (add_request true)
              (world ∅ [] (Some (engine [] []))) eq_refl) as (Hm & Hc & _).
  split; [exact Hm | exact Hc].
Defined.

Lemma add_memory_reports_tiers_witness :
  exists resp,
    snd (add_memory md5 now (add_request false)
           (world ∅ [true] (Some (engine [inl boom] [])))) = inr resp /\
    success resp = true /\ short_term resp = false /\ long_term resp = false.
Proof.
  destruct (add_memory_reports_tiers md5 now (add_request false)
              (world ∅ [true] (Some (engine [inl boom] []))))
    as (resp & Hresp & Hsucc & Hshort & Hlong).
  exists resp. split; [exact Hresp |]. split; [exact Hsucc |]. split.
  - destruct (short_term resp); [| reflexivity].
    destruct Hshort as [Hshort _].
    destruct (Hshort eq_refl) as (r & Hr & Hf).
    injection Hr as <-. discriminate Hf.
  - destruct (long_term resp); [| reflexivity].
    destruct Hlong as [Hlong _].
    destruct (Hlong eq_refl) as (_ & e & j & He & Hj).
    injection He as <-. discriminate Hj.
Defined.

Lemma promote_without_engine_witness :
  memory (world store2 [] None) = None /\
  snd (promote_memories (promote_request None) (world store2 [] None))
    = inl (HTTPException 503 "Long-term memory not initialized") /\
  stm_db (fst (promote_memories (promote_request None) (world store2 [] None)))
    = store2.
Proof.
  split; [reflexivity |].
  destruct (promote_without_engine (promote_request None) (world store2 [] None) eq_refl)
    as [Hraise Hdb].
  split; [by rewrite Hraise | exact Hdb].
Defined.

(** C8: the request names [k1] alone, yet both eligible records are
    promoted and both keys are deleted: [memory_ids] is never read. *)
Theorem promote_ignores_memory_ids :
  promote_memories (promote_request (Some [k1]))
    (world store2 [] (Some (engine [] []))) =
  promote_memories (promote_request None)
    (world store2 [] (Some (engine [] []))) /\
  snd (promote_memories (promote_request (Some [k1]))
         (world store2 [] (Some (engine [] [])))) =
    inr {| promoted_count := 2;
           promoted := [{| original_key := Some k1; promoted_result := "{}" |};
                        {| original_key := Some k2; promoted_result := "{}" |}] |} /\
  stm_db (world store2 [] (Some (engine [] []))) !! k2 = Some (cell "u1" 5) /\
  stm_db (fst (promote_memories (promote_request (Some [k1]))
                 (world store2 [] (Some (engine [] []))))) !! k2 = None.
Proof.
  split; [reflexivity |]. split; [vm_compute; reflexivity |].
  split; [reflexivity |]. vm_compute. reflexivity.
Qed.

Lemma promote_reports_promoted_only_witness :
  redis_quiet (world store3 [] (Some (engine [inl boom; inr "r1"; inl boom] []))) /\
  memory (world store3 [] (Some (engine [inl boom; inr "r1"; inl boom] [])))
    = Some (engine [inl boom; inr "r1"; inl boom] []) /\
  exists resp,
    snd (promote_memories (promote_request None)
           (world store3 [] (Some (engine [inl boom; inr "r1"; inl boom] []))))
      = inr resp /\
    promoted_count resp = length (promoted resp) /\
    length (mem_calls (fst (promote_memories (promote_request None)
           (world store3 [] (Some (engine [inl boom; inr "r1"; inl boom] []))))))
      = 3%nat.
Proof.
  split; [apply redis_quiet_world |]. split; [reflexivity |].
  destruct (promote_reports_promoted_only (promote_request None)
              (world store3 [] (Some (engine [inl boom; inr "r1"; inl boom] [])))
              (engine [inl boom; inr "r1"; inl boom] [])
              (redis_quiet_world _ _) eq_refl)
    as (batch & resp & Hbatch & Hresp & Hcalls & _ & _ & Hcount & _).
  exists resp. split; [exact Hresp |]. split; [exact Hcount |].
  rewrite Hcalls.
  assert (batch = promotable_of (Some "u1") store3) as ->.
  { rewrite world_qworld, get_promotable_memories_quiet in Hbatch.
    cbn in Hbatch. congruence. }
  vm_compute. reflexivity.
Defined.

(** C9, counterexample.  A batch of two with one failure and a batch of
    three with two failures get the same response: the number of failed
    records cannot be read off it.  And when the DELETE after a
    successful [add] fails, the record is missing from the response
    although its durable write succeeded. *)
Lemma promote_response_counterexample :
  (snd (promote_memories (promote_request None)
          (world store2 [] (Some (engine [inr "r1"; inl boom] [])))) =
   snd (promote_memories (promote_request None)
          (world store3 [] (Some (engine [inl boom; inr "r1"; inl boom] [])))) /\
   failed_count (add_outcomes (promotable_of (Some "u1") store2)
                   (engine [inr "r1"; inl boom] [])) = 1%nat /\
   failed_count (add_outcomes (promotable_of (Some "u1") store3)
                   (engine [inl boom; inr "r1"; inl boom] [])) = 2%nat /\
   ~ exists report : PromoteResponse -> nat,
       forall (d : gmap string Cell) (e : Scripted) (resp : PromoteResponse),
         snd (promote_memories (promote_request None) (world d [] (Some e))) = inr resp ->
         report resp = failed_count (add_outcomes (promotable_of (Some "u1") d) e)) /\
  (add_outcomes (promotable_of (Some "u1") store2) (engine [] [])
     = [inr "{}"; inr "{}"] /\
   snd (promote_memories (promote_request None)
          (world store2 [false; false; false; true] (Some (engine [] [])))) =
     inr {| promoted_count := 1;
            promoted := [{| original_key := Some k2; promoted_result := "{}" |}] |}).
Proof.
  split.
  - split; [vm_compute; reflexivity |].
    split; [vm_compute; reflexivity |].
    split; [vm_compute; reflexivity |].
    intros (report & Hreport).
    pose proof (Hreport store2 (engine [inr "r1"; inl boom] []) _ eq_refl) as H2.
    pose proof (Hreport store3 (engine [inl boom; inr "r1"; inl boom] []) _ eq_refl) as H3.
    vm_compute in H2, H3. congruence.
  - split; vm_compute; reflexivity.
Defined.

Lemma owner_prefix_reads_witness :
  Glob.literal "u1" = true /\
  redis_quiet (world store_u10 [] None) /\
  stm_db (world store_u10 [] None)
    !! (SHORT_TERM_PREFIX +:+ memory_key_of (Some ("u1" +:+ "0")) "20240101000000" "aaaaaaaa")
    = Some (cell "u10" 0) /\
  exists w' resp,
    get_user_memories "u1" 50 true (world store_u10 [] None) = (w', inr resp) /\
    stm_db w' !! key_of "u10" "aaaaaaaa" = Some (bump_cell (cell "u10" 0)) /\
    user_short_term_item "u1" (bump (entry "u10" 0)) ∈ um_memories resp.
Proof.
  split; [reflexivity |]. split; [apply redis_quiet_world |]. split; [reflexivity |].
  destruct (owner_prefix_reads (E:=Scripted) "u1" "0" "20240101000000" "aaaaaaaa"
              (cell "u10" 0) (world store_u10 [] None)
              eq_refl (redis_quiet_world _ _) eq_refl) as (_ & Hlist & _).
  destruct (Hlist 50) as (w' & resp & Hrun & Hdb & Hin).
  exists w', resp. split; [exact Hrun |]. split; [exact Hdb | exact Hin].
Defined.

(** C10, counterexample.  An id with a colon: the scan for owner [u1]
    selects the entry of owner [u1:x].  An id with a bracket: [a[b]] is
    a prefix of [a[b]c], yet the read for [a[b]] neither returns nor
    counts the entry of [a[b]c], the bracket being read as a character
    class.  A failing KEYS: the read for [u1] returns nothing of [u10]. *)
Lemma owner_pattern_counterexample :
  (exists mem,
     snd (get_promotable_memories (Some "u1") (world store_colon [] None)) = inr [mem] /\
     stm_user_id mem = Some "u1:x" /\
     Glob.matches (promotable_pattern (Some "u1")) (key_of "u1:x" "aaaaaaaa") = true /\
     "u1" <> "u1:x") /\
  (String.prefix "a[b]" "a[b]c" = true /\
   store_bracket !! key_of "a[b]c" "aaaaaaaa" = Some (cell "a[b]c" 0) /\
   get_short_term "a[b]" (world store_bracket [] None)
     = (world store_bracket [] None, inr []) /\
   (exists resp,
      snd (search_memories (search_request "a[b]" 10) (world store_bracket [] None))
        = inr resp /\ memories resp = []) /\
   (exists resp,
      snd (get_user_memories "a[b]" 50 true (world store_bracket [] None))
        = inr resp /\ um_memories resp = [])) /\
  (String.prefix "u1" "u10" = true /\
   store_u10 !! key_of "u10" "aaaaaaaa" = Some (cell "u10" 0) /\
   get_short_term "u1" (world store_u10 [true] None)
     = (world store_u10 [] None, inr [])).
Proof.
  split; [| split].
  - eexists. split; [vm_compute; reflexivity |].
    split; [reflexivity |]. split; [vm_compute; reflexivity | discriminate].
  - split; [reflexivity |]. split; [reflexivity |].
    split; [vm_compute; reflexivity |].
    split; eexists; (split; [vm_compute; reflexivity | reflexivity]).
  - split; [reflexivity |]. split; [reflexivity |]. vm_compute. reflexivity.
Defined.

End Runs.

(** ** Further properties of the search *)

Section SliceFacts.
Context {A : Type}.

Lemma slice_to_prefix (n : Z) (l : list A) : Py.slice_to n l `prefix_of` l.
Proof. unfold Py.slice_to. destruct (0 <=? n); apply prefix_take. Qed.

Lemma slice_to_length (n : Z) (l : list A) :
  Z.of_nat (length (Py.slice_to n l)) =
    if 0 <=? n then Z.min n (Z.of_nat (length l))
    else Z.max 0 (Z.of_nat (length l) + n).
Proof.
  unfold Py.slice_to. destruct (Z.leb_spec 0 n); rewrite length_take; lia.
Qed.

Lemma StronglySorted_prefix (R : A -> A -> Prop) (l1 l2 : list A) :
  l1 `prefix_of` l2 -> StronglySorted R l2 -> StronglySorted R l1.
Proof.
  intros [k ->] Hs. rewrite <- (take_app_length l1 k).
  by apply StronglySorted_firstn.
Qed.

(** Sorting a list whose keys are all equal leaves it as it is. *)
Lemma sort_desc_equal_keys (key : A -> Q) (v : Q) (l : list A) :
  Forall (fun x => key x = v) l -> sort_desc key l = l.
Proof.
  induction 1 as [|x l Hx Hl IH]; [done |]. cbn [sort_desc]. rewrite IH.
  destruct Hl as [|y l' Hy _]; [done |]. cbn [insert_desc].
  rewrite Hx, Hy. by rewrite (proj2 (Qle_bool_iff v v)) by apply Qle_refl.
Qed.

End SliceFacts.

Section SearchExtras.
Context {E : Type} `{Mem0 E}.
Implicit Types (d : gmap string Cell) (w : World E) (m : option E)
  (s : option Postgres) (cs : list MemCall).

Lemma count_source_total (l : list MemoryResponse) :
  (count_source short_term_source l + count_source long_term_source l)%nat = length l.
Proof.
  unfold count_source. induction l as [|r l IH]; [done |]. cbn [List.filter].
  destruct (source r);
    repeat first [rewrite bool_decide_eq_true_2 by done
                 | rewrite bool_decide_eq_false_2 by done];
    cbn [length]; lia.
Qed.

(** A run of [search_memories]: its two parts and the response built from
    them. *)
Lemma search_memories_run (request : SearchRequest) w :
  exists w1 w2 short long,
    search_short_term request w = (w1, inr short) /\
    search_long_term request w1 = (w2, inr long) /\
    search_memories request w =
      (w2, inr {| memories :=
                    Py.slice_to (limit request) (sort_desc score_key (short ++ long));
                  count :=
                    length (Py.slice_to (limit request)
                              (sort_desc score_key (short ++ long)));
                  sources_short_term :=
                    count_source short_term_source
                      (Py.slice_to (limit request) (sort_desc score_key (short ++ long)));
                  sources_long_term :=
                    count_source long_term_source
                      (Py.slice_to (limit request)
                         (sort_desc score_key (short ++ long))) |}) /\
    Forall (fun r => source r = short_term_source /\ score r = Some (8 # 10)%Q) short /\
    Forall (fun r => source r = long_term_source) long.
Proof.
  destruct (search_short_term_total request w) as (w1 & short & Hs & Hshort).
  destruct (search_long_term_total request w1) as (w2 & long & Hl & Hlong).
  exists w1, w2, short, long. repeat split; try done.
  unfold search_memories.
  by rewrite (bind_inr _ _ _ _ _ Hs), (bind_inr _ _ _ _ _ Hl).
Qed.

(** X1: [search_memories] returns for every request and in every state,
    whatever the limit.  The memories returned are a prefix of the stable
    descending sort of the short-term matches followed by the long-term
    matches, so their scores never go up.  A limit that is not negative
    keeps at most that many entries; a negative limit [-n] is the slice
    [results[:-n]], which drops the last [n] entries of the sort. *)
Theorem search_any_limit (request : SearchRequest) w :
  exists w1 w2 short long resp,
    search_short_term request w = (w1, inr short) /\
    search_long_term request w1 = (w2, inr long) /\
    search_memories request w = (w2, inr resp) /\
    memories resp `prefix_of` sort_desc score_key (short ++ long) /\
    StronglySorted (desc score_key) (memories resp) /\
    Z.of_nat (length (memories resp)) =
      if 0 <=? limit request
      then Z.min (limit request) (Z.of_nat (length short + length long))
      else Z.max 0 (Z.of_nat (length short + length long) + limit request).
Proof.
  destruct (search_memories_run request w) as (w1 & w2 & short & long & Hs & Hl & Hr & _).
  exists w1, w2, short, long. eexists. repeat split; [exact Hs | exact Hl | exact Hr | ..];
    cbn [memories].
  - apply slice_to_prefix.
  - eapply StronglySorted_prefix; [apply slice_to_prefix | apply sort_desc_sorted].
  - rewrite slice_to_length, (Permutation_length (sort_desc_perm score_key _)), length_app.
    reflexivity.
Qed.

(** X2: the counters of a search response agree with its list: [count]
    is the number of memories returned, and the two [sources] counters,
    taken after the limit is applied, add up to it. *)
Theorem search_counts_add_up (request : SearchRequest) w :
  exists resp,
    snd (search_memories request w) = inr resp /\
    count resp = length (memories resp) /\
    (sources_short_term resp + sources_long_term resp)%nat = count resp.
Proof.
  destruct (search_memories_run request w) as (w1 & w2 & short & long & _ & _ & Hr & _).
  eexists. rewrite Hr. cbn [snd]. split; [reflexivity |].
  cbn [count memories sources_short_term sources_long_term].
  split; [reflexivity |]. apply count_source_total.
Qed.

(** What the reads of Redis leave alone. *)
Lemma redis_only_ret {A} (a : A) : redis_only (E:=E) (ret a).
Proof. by intros w. Qed.

Lemma redis_only_bind {A B} (mm : @M E A) (k : A -> @M E B) :
  redis_only mm -> (forall a, redis_only (k a)) -> redis_only (bind mm k).
Proof.
  intros Hm Hk w. unfold bind. specialize (Hm w).
  destruct (mm w) as [w1 [x|a]]; cbn [fst] in *; [exact Hm |].
  destruct (Hk a w1) as (-> & -> & ->). exact Hm.
Qed.

Lemma redis_only_try {A} (mm : @M E A) (h : Exn -> @M E A) :
  redis_only mm -> (forall x, redis_only (h x)) -> redis_only (try_except mm h).
Proof.
  intros Hm Hh w. unfold try_except. specialize (Hm w).
  destruct (mm w) as [w1 [x|a]]; cbn [fst] in *; [| exact Hm].
  destruct (Hh x w1) as (-> & -> & ->). exact Hm.
Qed.

Lemma redis_only_redis {A} (cmd : Redis -> Redis * (Exn + A)) : redis_only (E:=E) (redis cmd).
Proof.
  intros w. unfold redis. destruct (redis_client w) as [r|]; [| done].
  by destruct (cmd r) as [r' o].
Qed.

Lemma redis_only_get_short_term_loop (ks : list string) (acc : list Entry) :
  redis_only (E:=E) (get_short_term_loop ks acc).
Proof.
  revert acc. induction ks as [|k ks IH]; intros acc; [apply redis_only_ret |].
  cbn [get_short_term_loop]. apply redis_only_bind; [apply redis_only_redis |].
  intros [cell|]; [| apply IH].
  apply redis_only_bind; [apply redis_only_redis | intros _; apply IH].
Qed.

Lemma redis_only_get_short_term (pattern : string) :
  redis_only (E:=E) (get_short_term pattern).
Proof.
  intros w. unfold get_short_term. destruct (redis_client w); [| done].
  apply redis_only_try; [| intros; apply redis_only_ret].
  apply redis_only_bind; [apply redis_only_redis |].
  intros ks. apply redis_only_get_short_term_loop.
Qed.

Lemma redis_only_search_short_term (request : SearchRequest) :
  redis_only (E:=E) (search_short_term request).
Proof.
  intros w. unfold search_short_term. destruct (_ && _)%bool; [| done].
  apply redis_only_bind; [apply redis_only_get_short_term | intros; apply redis_only_ret].
Qed.

Lemma search_short_term_frame (request : SearchRequest) w :
  memory (fst (search_short_term request w)) = memory w /\
  mem_calls (fst (search_short_term request w)) = mem_calls w /\
  DbSession (fst (search_short_term request w)) = DbSession w.
Proof. apply redis_only_search_short_term. Qed.

Lemma search_memories_redis (request : SearchRequest) w :
  redis_client (fst (search_memories request w)) =
    redis_client (fst (search_short_term request w)).
Proof.
  destruct (search_memories_run request w) as (w1 & w2 & short & long & Hs & Hl & Hr & _).
  rewrite Hr, Hs. cbn [fst].
  pose proof (search_long_term_redis request w1) as Hlr. by rewrite Hl in Hlr.
Qed.

(** X3: a search that leaves the short-term tier out
    ([include_short_term] false, or no Redis client) sends no command to
    Redis: the store and every [access_count] in it stay as they are, and
    every memory returned comes from the long-term tier. *)
Theorem search_long_term_only (request : SearchRequest) w :
  include_short_term request = false \/ redis_client w = None ->
  redis_client (fst (search_memories request w)) = redis_client w /\
  exists resp,
    snd (search_memories request w) = inr resp /\
    Forall (fun r => source r = long_term_source) (memories resp) /\
    sources_short_term resp = 0%nat.
Proof.
  intros Hoff.
  assert (search_short_term request w = (w, inr [])) as Hshort.
  { unfold search_short_term. destruct Hoff as [-> | ->]; [done |].
    rewrite bool_decide_eq_false_2 by (by intros [? ?]). by rewrite andb_false_r. }
  split; [by rewrite search_memories_redis, Hshort |].
  destruct (search_memories_run request w)
    as (w1 & w2 & short & long & Hs & Hl & Hr & _ & Hlong).
  rewrite Hshort in Hs. injection Hs as <- <-.
  eexists. rewrite Hr. cbn [snd]. split; [reflexivity |].
  cbn [memories sources_short_term app].
  assert (Forall (fun r => source r = long_term_source)
            (Py.slice_to (limit request) (sort_desc score_key long))) as Hall.
  { apply Forall_forall. intros r Hr'.
    eapply elem_of_prefix in Hr'; [| apply slice_to_prefix].
    rewrite sort_desc_perm in Hr'. rewrite Forall_forall in Hlong. by apply Hlong. }
  split; [exact Hall |].
  unfold count_source. induction Hall as [|r l Hr' _ IH]; [done |].
  cbn [List.filter]. rewrite Hr'. by rewrite bool_decide_eq_false_2.
Qed.

(** X4: without an engine a search returns the short-term matches
    alone, in the order the read produced them and cut by the limit: all
    of them score 0.8, and the stable sort moves none.  The engine is not
    called. *)
Theorem search_without_engine (request : SearchRequest) w :
  memory w = None ->
  exists w1 short resp,
    search_short_term request w = (w1, inr short) /\
    search_memories request w = (w1, inr resp) /\
    memories resp = Py.slice_to (limit request) short /\
    memory w1 = None /\ mem_calls w1 = mem_calls w.
Proof.
  intros Hm.
  destruct (search_short_term_total request w) as (w1 & short & Hs & Hshort).
  destruct (search_short_term_frame request w) as (Hmem & Hcalls & _).
  rewrite Hs in Hmem, Hcalls. cbn [fst] in Hmem, Hcalls.
  assert (search_long_term request w1 = (w1, inr [])) as Hl.
  { unfold search_long_term. rewrite Hmem, Hm.
    by rewrite bool_decide_eq_false_2 by (by intros [? ?]). }
  exists w1, short. eexists. split; [exact Hs |]. split.
  { unfold search_memories.
    by rewrite (bind_inr _ _ _ _ _ Hs), (bind_inr _ _ _ _ _ Hl). }
  cbn [memories]. rewrite app_nil_r. split; [| by rewrite Hmem, Hm].
  f_equal. apply (sort_desc_equal_keys score_key (8 # 10)%Q).
  eapply Forall_impl; [exact Hshort |]. intros r [_ Hscore].
  unfold score_key. by rewrite Hscore.
Qed.

(** What a search does to a stored entry on a Redis that answers. *)
Lemma search_memories_lookup (request : SearchRequest) w (k : string) (cell : Cell) :
  redis_quiet w -> include_short_term request = true ->
  stm_db w !! k = Some cell ->
  stm_db (fst (search_memories request w)) !! k =
    Some (if Glob.matches (search_pattern request) k then bump_cell cell else cell).
Proof.
  intros Hq Hinc Hk. unfold stm_db at 1. rewrite search_memories_redis.
  unfold search_short_term. rewrite Hinc.
  destruct Hq as (r & Hr & Hf). rewrite Hr.
  rewrite bool_decide_eq_true_2 by eauto. cbn [andb]. rewrite fst_bind_ret.
  apply (get_short_term_lookup (Py.or_else (search_user_id request) "*") w k cell);
    [by exists r | exact Hk].
Qed.

(** X5: a search that includes the short-term tier reads, and counts
    as one access, every stored entry whose key matches
    [stm:{user_id or '*'}*], whatever the query and the limit are and
    whether or not the entry is returned; every other entry stays as it
    is (Redis answering). *)
Theorem search_counts_every_match (request : SearchRequest) w (k : string) (cell : Cell) :
  redis_quiet w -> include_short_term request = true ->
  stm_db w !! k = Some cell ->
  stm_db (fst (search_memories request w)) !! k =
    Some (if Glob.matches (search_pattern request) k then bump_cell cell else cell).
Proof. apply search_memories_lookup. Qed.

Lemma search_short_term_quiet (request : SearchRequest) d m s cs :
  include_short_term request = true ->
  search_short_term request (qworld d m s cs) =
    (qworld (bump_where (Glob.matches (search_pattern request)) d) m s cs,
     inr (map short_term_response
            (List.filter (keyword_match (query request))
               (read_of (Py.or_else (search_user_id request) "*") d)))).
Proof.
  intros Hinc. unfold search_short_term. rewrite Hinc.
  rewrite bool_decide_eq_true_2 by (by eexists). cbn [andb].
  by erewrite bind_inr by apply get_short_term_quiet.
Qed.

Lemma contains_nil (s : string) : Py.contains "" s = true.
Proof. by destruct s. Qed.

Lemma keyword_match_empty (stm : Entry) : keyword_match "" stm = true.
Proof. unfold keyword_match. cbn [Py.lower]. by rewrite contains_nil. Qed.

(** X6: the empty query matches every short-term entry: a search with
    [query] empty returns, before the sort and the limit, all the entries
    the read of the owner's pattern produced (Redis answering). *)
Theorem search_empty_query (request : SearchRequest) w :
  redis_quiet w -> include_short_term request = true -> query request = "" ->
  (forall stm, keyword_match (query request) stm = true) /\
  exists w1,
    search_short_term request w =
      (w1, inr (map short_term_response
                  (read_of (Py.or_else (search_user_id request) "*") (stm_db w)))).
Proof.
  intros (d & m & s & cs & ->)%redis_quiet_inv Hinc Hquery.
  split; [intros stm; rewrite Hquery; apply keyword_match_empty |].
  rewrite search_short_term_quiet by done. eexists. f_equal. f_equal. f_equal.
  change (stm_db (qworld d m s cs)) with d. rewrite Hquery.
  induction (read_of _ d) as [|stm l IH]; [done |].
  cbn [List.filter]. by rewrite keyword_match_empty, IH.
Qed.

(** The engine is called by the long-term part only. *)
Lemma search_long_term_calls (request : SearchRequest) w :
  mem_calls (fst (search_long_term request w)) =
    mem_calls w ++
    (if bool_decide (is_Some (memory w)) then [CallSearch (search_kwargs request)] else []).
Proof.
  unfold search_long_term. destruct (memory w) as [e|] eqn:Hm.
  - rewrite bool_decide_eq_true_2 by eauto.
    unfold try_except, bind, mem0_call. rewrite Hm.
    by destruct (mem_search _ e) as [e' [x|l]].
  - rewrite bool_decide_eq_false_2 by (by intros [? ?]). cbn. by rewrite app_nil_r.
Qed.

(** X7: whatever Redis and the engine do, a search calls the engine at
    most once: once when there is an engine, with the query, the limit
    and those of [user_id], [agent_id] and [session_id] (as [run_id])
    that are not empty, and not at all when there is none. *)
Theorem search_engine_call (request : SearchRequest) w :
  mem_calls (fst (search_memories request w)) =
    mem_calls w ++
    (if bool_decide (is_Some (memory w)) then [CallSearch (search_kwargs request)] else []) /\
  s_query (search_kwargs request) = query request /\
  s_limit (search_kwargs request) = limit request /\
  (forall v, s_user_id (search_kwargs request) = Some v <->
             search_user_id request = Some v /\ v <> "") /\
  (forall v, s_agent_id (search_kwargs request) = Some v <->
             search_agent_id request = Some v /\ v <> "") /\
  (forall v, s_run_id (search_kwargs request) = Some v <->
             search_session_id request = Some v /\ v <> "").
Proof.
  assert (forall o v, kwarg o = Some v <-> o = Some v /\ v <> "") as Hkw.
  { intros [[|c s]|] v; cbn; split; intros Hv; try done; try (by destruct Hv).
    - destruct Hv as [[= <-] Hne]. by destruct Hne.
    - by injection Hv as <-. }
  split; [| split; [done | split; [done | split; [apply Hkw | split; apply Hkw]]]].
  destruct (search_memories_run request w) as (w1 & w2 & short & long & Hs & Hl & Hr & _).
  rewrite Hr. cbn [fst].
  pose proof (search_long_term_calls request w1) as Hc. rewrite Hl in Hc. cbn [fst] in Hc.
  destruct (search_short_term_frame request w) as (Hmem & Hcalls & _).
  rewrite Hs in Hmem, Hcalls. cbn [fst] in Hmem, Hcalls.
  by rewrite Hc, Hmem, Hcalls.
Qed.

(** X8: a search without an owner ([user_id] absent or empty) is not
    scoped: its pattern matches the key of every short-term entry the
    server has written, of whatever owner, and the engine is called
    without a [user_id]. *)
Theorem search_without_owner_reads_all (request : SearchRequest) :
  search_user_id request = None \/ search_user_id request = Some "" ->
  s_user_id (search_kwargs request) = None /\
  forall owner timestamp hash,
    Glob.matches (search_pattern request)
      (SHORT_TERM_PREFIX +:+ memory_key_of owner timestamp hash) = true.
Proof.
  intros Hnone. split.
  - unfold search_kwargs. cbn [s_user_id]. by destruct Hnone as [-> | ->].
  - intros owner timestamp hash. unfold search_pattern.
    replace (Py.or_else (search_user_id request) "*") with "*"%string
      by (by destruct Hnone as [-> | ->]).
    apply matches_all.
Qed.

End SearchExtras.

(** ** The keyword test and the formatting of messages *)

Section KeywordExtras.
Implicit Types (a b s t : string) (c : ascii).

Lemma lower_app a b : Py.lower (a +:+ b) = Py.lower a +:+ Py.lower b.
Proof.
  induction a as [|c a IH]; [done |].
  rewrite app_cons. cbn [Py.lower]. by rewrite IH, app_cons.
Qed.

Lemma prefix_app s t : String.prefix s (s +:+ t) = true.
Proof.
  induction s as [|c s IH]; [by destruct t |].
  rewrite app_cons. cbn [String.prefix]. by destruct (ascii_dec c c).
Qed.

Lemma prefix_inv s t : String.prefix s t = true -> exists y, t = s +:+ y.
Proof.
  revert t. induction s as [|c s IH]; intros t Hp; [by exists t |].
  destruct t as [|c' t]; [done |]. cbn [String.prefix] in Hp.
  destruct (ascii_dec c c') as [<-|]; [| done].
  destruct (IH t Hp) as [y ->]. exists y. by rewrite app_cons.
Qed.

Lemma contains_here s t : String.prefix s t = true -> Py.contains s t = true.
Proof. intros Hp. destruct t; cbn [Py.contains]; by rewrite Hp. Qed.

Lemma contains_app_r s a t : Py.contains s t = true -> Py.contains s (a +:+ t) = true.
Proof.
  intros Ht. induction a as [|c a IH]; [done |].
  rewrite app_cons. cbn [Py.contains]. by rewrite IH, orb_true_r.
Qed.

Lemma contains_mid s a b : Py.contains s (a +:+ s +:+ b) = true.
Proof. apply contains_app_r, contains_here, prefix_app. Qed.









Lemma str_messages_head (m : Message) (ms : list Message) :
  exists rest,
    str_messages (m :: ms) =
      "[{'role': " +:+ Py.repr (role m) +:+ ", 'content': " +:+ rest.
Proof.
  assert (exists tail, Py.join ", " (map str_message (m :: ms)) = str_message m +:+ tail)
    as [tail Hj].
  { destruct ms as [|m' ms]; cbn [map Py.join].
    - exists ""%string. clear. induction (str_message m) as [|c y IH]; [done |].
      by rewrite app_cons, <- IH.
    - by eexists. }
  unfold str_messages. rewrite Hj. unfold str_message.
  eexists. rewrite !append_assoc. rewrite !app_cons, app_nil. reflexivity.
Qed.

(** The keyword test holds as soon as the lower-cased query, or one of
    its words, occurs in the lower-cased [str(messages)]. *)
Lemma keyword_match_intro (q word : string) (stm : Entry) :
  word = Py.lower q \/ word ∈ Py.split (Py.lower q) ->
  Py.contains word (Py.lower (str_messages (stm_messages stm))) = true ->
  keyword_match q stm = true.
Proof.
  intros [-> | Hw] Hc; unfold keyword_match; apply orb_true_iff; [by left | right].
  apply existsb_exists. exists word. split; [by apply list_elem_of_In | done].
Qed.

(** X9: the keyword test looks at the printed list of message dicts,
    so it also sees the dict keys: a query that has [role] or [content]
    among its words (in any case) matches every short-term entry that has
    at least one message, whatever the messages say. *)
Theorem keyword_matches_dict_keys (q word : string) (stm : Entry) :
  word = "role" \/ word = "content" ->
  word ∈ Py.split (Py.lower q) ->
  stm_messages stm <> [] ->
  keyword_match q stm = true.
Proof.
  intros Hword Hin Hne. apply (keyword_match_intro q word); [by right |].
  destruct (stm_messages stm) as [|m ms]; [done |].
  destruct (str_messages_head m ms) as [rest ->].
  destruct Hword as [-> | ->].
  - change "[{'role': "%string with ("[{'" +:+ "role" +:+ "': ").
    rewrite !append_assoc, !lower_app. apply contains_mid.
  - change ", 'content': "%string with (", '" +:+ "content" +:+ "': ").
    rewrite <- !append_assoc.
    rewrite (append_assoc _ "content"), (append_assoc _ ("content" +:+ "': ")).
    rewrite (append_assoc "content"). rewrite !lower_app. apply contains_mid.
Qed.


End KeywordExtras.

Section FormatExtras.

Lemma format_parts (ms : list Message) :
  concat (map message_part ms) <> [] ->
  format_messages_as_memory ms = Py.join " | " (concat (map message_part ms)).
Proof.
  intros Hne. unfold format_messages_as_memory.
  destruct ms as [|m ms]; [done |].
  by destruct (concat (map message_part (m :: ms))).
Qed.

(** X11: a message that is neither a user nor an assistant message, or
    whose content is empty, leaves no trace in the memory text as soon as
    another message of the list does: the text is the same as without
    it. *)
Theorem format_skips_message (before after : list Message) (m : Message) :
  message_part m = [] ->
  concat (map message_part (before ++ after)) <> [] ->
  format_messages_as_memory (before ++ m :: after) =
    format_messages_as_memory (before ++ after).
Proof.
  intros Hm Hne.
  assert (concat (map message_part (before ++ m :: after)) =
          concat (map message_part (before ++ after))) as Hparts.
  { rewrite !map_app, !concat_app. cbn [map concat]. by rewrite Hm. }
  rewrite !format_parts; [by rewrite Hparts | done | by rewrite Hparts].
Qed.

End FormatExtras.

(** ** Further properties of [add_memory] *)

Section AddExtras.
Context {E : Type} `{Mem0 E}.
Variable md5_hexdigest : string -> string.
Implicit Types (d : gmap string Cell) (w : World E) (m : option E)
  (s : option Postgres) (cs : list MemCall).

(** [log_operation], case by case. *)
Lemma log_operation_run (entry : MemoryHistory) w :
  log_operation entry w = (fst (log_operation entry w), inr tt) /\
  redis_client (fst (log_operation entry w)) = redis_client w /\
  memory (fst (log_operation entry w)) = memory w /\
  mem_calls (fst (log_operation entry w)) = mem_calls w /\
  DbSession (fst (log_operation entry w)) =
    match DbSession w with
    | None => None
    | Some pg =>
        Some {| history := if hd false (pg_faults pg) then history pg
                           else history pg ++ [entry];
                pg_faults := tl (pg_faults pg) |}
    end.
Proof.
  unfold log_operation. destruct (DbSession w) as [pg|] eqn:Hdb.
  - by destruct (hd false (pg_faults pg)).
  - cbn [fst]. by rewrite Hdb.
Qed.

(** The long-term step of [add_memory], case by case. *)
Lemma add_long_term_eq (request : AddMemoryRequest) (hash : string) w :
  add_long_term request hash w =
    if short_term_only request then (w, inr None)
    else
      match memory w with
      | None => (w, inr None)
      | Some e =>
          match mem_add (add_args request) e with
          | (e', inl _) => (with_memory w e' (CallAdd (add_args request)), inr None)
          | (e', inr j) =>
              (fst (log_operation
                      {| operation := "add"; h_user_id := add_user_id request;
                         h_agent_id := add_agent_id request;
                         h_session_id := add_session_id request;
                         content_hash := Some hash;
                         memory_tier := Some "long_term";
                         extra_data := Some (String.substring 0 500 j) |}
                      (with_memory w e' (CallAdd (add_args request)))),
               inr (Some j))
          end
      end.
Proof.
  unfold add_long_term. destruct (short_term_only request); [done |]. cbn [negb andb].
  destruct (memory w) as [e|] eqn:Hm.
  - rewrite bool_decide_eq_true_2 by eauto.
    unfold try_except, bind, mem0_call. rewrite Hm.
    destruct (mem_add (add_args request) e) as [e' [x|j]]; [done |].
    match goal with |- context [log_operation ?en ?w0] =>
      destruct (log_operation_run en w0) as (Hl & _) end.
    by rewrite Hl.
  - by rewrite bool_decide_eq_false_2 by (by intros [? ?]).
Qed.

(** The steps of [add_memory]: the Redis write, its audit row, the
    long-term step. *)
Lemma add_memory_steps (now : Now) (request : AddMemoryRequest) w :
  exists w1 b w2 w3 o,
    store_short_term (iso now)
      (memory_key_of (add_user_id request) (stamp now)
         (content_hash_of md5_hexdigest (add_messages request)))
      {| stm_messages := add_messages request; stm_user_id := add_user_id request;
         stm_agent_id := add_agent_id request; stm_session_id := add_session_id request;
         stm_metadata := add_metadata request; stm_created_at := None;
         stm_access_count := None; stm_redis_key := None |}
      SHORT_TERM_TTL_HOURS w = (w1, inr b) /\
    w2 = (if b
          then fst (log_operation
                      {| operation := "add"; h_user_id := add_user_id request;
                         h_agent_id := add_agent_id request;
                         h_session_id := add_session_id request;
                         content_hash :=
                           Some (content_hash_of md5_hexdigest (add_messages request));
                         memory_tier := Some "short_term";
                         extra_data :=
                           Some (memory_key_of (add_user_id request) (stamp now)
                                   (content_hash_of md5_hexdigest (add_messages request))) |}
                      w1)
          else w1) /\
    add_long_term request (content_hash_of md5_hexdigest (add_messages request)) w2
      = (w3, inr o) /\
    add_memory md5_hexdigest now request w =
      (w3, inr {| success := true; short_term := b;
                  long_term := bool_decide (is_Some o);
                  memory_key :=
                    if b then Some (memory_key_of (add_user_id request) (stamp now)
                                      (content_hash_of md5_hexdigest (add_messages request)))
                    else None;
                  result := o |}).
Proof.
  unfold add_memory; cbv zeta.
  match goal with |- context [store_short_term ?a ?b ?c ?d] =>
    destruct (store_short_term_frame a b c d w) as (w1 & b1 & Hst & _) end.
  destruct (add_long_term_spec request
              (content_hash_of md5_hexdigest (add_messages request))
              (if b1
               then fst (log_operation
                      {| operation := "add"; h_user_id := add_user_id request;
                         h_agent_id := add_agent_id request;
                         h_session_id := add_session_id request;
                         content_hash :=
                           Some (content_hash_of md5_hexdigest (add_messages request));
                         memory_tier := Some "short_term";
                         extra_data :=
                           Some (memory_key_of (add_user_id request) (stamp now)
                                   (content_hash_of md5_hexdigest (add_messages request))) |}
                      w1)
               else w1)) as (w3 & o & Hlt & _).
  exists w1, b1. eexists _, w3, o. split; [exact Hst |]. split; [reflexivity |].
  split; [exact Hlt |].
  rewrite (bind_inr _ _ _ _ _ Hst).
  erewrite bind_inr; [by rewrite (bind_inr _ _ _ _ _ Hlt) |].
  destruct b1; [| done].
  match goal with |- context [log_operation ?en ?w0] =>
    destruct (log_operation_run en w0) as (Hl & _) end.
  exact Hl.
Qed.

(** X12: when the response of an add says [short_term: true], the
    entry is in Redis under [stm:] followed by the [memory_key] of the
    response, with an expiry of 24 hours; its document has the messages,
    owner, agent, session and metadata of the request, the time of the
    write as [created_at] and an [access_count] of 0. *)
Theorem add_memory_stores_entry (now : Now) (request : AddMemoryRequest) w
    (resp : AddMemoryResponse) :
  snd (add_memory md5_hexdigest now request w) = inr resp ->
  short_term resp = true ->
  (exists key, memory_key resp = Some key /\
     stored_key md5_hexdigest now request = SHORT_TERM_PREFIX +:+ key) /\
  stm_db (fst (add_memory md5_hexdigest now request w))
    !! stored_key md5_hexdigest now request =
    Some {| ttl := Some SHORT_TERM_TTL_HOURS; doc := stored_entry now request |}.
Proof.
  destruct (add_memory_run md5_hexdigest now request w)
    as (w' & b & o & Hrun & Hb & _ & _ & Hr).
  rewrite Hrun. cbn [fst snd]. intros [= <-]. cbn [short_term memory_key]. intros ->.
  destruct (proj1 Hb eq_refl) as (r & Hrc & Hf).
  split; [by eexists |].
  unfold stm_db. rewrite Hr, store_short_term_spec, Hrc, Hf. cbn.
  unfold stored_key. by rewrite lookup_insert_eq.
Qed.

(** X13: whatever Redis and the database do, an add calls the engine
    at most once: once when the durable write is requested and there is an
    engine, with the messages, owner, agent and metadata of the request
    and its session as [run_id]; otherwise not at all. *)
Theorem add_memory_engine_call (now : Now) (request : AddMemoryRequest) w :
  mem_calls (fst (add_memory md5_hexdigest now request w)) =
    mem_calls w ++
    (if (negb (short_term_only request) && bool_decide (is_Some (memory w)))%bool
     then [CallAdd {| a_messages := add_messages request;
                      a_user_id := add_user_id request;
                      a_agent_id := add_agent_id request;
                      a_run_id := add_session_id request;
                      a_metadata := add_metadata request |}]
     else []).
Proof.
  destruct (add_memory_steps now request w)
    as (w1 & b & w2 & w3 & o & Hst & Hw2 & Hlt & ->). cbn [fst].
  match type of Hst with store_short_term ?a ?k ?dt ?h w = _ =>
    destruct (store_short_term_frame a k dt h w) as (w1' & b' & Hst' & Hm1 & Hc1 & _) end.
  rewrite Hst in Hst'. injection Hst' as <- <-.
  assert (memory w2 = memory w /\ mem_calls w2 = mem_calls w) as [Hm2 Hc2].
  { subst w2. destruct b; [| done].
    match goal with |- context [log_operation ?en ?w0] =>
      destruct (log_operation_run en w0) as (_ & _ & -> & -> & _) end. done. }
  rewrite add_long_term_eq in Hlt. rewrite <- Hm2, <- Hc2.
  destruct (short_term_only request); cbn [negb andb].
  { injection Hlt as <- _. by rewrite app_nil_r. }
  destruct (memory w2) as [e|].
  - rewrite bool_decide_eq_true_2 by eauto.
    destruct (mem_add (add_args request) e) as [e' [x|j]]; injection Hlt as <- _.
    + done.
    + match goal with |- context [log_operation ?en ?w0] =>
        destruct (log_operation_run en w0) as (_ & _ & _ & -> & _) end. done.
  - rewrite bool_decide_eq_false_2 by (by intros [? ?]).
    injection Hlt as <- _. by rewrite app_nil_r.
Qed.

(** X14: with a database that answers, an add writes one audit row
    for each tier its response reports as written, the short-term row
    first, and no other row.  Each row has the operation [add], the owner,
    agent and session of the request and the content hash of its
    messages. *)
Theorem add_memory_audit (now : Now) (request : AddMemoryRequest) w :
  db_quiet w ->
  exists resp rows,
    snd (add_memory md5_hexdigest now request w) = inr resp /\
    db_quiet (fst (add_memory md5_hexdigest now request w)) /\
    audit_log (fst (add_memory md5_hexdigest now request w)) = audit_log w ++ rows /\
    map memory_tier rows =
      (if short_term resp then [Some "short_term"%string] else []) ++
      (if long_term resp then [Some "long_term"%string] else []) /\
    Forall (fun row =>
              operation row = "add"%string /\
              h_user_id row = add_user_id request /\
              h_agent_id row = add_agent_id request /\
              h_session_id row = add_session_id request /\
              content_hash row =
                Some (content_hash_of md5_hexdigest (add_messages request))) rows.
Proof.
  intros (pg & Hdb & Hpf).
  destruct (add_memory_steps now request w)
    as (w1 & b & w2 & w3 & o & Hst & Hw2 & Hlt & ->). cbn [fst snd].
  assert (DbSession w1 = Some pg) as Hdb1.
  { rewrite store_short_term_spec in Hst.
    destruct (redis_client w) as [r|]; [destruct (hd false (faults r)) |];
      injection Hst as <- _; done. }
  set (row1 := {| operation := "add"; h_user_id := add_user_id request;
                  h_agent_id := add_agent_id request;
                  h_session_id := add_session_id request;
                  content_hash :=
                    Some (content_hash_of md5_hexdigest (add_messages request));
                  memory_tier := Some "short_term"%string;
                  extra_data :=
                    Some (memory_key_of (add_user_id request) (stamp now)
                            (content_hash_of md5_hexdigest (add_messages request))) |})
    in Hw2.
  assert (DbSession w2 =
            Some {| history := history pg ++ (if b then [row1] else []);
                    pg_faults := [] |}) as Hdb2.
  { subst w2. destruct b.
    - destruct (log_operation_run row1 w1) as (_ & _ & _ & _ & ->).
      by rewrite Hdb1, Hpf.
    - rewrite Hdb1, app_nil_r. by destruct pg; cbn in *; subst. }
  rewrite add_long_term_eq in Hlt.
  assert (forall rows2 (l : bool),
            DbSession w3 =
              Some {| history := (history pg ++ (if b then [row1] else [])) ++ rows2;
                      pg_faults := [] |} ->
            map memory_tier rows2 = (if l then [Some "long_term"%string] else []) ->
            Forall (fun row =>
              operation row = "add"%string /\
              h_user_id row = add_user_id request /\
              h_agent_id row = add_agent_id request /\
              h_session_id row = add_session_id request /\
              content_hash row =
                Some (content_hash_of md5_hexdigest (add_messages request))) rows2 ->
            l = bool_decide (is_Some o) ->
            exists resp rows,
              inr {| success := true; short_term := b;
                     long_term := bool_decide (is_Some o);
                     memory_key :=
                       if b then Some (memory_key_of (add_user_id request) (stamp now)
                                  (content_hash_of md5_hexdigest (add_messages request)))
                       else None;
                     result := o |} = inr (A:=Exn) resp /\
              db_quiet w3 /\
              audit_log w3 = audit_log w ++ rows /\
              map memory_tier rows =
                (if short_term resp then [Some "short_term"%string] else []) ++
                (if long_term resp then [Some "long_term"%string] else []) /\
              Forall (fun row =>
                operation row = "add"%string /\
                h_user_id row = add_user_id request /\
                h_agent_id row = add_agent_id request /\
                h_session_id row = add_session_id request /\
                content_hash row =
                  Some (content_hash_of md5_hexdigest (add_messages request))) rows)
    as Hfinish.
  { intros rows2 l Hdb3 Htiers Hrows ->.
    eexists _, ((if b then [row1] else []) ++ rows2).
    split; [reflexivity |]. split; [by eexists |].
    split; [unfold audit_log; by rewrite Hdb3, Hdb, app_assoc |].
    cbn [short_term long_term]. split.
    - rewrite map_app, Htiers. by destruct b.
    - apply Forall_app. split; [| done]. destruct b; by repeat constructor. }
  destruct (short_term_only request).
  { injection Hlt as <- <-. apply (Hfinish [] false); try done.
    by rewrite app_nil_r. }
  destruct (memory w2) as [e|].
  - destruct (mem_add (add_args request) e) as [e' [x|j]]; injection Hlt as <- <-.
    + apply (Hfinish [] false); try done. by rewrite app_nil_r.
    + match goal with |- context [log_operation ?en ?w0] =>
        destruct (log_operation_run en w0) as (_ & _ & _ & _ & Hdb3);
        apply (Hfinish [en] true) end; try done.
      * rewrite Hdb3. cbn [with_memory DbSession]. by rewrite Hdb2.
      * by repeat constructor.
  - injection Hlt as <- <-. apply (Hfinish [] false); try done. by rewrite app_nil_r.
Qed.

(** The world after an add on a Redis that answers. *)
Lemma add_memory_quiet (now : Now) (request : AddMemoryRequest) w :
  redis_quiet w ->
  exists m s cs,
    fst (add_memory md5_hexdigest now request w) =
      qworld (<[stored_key md5_hexdigest now request :=
                  {| ttl := Some SHORT_TERM_TTL_HOURS; doc := stored_entry now request |}]>
                (stm_db w)) m s cs.
Proof.
  intros (d & m & s & cs & ->)%redis_quiet_inv.
  destruct (add_memory_run md5_hexdigest now request (qworld d m s cs))
    as (w' & b & o & -> & _ & _ & _ & Hr).
  cbn [fst]. rewrite store_short_term_spec in Hr. cbn in Hr.
  exists (memory w'), (DbSession w'), (mem_calls w').
  destruct w' as [rc mm db cl]. cbn in *. by subst rc.
Qed.

End AddExtras.

(** ** What no read changes *)

Section ContentFacts.
Context {E : Type} `{Mem0 E}.
Implicit Types (d : gmap string Cell) (w : World E).

Lemma content_kept_refl d : content_kept d d.
Proof. intros k c Hk. by exists c. Qed.

Lemma content_kept_trans d1 d2 d3 :
  content_kept d1 d2 -> content_kept d2 d3 -> content_kept d1 d3.
Proof.
  intros H12 H23 k c3 Hk.
  destruct (H23 _ _ Hk) as (c2 & Hk2 & Ht2 & Hd2).
  destruct (H12 _ _ Hk2) as (c1 & Hk1 & Ht1 & Hd1).
  exists c1. split; [done |]. split; congruence.
Qed.

Lemma content_kept_delete (k : string) d : content_kept d (delete k d).
Proof.
  intros k' c Hk. exists c. split; [| done].
  destruct (decide (k' = k)) as [->|Hne].
  - by rewrite lookup_delete_eq in Hk.
  - by rewrite lookup_delete_ne in Hk.
Qed.

Lemma content_kept_bump (k : string) (cell : Cell) d :
  d !! k = Some cell ->
  content_kept d
    (<[k := {| ttl := d !! k ≫= ttl;
               doc := set_access_count (get_access_count (doc cell) + 1) (doc cell) |}]> d).
Proof.
  intros Hd k' c Hk. destruct (decide (k' = k)) as [->|Hne].
  - rewrite lookup_insert_eq in Hk. injection Hk as <-.
    exists cell. split; [done |]. by rewrite Hd.
  - rewrite lookup_insert_ne in Hk by done. by exists c.
Qed.

Lemma keeps_content_same_redis {A} (mm : @M E A) :
  (forall w, redis_client (fst (mm w)) = redis_client w) -> keeps_content mm.
Proof. intros Hr w. unfold stm_db. rewrite Hr. apply content_kept_refl. Qed.

Lemma keeps_content_ret {A} (a : A) : keeps_content (E:=E) (ret a).
Proof. intros w. apply content_kept_refl. Qed.

Lemma keeps_content_bind {A B} (mm : @M E A) (k : A -> @M E B) :
  keeps_content mm -> (forall a, keeps_content (k a)) -> keeps_content (bind mm k).
Proof.
  intros Hm Hk w. unfold bind. specialize (Hm w).
  destruct (mm w) as [w' [x|a]]; [done |].
  eapply content_kept_trans; [exact Hm | apply Hk].
Qed.

Lemma keeps_content_try {A} (mm : @M E A) (h : Exn -> @M E A) :
  keeps_content mm -> (forall x, keeps_content (h x)) -> keeps_content (try_except mm h).
Proof.
  intros Hm Hh w. unfold try_except. specialize (Hm w).
  destruct (mm w) as [w' [x|a]]; [| done].
  eapply content_kept_trans; [exact Hm | apply Hh].
Qed.

Lemma keeps_content_redis_run {A} (f : gmap string Cell -> gmap string Cell * A) :
  (forall d, content_kept d (fst (f d))) -> keeps_content (E:=E) (redis (RedisCmd.run f)).
Proof.
  intros Hf w. unfold redis, stm_db.
  destruct (redis_client w) as [r|] eqn:Hr; cbn [fst]; [| rewrite Hr; apply content_kept_refl].
  unfold RedisCmd.run. destruct (hd false (faults r)); cbn.
  - apply content_kept_refl.
  - specialize (Hf (db r)). by destruct (f (db r)).
Qed.

Lemma keeps_content_keys (pattern : string) :
  keeps_content (E:=E) (redis (RedisCmd.keys pattern)).
Proof. apply keeps_content_redis_run. intros d. apply content_kept_refl. Qed.

Lemma keeps_content_get (k : string) : keeps_content (E:=E) (redis (RedisCmd.get k)).
Proof. apply keeps_content_redis_run. intros d. apply content_kept_refl. Qed.

Lemma keeps_content_delete (k : string) : keeps_content (E:=E) (redis (RedisCmd.delete k)).
Proof. apply keeps_content_redis_run. intros d. apply content_kept_delete. Qed.

Lemma keeps_content_mem0_call {A} (call : MemCall) (f : E -> E * (Exn + A)) :
  keeps_content (mem0_call call f).
Proof.
  apply keeps_content_same_redis. intros w. unfold mem0_call.
  destruct (memory w) as [e|]; [| done]. by destruct (f e).
Qed.

(** The read loop writes a key back with the expiry it has ([KEEPTTL])
    and the document just read, its count raised by one. *)
Lemma keeps_content_get_short_term_loop (ks : list string) (acc : list Entry) :
  keeps_content (E:=E) (get_short_term_loop ks acc).
Proof.
  revert acc. induction ks as [|k ks IH]; intros acc; [apply keeps_content_ret |].
  intros w. cbn [get_short_term_loop]. unfold bind at 1, redis at 1.
  destruct (redis_client w) as [r|] eqn:Hr; [| apply content_kept_refl].
  unfold RedisCmd.get, RedisCmd.run. destruct (hd false (faults r)).
  { unfold stm_db. rewrite Hr. cbn. apply content_kept_refl. }
  cbn. destruct (db r !! k) as [cell|] eqn:Hk.
  - unfold bind at 1, redis at 1. cbn.
    unfold RedisCmd.set_keepttl, RedisCmd.run. cbn.
    destruct (hd false (tl (faults r))); cbn.
    { unfold stm_db. rewrite Hr. cbn. apply content_kept_refl. }
    eapply content_kept_trans; [| apply IH].
    unfold stm_db at 1 2. rewrite Hr. cbn. by apply content_kept_bump.
  - eapply content_kept_trans; [| apply IH].
    unfold stm_db at 1 2. rewrite Hr. cbn. apply content_kept_refl.
Qed.

Lemma keeps_content_get_short_term (pattern : string) :
  keeps_content (E:=E) (get_short_term pattern).
Proof.
  intros w. unfold get_short_term.
  destruct (redis_client w) eqn:Hr; [| apply content_kept_refl].
  apply keeps_content_try; [| intros; apply keeps_content_ret].
  apply keeps_content_bind; [apply keeps_content_keys |].
  intros ks. apply keeps_content_get_short_term_loop.
Qed.

Lemma keeps_content_get_promotable_loop (ks : list string) (acc : list Entry) :
  keeps_content (E:=E) (get_promotable_loop ks acc).
Proof.
  revert acc. induction ks as [|k ks IH]; intros acc; [apply keeps_content_ret |].
  cbn [get_promotable_loop]. apply keeps_content_bind; [apply keeps_content_get |].
  intros [cell|]; [| apply IH].
  destruct (PROMOTION_THRESHOLD <=? _); apply IH.
Qed.

Lemma keeps_content_get_promotable_memories (user_id : option string) :
  keeps_content (E:=E) (get_promotable_memories user_id).
Proof.
  intros w. unfold get_promotable_memories.
  destruct (redis_client w) eqn:Hr; [| apply content_kept_refl].
  apply keeps_content_try; [| intros; apply keeps_content_ret].
  apply keeps_content_bind; [apply keeps_content_keys |].
  intros ks. apply keeps_content_get_promotable_loop.
Qed.

Lemma keeps_content_search_memories (request : SearchRequest) :
  keeps_content (E:=E) (search_memories request).
Proof.
  unfold search_memories. apply keeps_content_bind.
  - intros w. unfold search_short_term. destruct (_ && _)%bool; [| apply content_kept_refl].
    apply keeps_content_bind; [apply keeps_content_get_short_term
                              | intros; apply keeps_content_ret].
  - intros short. apply keeps_content_bind; [| intros; apply keeps_content_ret].
    intros w. unfold search_long_term. destruct (bool_decide _); [| apply content_kept_refl].
    apply keeps_content_try; [| intros; apply keeps_content_ret].
    apply keeps_content_bind; [apply keeps_content_mem0_call
                              | intros; apply keeps_content_ret].
Qed.

Lemma keeps_content_get_user_memories (user_id : string) (lim : Z) (include : bool) :
  keeps_content (E:=E) (get_user_memories user_id lim include).
Proof.
  unfold get_user_memories. apply keeps_content_bind.
  - destruct include; [| apply keeps_content_ret].
    apply keeps_content_bind; [apply keeps_content_get_short_term
                              | intros; apply keeps_content_ret].
  - intros short. apply keeps_content_bind; [| intros; apply keeps_content_ret].
    intros w. destruct (bool_decide _); [| apply content_kept_refl].
    apply keeps_content_try; [| intros; apply keeps_content_ret].
    apply keeps_content_bind; [apply keeps_content_mem0_call
                              | intros; apply keeps_content_ret].
Qed.

Lemma keeps_content_promote_one (mem : Entry) (acc : list Promoted) :
  keeps_content (E:=E) (promote_one mem acc).
Proof.
  unfold promote_one. apply keeps_content_try; [| intros; apply keeps_content_ret].
  apply keeps_content_bind; [apply keeps_content_mem0_call |]. intros j.
  apply keeps_content_bind; [| intros; apply keeps_content_ret].
  intros w. destruct (redis_client w) eqn:Hr; [| apply content_kept_refl].
  destruct (stm_redis_key mem) as [k|]; [| apply content_kept_refl].
  destruct (Py.truthy k); [apply keeps_content_delete | apply content_kept_refl].
Qed.

Lemma keeps_content_promote_loop (batch : list Entry) (acc : list Promoted) :
  keeps_content (E:=E) (promote_loop batch acc).
Proof.
  revert acc. induction batch as [|mem batch IH]; intros acc; [apply keeps_content_ret |].
  cbn [promote_loop]. apply keeps_content_bind; [apply keeps_content_promote_one
                                                 | intros; apply IH].
Qed.

Lemma keeps_content_promote_memories (request : PromoteRequest) :
  keeps_content (E:=E) (promote_memories request).
Proof.
  intros w. unfold promote_memories. destruct (memory w); [| apply content_kept_refl].
  apply keeps_content_bind; [apply keeps_content_get_promotable_memories |].
  intros batch. apply keeps_content_bind; [apply keeps_content_promote_loop
                                          | intros; apply keeps_content_ret].
Qed.

(** X15: whatever fails, a read, a search, a listing, a promotion scan
    and a promotion create no key and change nothing of a stored entry
    but its [access_count]: its messages, owner, agent, session, metadata
    and [created_at] and its expiry stay as they are (the read writes
    back with [KEEPTTL]). *)
Theorem reads_keep_content :
  (forall pattern, keeps_content (E:=E) (get_short_term pattern)) /\
  (forall request, keeps_content (E:=E) (search_memories request)) /\
  (forall user_id lim include,
     keeps_content (E:=E) (get_user_memories user_id lim include)) /\
  (forall user_id, keeps_content (E:=E) (get_promotable_memories user_id)) /\
  (forall request, keeps_content (E:=E) (promote_memories request)).
Proof.
  split; [apply keeps_content_get_short_term |].
  split; [apply keeps_content_search_memories |].
  split; [apply keeps_content_get_user_memories |].
  split; [apply keeps_content_get_promotable_memories |].
  apply keeps_content_promote_memories.
Qed.

Lemma all_expire_kept d d' : content_kept d d' -> all_expire d -> all_expire d'.
Proof.
  intros Hk Hd k c' Hc'. destruct (Hk _ _ Hc') as (c & Hc & Ht & _).
  cbn beta. rewrite Ht. by apply (Hd k).
Qed.

End ContentFacts.

Section ExpiryExtras.
Context {E : Type} `{Mem0 E}.
Variable md5_hexdigest : string -> string.
Implicit Types (d : gmap string Cell) (w : World E).

(** X16: no endpoint leaves an entry without an expiry.  If every
    stored entry has one, then, whatever fails, every stored entry has one
    after an add (which writes with a TTL of 24 hours), a search, a
    listing and a promotion. *)
Theorem every_entry_expires w :
  all_expire (stm_db w) ->
  (forall now request,
     all_expire (stm_db (fst (add_memory md5_hexdigest now request w)))) /\
  (forall request, all_expire (stm_db (fst (search_memories request w)))) /\
  (forall user_id lim include,
     all_expire (stm_db (fst (get_user_memories user_id lim include w)))) /\
  (forall request, all_expire (stm_db (fst (promote_memories request w)))).
Proof.
  intros Hall. split; [| split; [| split]].
  - intros now request k c Hk.
    destruct (decide (k = stored_key md5_hexdigest now request)) as [->|Hne].
    + destruct (add_memory_run md5_hexdigest now request w)
        as (w' & b & o & Hrun & _ & _ & _ & Hr).
      rewrite Hrun in Hk. cbn [fst] in Hk. unfold stm_db in Hk at 1.
      rewrite Hr, store_short_term_spec in Hk.
      destruct (redis_client w) as [r|] eqn:Hrc; cbn in Hk.
      * destruct (hd false (faults r)); cbn in Hk.
        -- apply (Hall (stored_key md5_hexdigest now request)).
           unfold stm_db. by rewrite Hrc.
        -- unfold stored_key in Hk. rewrite lookup_insert_eq in Hk.
           injection Hk as <-. by eexists.
      * rewrite Hrc in Hk. done.
    + rewrite add_memory_other_keys in Hk by done. by apply (Hall k).
  - intros request. eapply all_expire_kept; [apply keeps_content_search_memories | done].
  - intros user_id lim include.
    eapply all_expire_kept; [apply keeps_content_get_user_memories | done].
  - intros request. eapply all_expire_kept; [apply keeps_content_promote_memories | done].
Qed.

End ExpiryExtras.

(** ** The life of an entry: add, search, scan, promote *)

Section LifecycleExtras.
Context {E : Type} `{Mem0 E}.
Variable md5_hexdigest : string -> string.
Implicit Types (d : gmap string Cell) (w : World E) (m : option E)
  (s : option Postgres) (cs : list MemCall).

(** A search on a Redis that answers leaves it answering. *)
Lemma search_memories_quiet (request : SearchRequest) w :
  redis_quiet w ->
  redis_quiet (fst (search_memories request w)).
Proof.
  intros (d & m & s & cs & ->)%redis_quiet_inv.
  unfold redis_quiet. rewrite search_memories_redis.
  destruct (include_short_term request) eqn:Hinc.
  - rewrite search_short_term_quiet by done. by eexists.
  - unfold search_short_term. rewrite Hinc. by eexists.
Qed.

(** A stored entry that the owner's pattern matches and that passes the
    keyword test is among the short-term matches of a search, and in the
    response when the limit cuts nothing. *)
Lemma search_returns_match (request : SearchRequest) w (k : string) (cell : Cell) :
  redis_quiet w -> include_short_term request = true ->
  stm_db w !! k = Some cell ->
  Glob.matches (search_pattern request) k = true ->
  keyword_match (query request) (bump (doc cell)) = true ->
  exists w1 w2 short long resp,
    search_short_term request w = (w1, inr short) /\
    search_long_term request w1 = (w2, inr long) /\
    search_memories request w = (w2, inr resp) /\
    short_term_response (bump (doc cell)) ∈ short /\
    (Z.of_nat (length short + length long) <= limit request ->
       short_term_response (bump (doc cell)) ∈ memories resp).
Proof.
  intros Hq Hinc Hk Hm Hkw.
  destruct (get_short_term_returns (Py.or_else (search_user_id request) "*") w k cell Hq Hk Hm)
    as (w1 & l & Hget & _ & _ & Hin & _).
  assert (search_short_term request w =
            (w1, inr (map short_term_response
                        (List.filter (keyword_match (query request)) l)))) as Hshort.
  { unfold search_short_term. rewrite Hinc.
    destruct Hq as (r & -> & _). rewrite bool_decide_eq_true_2 by eauto.
    cbn [andb]. by rewrite (bind_inr _ _ _ _ _ Hget). }
  destruct (search_memories_run request w)
    as (w1' & w2 & short & long & Hs & Hl & Hr & _).
  rewrite Hshort in Hs. injection Hs as <- <-.
  exists w1, w2. eexists _, long, _.
  split; [exact Hshort |]. split; [exact Hl |]. split; [exact Hr |].
  assert (short_term_response (bump (doc cell)) ∈
            map short_term_response (List.filter (keyword_match (query request)) l))
    as Hmem.
  { apply list_elem_of_fmap. eexists. split; [reflexivity |].
    apply list_elem_of_In, filter_In. split; [by apply list_elem_of_In | done]. }
  split; [exact Hmem |]. intros Hlim. cbn [memories].
  unfold Py.slice_to. destruct (Z.leb_spec 0 (limit request)) as [_|?]; [| lia].
  rewrite firstn_all2.
  - rewrite sort_desc_perm. apply elem_of_app. by left.
  - rewrite (Permutation_length (sort_desc_perm score_key _)), length_app. lia.
Qed.

(** The pattern a search makes for an owner matches the keys [add_memory]
    makes for that owner. *)
Lemma search_pattern_own_key (request : SearchRequest) (owner : option string)
    (timestamp hash : string) :
  Py.or_else (search_user_id request) "*" = "*" \/
  (exists u, search_user_id request = Some u /\ owner = Some u /\ Glob.literal u = true) ->
  Glob.matches (search_pattern request)
    (SHORT_TERM_PREFIX +:+ memory_key_of owner timestamp hash) = true.
Proof.
  unfold search_pattern. intros [-> | (u & Hs & -> & Hlit)]; [apply matches_all |].
  rewrite Hs. destruct u as [|c u]; [apply matches_all |].
  cbn [Py.or_else Py.truthy]. unfold memory_key_of. cbn [Py.or_else Py.truthy].
  rewrite <- (append_assoc SHORT_TERM_PREFIX).
  apply matches_literal_star.
  - rewrite literal_app. by rewrite Hlit.
  - eexists. by rewrite !append_assoc.
Qed.

(** X17: an entry that was added is found.  On a Redis that answers,
    a search made after an add returns the entry among its short-term
    matches when it includes the short-term tier, is made without an
    owner or for the owner of the entry (an id without glob characters)
    and its query passes the keyword test on the messages; the entry
    comes with the formatted messages, the score 0.8 and the source
    [short_term], and is in the response when the limit cuts nothing. *)
Theorem add_then_search_finds (now : Now) (added : AddMemoryRequest)
    (request : SearchRequest) w :
  redis_quiet w ->
  include_short_term request = true ->
  Py.or_else (search_user_id request) "*" = "*" \/
    (exists u, search_user_id request = Some u /\ add_user_id added = Some u /\
               Glob.literal u = true) ->
  keyword_match (query request) (stored_entry now added) = true ->
  exists w1 w2 short long resp,
    search_short_term request (fst (add_memory md5_hexdigest now added w))
      = (w1, inr short) /\
    search_long_term request w1 = (w2, inr long) /\
    search_memories request (fst (add_memory md5_hexdigest now added w))
      = (w2, inr resp) /\
    {| id := "stm:" +:+ Py.fmt (add_user_id added) +:+ ":" +:+ iso now;
       memory_text := format_messages_as_memory (add_messages added);
       user_id := add_user_id added;
       agent_id := add_agent_id added;
       score := Some (8 # 10)%Q;
       source := short_term_source;
       metadata := add_metadata added |} ∈ short /\
    (Z.of_nat (length short + length long) <= limit request ->
     {| id := "stm:" +:+ Py.fmt (add_user_id added) +:+ ":" +:+ iso now;
        memory_text := format_messages_as_memory (add_messages added);
        user_id := add_user_id added;
        agent_id := add_agent_id added;
        score := Some (8 # 10)%Q;
        source := short_term_source;
        metadata := add_metadata added |} ∈ memories resp).
Proof.
  intros Hq Hinc Howner Hkw.
  destruct (add_memory_quiet md5_hexdigest now added w Hq) as (m & s & cs & Hw).
  apply (search_returns_match request (fst (add_memory md5_hexdigest now added w))
           (stored_key md5_hexdigest now added)
           {| ttl := Some SHORT_TERM_TTL_HOURS; doc := stored_entry now added |}).
  - rewrite Hw. apply redis_quiet_qworld.
  - exact Hinc.
  - rewrite Hw. change (stm_db (qworld ?d' _ _ _)) with d'. by rewrite lookup_insert_eq.
  - by apply search_pattern_own_key.
  - exact Hkw.
Qed.

Lemma bump_cell_iter (n : nat) (t : option Z) (c : Z) (e : Entry) :
  Nat.iter n bump_cell {| ttl := t; doc := set_access_count c e |} =
    {| ttl := t; doc := set_access_count (c + Z.of_nat n) e |}.
Proof.
  induction n as [|n IH].
  - cbn. by rewrite Z.add_0_r.
  - rewrite Nat.iter_succ, IH. unfold bump_cell, bump, get_access_count, set_access_count.
    cbn. do 3 f_equal. lia.
Qed.

(** Searches that read a key raise its count by one each. *)
Lemma after_searches_count (searches : list SearchRequest) w (k : string) (cell : Cell) :
  redis_quiet w ->
  Forall (fun request => include_short_term request = true /\
                         Glob.matches (search_pattern request) k = true) searches ->
  stm_db w !! k = Some cell ->
  redis_quiet (after_searches searches w) /\
  stm_db (after_searches searches w) !! k =
    Some (Nat.iter (length searches) bump_cell cell).
Proof.
  intros Hq Hall. revert w cell Hq.
  induction Hall as [|request searches [Hinc Hm] _ IH]; intros w cell Hq Hk; [done |].
  unfold after_searches. cbn [foldl length].
  destruct (IH (fst (search_memories request w)) (bump_cell cell)) as [Hq' Hk'].
  - by apply search_memories_quiet.
  - rewrite (search_memories_lookup request w k cell Hq Hinc Hk). by rewrite Hm.
  - split; [exact Hq' |]. unfold after_searches in Hk'. rewrite Hk'.
    f_equal. by rewrite Nat.iter_succ_r.
Qed.

Lemma promotable_pattern_own_key (u timestamp hash : string) :
  Py.truthy u = true -> Glob.literal u = true ->
  Glob.matches (promotable_pattern (Some u))
    (SHORT_TERM_PREFIX +:+ memory_key_of (Some u) timestamp hash) = true.
Proof.
  intros Ht Hlit. unfold promotable_pattern, memory_key_of. cbn [Py.or_else]. rewrite Ht.
  change ":*"%string with (":" +:+ "*").
  rewrite <- (append_assoc u ":" "*"), <- (append_assoc SHORT_TERM_PREFIX).
  apply matches_literal_star.
  - rewrite !literal_app. by rewrite Hlit.
  - eexists. by rewrite !append_assoc.
Qed.

(** X18: an added entry becomes promotable with its third search.  On
    a Redis that answers, after an add for an owner (a non-empty id
    without glob characters) and then [n] searches of that owner that
    include the short-term tier, whatever their queries and limits,
    the entry has the [access_count] [n] and its expiry of 24 hours, and
    the promotion scan of the owner selects it exactly when [n] is at
    least 3. *)
Theorem promotable_after_three_searches (now : Now) (added : AddMemoryRequest)
    (searches : list SearchRequest) (u : string) w :
  redis_quiet w ->
  add_user_id added = Some u -> Py.truthy u = true -> Glob.literal u = true ->
  Forall (fun request => search_user_id request = Some u /\
                         include_short_term request = true) searches ->
  stm_db (after_searches searches (fst (add_memory md5_hexdigest now added w)))
    !! stored_key md5_hexdigest now added =
    Some {| ttl := Some SHORT_TERM_TTL_HOURS;
            doc := set_access_count (Z.of_nat (length searches))
                     (stored_entry now added) |} /\
  exists batch,
    get_promotable_memories (Some u)
      (after_searches searches (fst (add_memory md5_hexdigest now added w)))
      = (after_searches searches (fst (add_memory md5_hexdigest now added w)),
         inr batch) /\
    (set_redis_key (stored_key md5_hexdigest now added)
       (set_access_count (Z.of_nat (length searches)) (stored_entry now added)) ∈ batch
     <-> (3 <= length searches)%nat).
Proof.
  intros Hq Hu Ht Hlit Hall.
  destruct (add_memory_quiet md5_hexdigest now added w Hq) as (m & s & cs & Hw).
  destruct (after_searches_count searches (fst (add_memory md5_hexdigest now added w))
              (stored_key md5_hexdigest now added)
              {| ttl := Some SHORT_TERM_TTL_HOURS; doc := stored_entry now added |})
    as [Hq2 Hk2].
  { rewrite Hw. apply redis_quiet_qworld. }
  { eapply Forall_impl; [exact Hall |]. intros request [Hs Hinc]. split; [done |].
    apply search_pattern_own_key. right. exists u. by rewrite Hu. }
  { rewrite Hw. change (stm_db (qworld ?d' _ _ _)) with d'. by rewrite lookup_insert_eq. }
  change (stored_entry now added) with (set_access_count 0 (stored_entry now added)) in Hk2 at 1.
  rewrite bump_cell_iter, Z.add_0_l in Hk2.
  split; [exact Hk2 |].
  apply redis_quiet_inv in Hq2 as (d2 & m2 & s2 & cs2 & Hw2). rewrite Hw2 in *.
  change (stm_db (qworld ?d' _ _ _)) with d' in Hk2.
  rewrite get_promotable_memories_quiet. eexists. split; [reflexivity |].
  rewrite elem_of_promotable_of. split.
  - intros (k & cell & Hk & _ & Hthr & Heq).
    assert (k = stored_key md5_hexdigest now added) as ->.
    { apply (f_equal stm_redis_key) in Heq. cbn in Heq. congruence. }
    rewrite Hk2 in Hk. injection Hk as <-. revert Hthr.
    unfold PROMOTION_THRESHOLD, get_access_count. cbn. lia.
  - intros Hn. eexists _, _. split; [exact Hk2 |]. split; [| split; [| reflexivity]].
    + unfold stored_key. rewrite Hu. by apply promotable_pattern_own_key.
    + unfold PROMOTION_THRESHOLD, get_access_count. cbn. lia.
Qed.

(** X19: whatever fails, a promotion leaves alone every entry that is
    not eligible: an entry read fewer than 3 times, and an entry whose
    key the owner's pattern does not match, is after the promotion what
    it was before. *)
Theorem promote_spares_ineligible (request : PromoteRequest) w (k : string) (cell : Cell) :
  stm_db w !! k = Some cell ->
  get_access_count (doc cell) < PROMOTION_THRESHOLD \/
    Glob.matches (promotable_pattern (promote_user_id request)) k = false ->
  stm_db (fst (promote_memories request w)) !! k = Some cell.
Proof.
  intros Hk Hnot. destruct (memory w) as [e|] eqn:Hm.
  2: { unfold promote_memories. by rewrite Hm. }
  destruct (promote_memories_any request w e k Hm) as (batch & Hbatch & [-> | [_ Hdel]]);
    [done |].
  exfalso. destruct Hdel as (mem & o & Hzip & Hkey & _).
  apply elem_of_zip_l in Hzip.
  destruct (get_promotable_memories_any (promote_user_id request) w)
    as (w' & selected & Hsel & _ & _ & _ & Hcases).
  rewrite Hsel in Hbatch. injection Hbatch as ->.
  destruct Hcases as [-> | ->]; [| by apply elem_of_nil in Hzip].
  apply elem_of_promotable_of in Hzip as (k' & cell' & Hk' & Hmatch & Hthr & ->).
  cbn in Hkey. injection Hkey as ->. rewrite Hk in Hk'. injection Hk' as <-.
  destruct Hnot as [Hlt | Hno]; [lia | congruence].
Qed.

Lemma elem_of_zip_with_l {A B} (l : list A) (k : list B) (x : A) :
  x ∈ l -> length l = length k -> exists y, (x, y) ∈ zip l k.
Proof.
  revert k. induction l as [|a l IH]; intros [|b k] Hin Hlen;
    try (by apply elem_of_nil in Hin); try done.
  apply elem_of_cons in Hin as [-> | Hin].
  - exists b. apply list_elem_of_here.
  - destruct (IH k Hin) as [y Hy]; [by injection Hlen |].
    exists y. by apply list_elem_of_further.
Qed.

(** X20: a promotion whose durable writes all returned leaves nothing
    to promote.  On a Redis that answers, running the same promotion
    again finds no eligible entry: it promotes nothing, calls the engine
    no more and changes nothing, so that no entry is written to the
    long-term tier twice. *)
Theorem promote_again_promotes_nothing (request : PromoteRequest) w e :
  redis_quiet w -> memory w = Some e ->
  Forall (fun o => succeeded o = true)
    (add_outcomes (promotable_of (promote_user_id request) (stm_db w)) e) ->
  promote_memories request (fst (promote_memories request w)) =
    (fst (promote_memories request w),
     inr {| promoted_count := 0; promoted := [] |}).
Proof.
  intros (d & m & s & cs & ->)%redis_quiet_inv Hm Hall.
  cbn in Hm. subst m. change (stm_db (qworld d (Some e) s cs)) with d in Hall.
  rewrite promote_memories_quiet. cbn [fst].
  set (batch := promotable_of (promote_user_id request) d) in *.
  set (d2 := delete_all (deleted_keys batch (add_outcomes batch e)) d).
  assert (promotable_of (promote_user_id request) d2 = []) as Hnone.
  { apply elem_of_nil_inv. intros mem Hin.
    apply elem_of_promotable_of in Hin as (k & cell & Hk & Hmatch & Hthr & ->).
    subst d2. rewrite delete_all_lookup in Hk.
    destruct (decide (k ∈ deleted_keys batch (add_outcomes batch e))) as [|Hnotin];
      [done |].
    apply Hnotin, elem_of_deleted_keys.
    assert (set_redis_key k (doc cell) ∈ batch) as Hb.
    { apply elem_of_promotable_of. by exists k, cell. }
    destruct (elem_of_zip_with_l batch (add_outcomes batch e) _ Hb) as [o Ho].
    { by rewrite length_add_outcomes. }
    exists (set_redis_key k (doc cell)), o. split; [exact Ho |]. split.
    - rewrite Forall_forall in Hall. apply Hall. by apply elem_of_zip_r in Ho.
    - unfold key_to_delete. cbn.
      rewrite (promotable_pattern_truthy _ _ Hmatch). apply list_elem_of_here. }
  rewrite promote_memories_quiet. rewrite Hnone. cbn. by rewrite app_nil_r.
Qed.

End LifecycleExtras.

(** ** The listing of an owner *)

Section ListingExtras.
Context {E : Type} `{Mem0 E}.
Implicit Types (d : gmap string Cell) (w : World E) (m : option E)
  (s : option Postgres) (cs : list MemCall).


(** The long-term part of the listing. *)
Lemma listing_long_term (user_id : string) (lim : Z) w :
  exists w' long,
    (if bool_decide (is_Some (memory w))
     then try_except
            (bind (mem0_call (CallGetAll (Some user_id) lim)
                     (mem_get_all (Some user_id) lim))
               (fun long_term => ret (map LtmItem long_term)))
            (fun _ => ret []) w
     else ret [] w) = (w', inr long) /\
    redis_client w' = redis_client w /\
    Forall (fun item => exists h, item = LtmItem h) long.
Proof.
  destruct (bool_decide _); [| by eexists _, _].
  unfold try_except, bind, mem0_call. destruct (memory w) as [e|]; [| by eexists _, _].
  destruct (mem_get_all _ _ e) as [e' [x|lt]]; eexists _, _;
    (split; [reflexivity |]); (split; [done |]); [constructor |].
  apply Forall_fmap, Forall_forall. intros h _. by exists h.
Qed.


(** X22: a listing without the short-term tier sends no command to
    Redis: the store and every [access_count] stay as they are, and the
    items are those of the long-term tier. *)
Theorem listing_long_term_only (user_id : string) (lim : Z) w :
  redis_client (fst (get_user_memories user_id lim false w)) = redis_client w /\
  exists resp,
    snd (get_user_memories user_id lim false w) = inr resp /\
    Forall (fun item => exists h, item = LtmItem h) (um_memories resp).
Proof.
  unfold get_user_memories.
  erewrite bind_inr; [| reflexivity].
  destruct (listing_long_term user_id lim w) as (w' & long & Hlong & Hr & Hall).
  erewrite bind_inr; [| exact Hlong]. unfold ret. cbn [fst snd].
  split; [exact Hr |]. eexists. split; [reflexivity | exact Hall].
Qed.

End ListingExtras.

(** ** The audit log *)

Section AuditExtras.
Context {E : Type} `{Mem0 E} `{Mem0Admin E}.
Implicit Types (w : World E).

Lemma keeps_audit_same_db {A} (mm : @M E A) :
  (forall w, DbSession (fst (mm w)) = DbSession w) -> keeps_audit mm.
Proof. intros Hdb w. unfold audit_log. by rewrite Hdb. Qed.

Lemma keeps_audit_redis_only {A} (mm : @M E A) : redis_only mm -> keeps_audit mm.
Proof. intros Hr. apply keeps_audit_same_db. intros w. apply Hr. Qed.

Lemma keeps_audit_ret {A} (a : A) : keeps_audit (E:=E) (ret a).
Proof. by intros w. Qed.

Lemma keeps_audit_bind {A B} (mm : @M E A) (k : A -> @M E B) :
  keeps_audit mm -> (forall a, keeps_audit (k a)) -> keeps_audit (bind mm k).
Proof.
  intros Hm Hk w. unfold bind. specialize (Hm w).
  destruct (mm w) as [w' [x|a]]; [done |]. cbn [fst] in Hm. by rewrite Hk.
Qed.

Lemma keeps_audit_try {A} (mm : @M E A) (h : Exn -> @M E A) :
  keeps_audit mm -> (forall x, keeps_audit (h x)) -> keeps_audit (try_except mm h).
Proof.
  intros Hm Hh w. unfold try_except. specialize (Hm w).
  destruct (mm w) as [w' [x|a]]; [| done]. cbn [fst] in Hm. by rewrite Hh.
Qed.

Lemma keeps_audit_redis {A} (cmd : Redis -> Redis * (Exn + A)) :
  keeps_audit (E:=E) (redis cmd).
Proof. apply keeps_audit_redis_only, redis_only_redis. Qed.

Lemma keeps_audit_mem0_call {A} (call : MemCall) (f : E -> E * (Exn + A)) :
  keeps_audit (mem0_call call f).
Proof.
  apply keeps_audit_same_db. intros w. unfold mem0_call.
  destruct (memory w) as [e|]; [| done]. by destruct (f e).
Qed.

Lemma keeps_audit_search_memories (request : SearchRequest) :
  keeps_audit (E:=E) (search_memories request).
Proof.
  unfold search_memories. apply keeps_audit_bind.
  - apply keeps_audit_redis_only, redis_only_search_short_term.
  - intros short. apply keeps_audit_bind; [| intros; apply keeps_audit_ret].
    intros w. unfold search_long_term. destruct (bool_decide _); [| done].
    apply keeps_audit_try; [| intros; apply keeps_audit_ret].
    apply keeps_audit_bind; [apply keeps_audit_mem0_call | intros; apply keeps_audit_ret].
Qed.

Lemma keeps_audit_get_user_memories (user_id : string) (lim : Z) (include : bool) :
  keeps_audit (E:=E) (get_user_memories user_id lim include).
Proof.
  unfold get_user_memories. apply keeps_audit_bind.
  - destruct include; [| apply keeps_audit_ret].
    apply keeps_audit_bind; [| intros; apply keeps_audit_ret].
    apply keeps_audit_redis_only, redis_only_get_short_term.
  - intros short. apply keeps_audit_bind; [| intros; apply keeps_audit_ret].
    intros w. destruct (bool_decide _); [| done].
    apply keeps_audit_try; [| intros; apply keeps_audit_ret].
    apply keeps_audit_bind; [apply keeps_audit_mem0_call | intros; apply keeps_audit_ret].
Qed.

Lemma keeps_audit_get_promotable_loop (ks : list string) (acc : list Entry) :
  keeps_audit (E:=E) (get_promotable_loop ks acc).
Proof.
  revert acc. induction ks as [|k ks IH]; intros acc; [apply keeps_audit_ret |].
  cbn [get_promotable_loop]. apply keeps_audit_bind; [apply keeps_audit_redis |].
  intros [cell|]; [| apply IH].
  destruct (PROMOTION_THRESHOLD <=? _); apply IH.
Qed.

Lemma keeps_audit_get_promotable_memories (user_id : option string) :
  keeps_audit (E:=E) (get_promotable_memories user_id).
Proof.
  intros w. unfold get_promotable_memories. destruct (redis_client w); [| done].
  apply keeps_audit_try; [| intros; apply keeps_audit_ret].
  apply keeps_audit_bind; [apply keeps_audit_redis |].
  intros ks. apply keeps_audit_get_promotable_loop.
Qed.

Lemma keeps_audit_promote_one (mem : Entry) (acc : list Promoted) :
  keeps_audit (E:=E) (promote_one mem acc).
Proof.
  unfold promote_one. apply keeps_audit_try; [| intros; apply keeps_audit_ret].
  apply keeps_audit_bind; [apply keeps_audit_mem0_call |]. intros j.
  apply keeps_audit_bind; [| intros; apply keeps_audit_ret].
  intros w. destruct (redis_client w); [| done].
  destruct (stm_redis_key mem) as [k|]; [| done].
  destruct (Py.truthy k); [apply keeps_audit_redis | done].
Qed.

Lemma keeps_audit_promote_loop (batch : list Entry) (acc : list Promoted) :
  keeps_audit (E:=E) (promote_loop batch acc).
Proof.
  revert acc. induction batch as [|mem batch IH]; intros acc; [apply keeps_audit_ret |].
  cbn [promote_loop]. apply keeps_audit_bind; [apply keeps_audit_promote_one
                                               | intros; apply IH].
Qed.

Lemma keeps_audit_promote_memories (request : PromoteRequest) :
  keeps_audit (E:=E) (promote_memories request).
Proof.
  intros w. unfold promote_memories. destruct (memory w); [| done].
  apply keeps_audit_bind; [apply keeps_audit_get_promotable_memories |].
  intros batch. apply keeps_audit_bind; [apply keeps_audit_promote_loop
                                        | intros; apply keeps_audit_ret].
Qed.

Lemma keeps_audit_count_history : keeps_audit (E:=E) count_history.
Proof.
  intros w. unfold count_history, audit_log.
  destruct (DbSession w) as [pg|] eqn:Hdb; [| cbn [fst]; by rewrite Hdb].
  by destruct (hd false (pg_faults pg)).
Qed.

Lemma keeps_audit_get_stats : keeps_audit (E:=E) get_stats.
Proof.
  intros w. unfold get_stats. apply keeps_audit_bind.
  - intros w0. destruct (bool_decide _); [| done].
    apply keeps_audit_try; [apply keeps_audit_count_history | intros; apply keeps_audit_ret].
  - intros n. apply keeps_audit_bind; [| intros; apply keeps_audit_ret].
    intros w0. destruct (bool_decide _); [| done].
    apply keeps_audit_try; [| intros; apply keeps_audit_ret].
    apply keeps_audit_bind; [apply keeps_audit_redis | intros; apply keeps_audit_ret].
Qed.

Lemma keeps_audit_delete_memory (memory_id : string) :
  keeps_audit (E:=E) (delete_memory memory_id).
Proof.
  apply keeps_audit_same_db. intros w. unfold delete_memory.
  destruct (memory w) as [e|]; [| done]. by destruct (mem_delete memory_id e) as [e' [x|[]]].
Qed.

Lemma keeps_audit_get_agent_memories (agent_id : string) (lim : Z) :
  keeps_audit (E:=E) (get_agent_memories agent_id lim).
Proof.
  apply keeps_audit_same_db. intros w. unfold get_agent_memories.
  destruct (memory w) as [e|]; [| done].
  by destruct (mem_get_all_agent agent_id lim e) as [e' [x|l]].
Qed.

(** X23: the audit log is written by [add_memory] alone.  Whatever
    fails, a search, a listing, a promotion, a delete, an agent listing
    and the statistics leave its rows as they are: no search, promotion
    or delete is recorded. *)
Theorem audit_written_by_add_alone :
  (forall request, keeps_audit (E:=E) (search_memories request)) /\
  (forall user_id lim include,
     keeps_audit (E:=E) (get_user_memories user_id lim include)) /\
  (forall request, keeps_audit (E:=E) (promote_memories request)) /\
  (forall memory_id, keeps_audit (E:=E) (delete_memory memory_id)) /\
  (forall agent_id lim, keeps_audit (E:=E) (get_agent_memories agent_id lim)) /\
  keeps_audit (E:=E) get_stats.
Proof.
  split; [apply keeps_audit_search_memories |].
  split; [apply keeps_audit_get_user_memories |].
  split; [apply keeps_audit_promote_memories |].
  split; [apply keeps_audit_delete_memory |].
  split; [apply keeps_audit_get_agent_memories |].
  apply keeps_audit_get_stats.
Qed.

(** X24: [delete_memory] and [get_agent_memories] work on the
    long-term tier alone.  Whatever the engine does they leave Redis as
    it is, so that a delete never removes a short-term entry and the
    listing of an agent reads none; without an engine they fail with
    status 503, an exception of the engine becomes a failure with
    status 500 and its message, and otherwise the delete answers with
    the id it was given and the listing with the engine's results. *)
Theorem engine_only_endpoints (memory_id agent_id : string) (lim : Z) w :
  redis_client (fst (delete_memory memory_id w)) = redis_client w /\
  redis_client (fst (get_agent_memories agent_id lim w)) = redis_client w /\
  (memory w = None ->
     delete_memory memory_id w =
       (w, inl (HTTPException 503 "Memory system not initialized")) /\
     get_agent_memories agent_id lim w =
       (w, inl (HTTPException 503 "Memory system not initialized"))) /\
  (forall e, memory w = Some e ->
     snd (delete_memory memory_id w) =
       match snd (mem_delete memory_id e) with
       | inr _ => inr {| delete_success := true; deleted := memory_id |}
       | inl msg => inl (HTTPException 500 msg)
       end /\
     snd (get_agent_memories agent_id lim w) =
       match snd (mem_get_all_agent agent_id lim e) with
       | inr results => inr {| am_memories := results; am_agent_id := agent_id |}
       | inl msg => inl (HTTPException 500 msg)
       end).
Proof.
  unfold delete_memory, get_agent_memories.
  destruct (memory w) as [e|].
  - destruct (mem_delete memory_id e) as [e1 [x1|[]]] eqn:Hd;
      destruct (mem_get_all_agent agent_id lim e) as [e2 [x2|l2]] eqn:Hg; cbn;
      (split; [done |]); (split; [done |]); (split; [done |]);
      intros ? [= <-]; by rewrite Hd, Hg.
  - by repeat split.
Qed.

End AuditExtras.

(** ** The statistics *)

Section StatsExtras.
Context {E : Type} `{Mem0 E}.
Variable md5_hexdigest : string -> string.
Implicit Types (d : gmap string Cell) (w : World E) (m : option E)
  (s : option Postgres) (cs : list MemCall).

Lemma matches_stm_prefix (k : string) :
  Glob.matches (SHORT_TERM_PREFIX +:+ "*") k = String.prefix SHORT_TERM_PREFIX k.
Proof.
  apply eq_true_iff_eq. rewrite matches_literal_star by done. split.
  - intros [rest ->]. apply prefix_app.
  - apply prefix_inv.
Qed.

Lemma length_filter_fst {A B} (P : A -> Prop) `{forall x, Decision (P x)}
    (l : list (A * B)) :
  length (filter P (map fst l)) = length (filter (fun kv => P (fst kv)) l).
Proof.
  induction l as [|[a b] l IH]; [done |]. cbn [map].
  rewrite !filter_cons. cbn [fst]. destruct (decide (P a)); cbn [length]; by rewrite IH.
Qed.

Lemma size_filter_map_to_list (P : string * Cell -> Prop) `{forall x, Decision (P x)} d :
  size (filter P d) = length (filter P (map_to_list d)).
Proof.
  rewrite <- length_map_to_list, map_filter_alt.
  apply Permutation_length, map_to_list_to_map.
  apply (sublist_NoDup _ ((map_to_list d).*1)); [apply NoDup_fst_map_to_list |].
  apply fmap_sublist, sublist_filter.
Qed.

(** The keys [KEYS stm:*] returns are the stored keys that begin with
    [stm:]. *)
Lemma length_keys_of_stm d :
  length (keys_of (SHORT_TERM_PREFIX +:+ "*") d) =
    size (filter (fun kv : string * Cell => String.prefix SHORT_TERM_PREFIX kv.1 = true) d).
Proof.
  rewrite size_filter_map_to_list. unfold keys_of. rewrite length_filter_fst.
  f_equal. apply list_filter_iff. intros [k c]. cbn [fst]. by rewrite matches_stm_prefix.
Qed.

(** The two counting steps of [get_stats]. *)
Lemma stats_history_step w :
  exists w1 n,
    (if bool_decide (is_Some (DbSession w))
     then try_except count_history (fun _ => ret 0%nat) w
     else ret 0%nat w) = (w1, inr n) /\
    redis_client w1 = redis_client w /\ memory w1 = memory w /\
    mem_calls w1 = mem_calls w /\ audit_log w1 = audit_log w /\
    (db_quiet w -> n = length (audit_log w)).
Proof.
  unfold try_except, count_history, ret, audit_log, db_quiet.
  destruct (DbSession w) as [pg|] eqn:Hdb.
  - rewrite bool_decide_eq_true_2 by eauto.
    destruct (hd false (pg_faults pg)) eqn:Hf; eexists _, _;
      (split; [reflexivity |]); cbn; repeat split; try done.
    + intros (pg0 & [= <-] & Hq). by rewrite Hq in Hf.
  - rewrite bool_decide_eq_false_2 by (by intros [? ?]).
    eexists _, _. split; [reflexivity |]. rewrite Hdb. repeat split; try done;
      by intros (? & ? & _).
Qed.

Lemma stats_redis_step w :
  exists w1 n,
    (if bool_decide (is_Some (redis_client w))
     then try_except
            (bind (redis (RedisCmd.keys (SHORT_TERM_PREFIX +:+ "*")))
               (fun keys => ret (length keys)))
            (fun _ => ret 0%nat) w
     else ret 0%nat w) = (w1, inr n) /\
    stm_db w1 = stm_db w /\ memory w1 = memory w /\
    mem_calls w1 = mem_calls w /\ DbSession w1 = DbSession w /\
    (redis_quiet w -> n = length (keys_of (SHORT_TERM_PREFIX +:+ "*") (stm_db w))) /\
    (forall r, redis_client w = Some r -> hd false (faults r) = true -> n = 0%nat).
Proof.
  unfold try_except, bind, redis, RedisCmd.keys, RedisCmd.run, ret, redis_quiet, stm_db.
  destruct (redis_client w) as [r|] eqn:Hr.
  - rewrite bool_decide_eq_true_2 by eauto.
    destruct (hd false (faults r)) eqn:Hf; eexists _, _;
      (split; [reflexivity |]); cbn; repeat split; try done.
    + intros (r0 & [= <-] & Hq). by rewrite Hq in Hf.
    + intros r0 [= <-]. congruence.
  - rewrite bool_decide_eq_false_2 by (by intros [? ?]).
    eexists _, _. split; [reflexivity |]. rewrite Hr. repeat split; try done;
      by intros (? & ? & _).
Qed.

(** A run of [get_stats]: its two counts. *)
Lemma get_stats_run w :
  exists w1 n1 w2 n2,
    (if bool_decide (is_Some (DbSession w))
     then try_except count_history (fun _ => ret 0%nat) w
     else ret 0%nat w) = (w1, inr n1) /\
    (if bool_decide (is_Some (redis_client w1))
     then try_except
            (bind (redis (RedisCmd.keys (SHORT_TERM_PREFIX +:+ "*")))
               (fun keys => ret (length keys)))
            (fun _ => ret 0%nat) w1
     else ret 0%nat w1) = (w2, inr n2) /\
    get_stats w =
      (w2, inr {| database_available := bool_decide (is_Some (DbSession w));
                  history_count := n1;
                  short_term_available := bool_decide (is_Some (redis_client w));
                  short_term_count := n2;
                  long_term_available := bool_decide (is_Some (memory w)) |}).
Proof.
  destruct (stats_history_step w) as (w1 & n1 & H1 & _).
  destruct (stats_redis_step w1) as (w2 & n2 & H2 & _).
  exists w1, n1, w2, n2. split; [exact H1 |]. split; [exact H2 |].
  unfold get_stats. by rewrite (bind_inr _ _ _ _ _ H1), (bind_inr _ _ _ _ _ H2).
Qed.

(** X25: the statistics never fail and change no entry, no audit row
    and nothing of the engine.  With a Redis that answers, the
    short-term count is the number of stored keys that begin with
    [stm:]; with a database that answers, the history count is the
    number of audit rows.  A count whose query fails is reported as 0,
    with [available] still true. *)
Theorem get_stats_counts w :
  exists w' stats,
    get_stats w = (w', inr stats) /\
    stm_db w' = stm_db w /\ audit_log w' = audit_log w /\
    memory w' = memory w /\ mem_calls w' = mem_calls w /\
    (redis_quiet w ->
       short_term_count stats =
         size (filter (fun kv : string * Cell =>
                         String.prefix SHORT_TERM_PREFIX kv.1 = true) (stm_db w))) /\
    (db_quiet w -> history_count stats = length (audit_log w)) /\
    (forall r, redis_client w = Some r -> hd false (faults r) = true ->
       short_term_available stats = true /\ short_term_count stats = 0%nat).
Proof.
  destruct (get_stats_run w) as (w1 & n1 & w2 & n2 & H1 & H2 & Hrun).
  destruct (stats_history_step w) as (w1' & n1' & H1' & Hr1 & Hm1 & Hc1 & Ha1 & Hn1).
  rewrite H1 in H1'. injection H1' as <- <-.
  destruct (stats_redis_step w1) as (w2' & n2' & H2' & Hd2 & Hm2 & Hc2 & Hdb2 & Hn2 & Hz2).
  rewrite H2 in H2'. injection H2' as <- <-.
  eexists _, _. split; [exact Hrun |].
  cbn [short_term_available short_term_count history_count].
  split; [unfold stm_db in *; by rewrite Hd2, Hr1 |].
  split; [unfold audit_log in *; by rewrite Hdb2 |].
  split; [congruence |]. split; [congruence |].
  split; [| split; [done |]].
  - intros Hq. rewrite Hn2.
    + rewrite length_keys_of_stm. unfold stm_db. by rewrite Hr1.
    + unfold redis_quiet. by rewrite Hr1.
  - intros r Hr Hf. split; [rewrite Hr; by apply bool_decide_eq_true_2 |].
    apply (Hz2 r); [by rewrite Hr1 | done].
Qed.

Lemma get_stats_quiet d m s cs :
  exists stats,
    snd (get_stats (qworld d m s cs)) = inr stats /\
    short_term_count stats = length (keys_of (SHORT_TERM_PREFIX +:+ "*") d).
Proof.
  destruct (get_stats_run (qworld d m s cs)) as (w1 & n1 & w2 & n2 & H1 & H2 & ->).
  destruct (stats_history_step (qworld d m s cs)) as (w1' & n1' & H1' & Hr1 & _).
  rewrite H1 in H1'. injection H1' as <- <-.
  destruct (stats_redis_step w1) as (w2' & n2' & H2' & _ & _ & _ & _ & Hn2 & _).
  rewrite H2 in H2'. injection H2' as <- <-.
  eexists. split; [reflexivity |]. cbn [short_term_count].
  rewrite Hn2 by (unfold redis_quiet; rewrite Hr1; by eexists).
  unfold stm_db. by rewrite Hr1.
Qed.

(** X26: the short-term count of the statistics goes up by one with
    an add that writes a new key and stays as it is with an add that
    writes over a key (Redis answering). *)
Theorem stats_count_after_add (now : Now) (request : AddMemoryRequest) w :
  redis_quiet w ->
  exists before after,
    snd (get_stats w) = inr before /\
    snd (get_stats (fst (add_memory md5_hexdigest now request w))) = inr after /\
    short_term_count after =
      (short_term_count before +
       (if decide (is_Some (stm_db w !! stored_key md5_hexdigest now request))
        then 0 else 1))%nat.
Proof.
  intros Hq.
  destruct (add_memory_quiet md5_hexdigest now request w Hq) as (m' & s' & cs' & ->).
  apply redis_quiet_inv in Hq as (d & m & s & cs & ->).
  change (stm_db (qworld d m s cs)) with d.
  destruct (get_stats_quiet d m s cs) as (before & -> & Hbefore).
  match goal with |- context [get_stats (qworld ?d' _ _ _)] =>
    destruct (get_stats_quiet d' m' s' cs') as (after & -> & Hafter) end.
  exists before, after. split; [reflexivity |]. split; [reflexivity |].
  rewrite Hbefore, Hafter.
  set (k := stored_key md5_hexdigest now request).
  set (c := {| ttl := Some SHORT_TERM_TTL_HOURS; doc := stored_entry now request |}).
  assert (Glob.matches (SHORT_TERM_PREFIX +:+ "*") k = true) as Hm.
  { rewrite matches_stm_prefix. apply prefix_app. }
  assert (forall d0, d0 !! k = None ->
            length (keys_of (SHORT_TERM_PREFIX +:+ "*") (<[k := c]> d0)) =
            S (length (keys_of (SHORT_TERM_PREFIX +:+ "*") d0))) as Hfresh.
  { intros d0 Hd0. unfold keys_of.
    rewrite (Permutation_length
               (filter_Permutation _ _ _
                  (fmap_Permutation fst _ _ (map_to_list_insert d0 k c Hd0)))).
    cbn [fmap list_fmap fst]. rewrite filter_cons. by rewrite decide_True. }
  destruct (decide (is_Some (d !! k))) as [[c0 Hc0] | Hnone].
  - rewrite Nat.add_0_r, <- (insert_delete_eq d k c).
    rewrite (Hfresh (delete k d)) by apply lookup_delete_eq.
    rewrite <- (insert_id d k c0 Hc0) at 2. rewrite <- (insert_delete_eq d k c0).
    unfold keys_of.
    rewrite (Permutation_length
               (filter_Permutation _ _ _
                  (fmap_Permutation fst _ _
                     (map_to_list_insert (delete k d) k c0 (lookup_delete_eq d k))))).
    cbn [fmap list_fmap fst]. rewrite filter_cons. by rewrite decide_True.
  - rewrite (Hfresh d); [lia |]. by apply eq_None_not_Some.
Qed.

End StatsExtras.

(** ** Profiles *)

Section ProfileExtras.
Implicit Types (pdb : ProfileDb).

(** X27: a profile that was put can be got.  With a database that
    answers, an update succeeds and a get of the same user then returns a
    profile in which a field given in the request has the request's
    value, a field left out keeps the value it had (an update cannot
    clear a field), [last_seen] is the time of the update and
    [created_at] is kept, or set when the row is new. *)
Theorem update_then_get_user_profile (now created_default user_id : string)
    (request : UserProfileRequest) pdb :
  profile_faults pdb = [] ->
  exists pdb',
    update_user_profile now created_default user_id request (Some pdb) =
      (Some pdb', inr {| update_success := true; updated_user_id := user_id |}) /\
    profile_faults pdb' = [] /\
    get_user_profile user_id (Some pdb') =
      (Some pdb',
       inr (Profile user_id
              {| display_name :=
                   match req_display_name request with
                   | Some v => Some v
                   | None => user_profiles pdb !! user_id ≫= display_name
                   end;
                 preferences :=
                   match req_preferences request with
                   | Some v => Some v
                   | None => user_profiles pdb !! user_id ≫= preferences
                   end;
                 last_seen := Some now;
                 created_at :=
                   match user_profiles pdb !! user_id with
                   | Some old => created_at old
                   | None => Some created_default
                   end |})).
Proof.
  intros Hf. unfold update_user_profile, get_user_profile, next_statement.
  rewrite Hf. cbn. eexists. split; [reflexivity |]. split; [reflexivity |].
  cbn. rewrite lookup_insert_eq.
  by destruct (user_profiles pdb !! user_id), (req_display_name request),
    (req_preferences request).
Qed.

(** X28: whatever fails, an update of one user's profile changes the
    row of no other user and no agent profile, and an update that fails
    (no database, or a statement that raises) changes no row at all. *)
Theorem update_user_profile_frame (now created_default user_id : string)
    (request : UserProfileRequest) (session : option ProfileDb) :
  let after := fst (update_user_profile now created_default user_id request session) in
  (forall other, other <> user_id ->
     (after ≫= fun pdb' => user_profiles pdb' !! other) =
     (session ≫= fun pdb => user_profiles pdb !! other)) /\
  agent_profiles <$> after = agent_profiles <$> session /\
  (forall x, snd (update_user_profile now created_default user_id request session) = inl x ->
     user_profiles <$> after = user_profiles <$> session) /\
  (session = None ->
     snd (update_user_profile now created_default user_id request session) =
       inl (HTTPException 503 "Database not available")).
Proof.
  unfold update_user_profile, next_statement. destruct session as [pdb|]; [| done].
  destruct (hd false (profile_faults pdb)); [done |]. cbn.
  destruct (hd false (tl (profile_faults pdb))); [done |]. cbn.
  split; [| done]. intros other Hne. by rewrite lookup_insert_ne.
Qed.

Lemma gives_new_false (given stored : option string) :
  gives_new given stored = false <-> or_keep given stored = stored.
Proof.
  destruct given as [v|]; cbn; [| done].
  rewrite negb_false_iff, bool_decide_eq_true. by split.
Qed.

(** X29: an agent profile that was put can be got.  With a database
    that answers, an update succeeds and changes no user profile, and a
    get of the same agent then returns a profile in which a field given
    in the request has the request's value and a field left out keeps
    the value it had (an update cannot clear the private notes).
    [created_at] is kept, or set when the row is new; [updated_at] is set
    when the row is new or the update changed one of the three fields,
    and is kept when it changed none. *)
Theorem update_then_get_agent_profile (created_default updated_default on_update : string)
    (agent_id : string) (request : AgentProfileRequest) pdb :
  profile_faults pdb = [] ->
  exists pdb' row,
    update_agent_profile created_default updated_default on_update agent_id request
      (Some pdb) =
      (Some pdb', inr {| agent_update_success := true; updated_agent_id := agent_id |}) /\
    user_profiles pdb' = user_profiles pdb /\
    get_agent_profile agent_id (Some pdb') =
      (Some pdb', inr (AgentProfileOf agent_id row)) /\
    agent_display_name row =
      match req_agent_display_name request with
      | Some v => Some v
      | None => agent_profiles pdb !! agent_id ≫= agent_display_name
      end /\
    personality row =
      match req_personality request with
      | Some v => Some v
      | None => agent_profiles pdb !! agent_id ≫= personality
      end /\
    private_notes row =
      match req_private_notes request with
      | Some v => Some v
      | None => agent_profiles pdb !! agent_id ≫= private_notes
      end /\
    match agent_profiles pdb !! agent_id with
    | None =>
        agent_created_at row = Some created_default /\
        updated_at row = Some updated_default
    | Some old =>
        agent_created_at row = agent_created_at old /\
        updated_at row =
          if bool_decide (agent_display_name row = agent_display_name old /\
                          personality row = personality old /\
                          private_notes row = private_notes old)
          then updated_at old
          else Some on_update
    end.
Proof.
  intros Hf. unfold update_agent_profile, get_agent_profile, next_statement.
  rewrite Hf. cbn. eexists _, _. split; [reflexivity |]. split; [reflexivity |].
  cbn. rewrite lookup_insert_eq. split; [reflexivity |].
  destruct (agent_profiles pdb !! agent_id) as [old|]; cbn.
  - split; [by destruct (req_agent_display_name request) |].
    split; [by destruct (req_personality request) |].
    split; [by destruct (req_private_notes request) |].
    split; [done |].
    destruct (gives_new (req_agent_display_name request) (agent_display_name old))
      eqn:H1; cbn.
    { rewrite bool_decide_eq_false_2; [done |]. intros (Hk & _ & _).
      apply gives_new_false in Hk. congruence. }
    destruct (gives_new (req_personality request) (personality old)) eqn:H2; cbn.
    { rewrite bool_decide_eq_false_2; [done |]. intros (_ & Hk & _).
      apply gives_new_false in Hk. congruence. }
    destruct (gives_new (req_private_notes request) (private_notes old)) eqn:H3; cbn.
    { rewrite bool_decide_eq_false_2; [done |]. intros (_ & _ & Hk).
      apply gives_new_false in Hk. congruence. }
    rewrite bool_decide_eq_true_2; [done |].
    by rewrite !(proj1 (gives_new_false _ _)).
  - split; [by destruct (req_agent_display_name request) |].
    split; [by destruct (req_personality request) |].
    split; [by destruct (req_private_notes request) |]. done.
Qed.

End ProfileExtras.

(** ** The health report *)

Section HealthExtras.
Context {E : Type} `{Mem0 E} `{Mem0Admin E}.
Implicit Types (w : World E) (cache : EmbedderCache).

Lemma health_check_hit (now : Q) (env : option string) w cache :
  (now < cache_expires cache)%Q ->
  memory (fst (fst (health_check now env (w, cache)))) = memory w /\
  snd (fst (health_check now env (w, cache))) = cache /\
  embedder (snd (health_check now env (w, cache))) =
    connected (bool_decide (cache_ok cache = Some true)) /\
  embedder_details (snd (health_check now env (w, cache))) = cache_info cache.
Proof.
  intros Hlt. unfold health_check.
  assert (Qle_bool (cache_expires cache) now = false) as Hle.
  { apply not_true_iff_false. intros Hle%Qle_bool_iff. by apply Qlt_not_le in Hlt. }
  assert (exists w1 ok, (match redis_client w with
                         | None => (w, false)
                         | Some _ =>
                             match redis ping w with
                             | (w', inr _) => (w', true)
                             | (w', inl _) => (w', false)
                             end
                         end) = (w1, ok) /\ memory w1 = memory w)
    as (w1 & ok & -> & Hm).
  { destruct (redis_client w) eqn:Hr; [| by eexists _, _].
    pose proof (redis_only_redis (E:=E) ping w) as (Hmem & _).
    destruct (redis ping w) as [w' [x|[]]]; by eexists _, _. }
  rewrite Hle. cbn. by rewrite Hm.
Qed.

Lemma health_check_probe (now : Q) (env : option string) w cache :
  (cache_expires cache <= now)%Q ->
  exists ok,
    cache_ok (snd (fst (health_check now env (w, cache)))) = Some ok /\
    cache_info (snd (fst (health_check now env (w, cache)))) =
      embedder_details (snd (health_check now env (w, cache))) /\
    cache_expires (snd (fst (health_check now env (w, cache)))) = (now + 300)%Q /\
    embedder (snd (health_check now env (w, cache))) = connected ok.
Proof.
  intros Hle%Qle_bool_iff. unfold health_check. rewrite Hle. cbn.
  destruct (match redis_client w with
            | None => (w, false)
            | Some _ =>
                match redis ping w with
                | (w', inr _) => (w', true)
                | (w', inl _) => (w', false)
                end
            end) as [w1 rok].
  destruct (probe_embedder w1) as [w2 [ok info]]. by exists ok.
Qed.

(** X30: the embedder is tested at most once in five minutes.  After
    a health check that tested the embedder (its cache had expired), a
    health check made less than 300 seconds later, in whatever state the
    process then is, leaves the engine and the cache as they are: it
    reports the embedder, and its details, as the first did, whatever
    has become of the embedder since. *)
Theorem health_check_caches_embedder (t1 t2 : Q) (env1 env2 : option string)
    w w' cache :
  (cache_expires cache <= t1)%Q -> (t2 < t1 + 300)%Q ->
  let first := health_check t1 env1 (w, cache) in
  let second := health_check t2 env2 (w', snd (fst first)) in
  memory (fst (fst second)) = memory w' /\
  snd (fst second) = snd (fst first) /\
  embedder (snd second) = embedder (snd first) /\
  embedder_details (snd second) = embedder_details (snd first).
Proof.
  intros Hexp Hlt first second.
  destruct (health_check_probe t1 env1 w cache Hexp) as (ok & Hok & Hinfo & Hex & Hemb).
  fold first in Hok, Hinfo, Hex, Hemb.
  destruct (health_check_hit t2 env2 w' (snd (fst first))) as (Hm & Hc & He & Hd).
  { by rewrite Hex. }
  subst second. split; [exact Hm |]. split; [exact Hc |].
  rewrite He, Hd, Hemb, Hok, Hinfo. split; [| done].
  by destruct ok.
Qed.

End HealthExtras.

(** ** The further properties on concrete runs *)

Section MoreRuns.
Import Demo Cases.

(** A search of [u1] that leaves the short-term tier out does not touch
    the two entries of [store2]. *)
Lemma search_long_term_only_witness :
  include_short_term (search_for "tea" (Some "u1") false) = false /\
  redis_client (fst (search_memories (search_for "tea" (Some "u1") false)
                       (world store2 [] (Some (engine [] [inr three_hits])))))
    = redis_client (world store2 [] (Some (engine [] [inr three_hits]))).
Proof.
  split; [reflexivity |].
  apply (search_long_term_only (search_for "tea" (Some "u1") false)
           (world store2 [] (Some (engine [] [inr three_hits])))
           (or_introl eq_refl)).
Defined.

(** Three short-term matches, no engine and the limit 2. *)
Lemma search_without_engine_witness :
  memory (world store3 [] None) = None /\
  exists w1 resp,
    search_memories (search_request "u1" 2) (world store3 [] None) = (w1, inr resp) /\
    memory w1 = None.
Proof.
  split; [reflexivity |].
  destruct (search_without_engine (search_request "u1" 2) (world store3 [] None) eq_refl)
    as (w1 & short & resp & _ & Hr & _ & Hm & _).
  exists w1, resp. split; [exact Hr | exact Hm].
Defined.

(** A search of [u1] for a text the entry of [u10] does not have still
    counts as a read of that entry. *)
Lemma search_counts_every_match_witness :
  redis_quiet (world store_u10 [] None) /\
  include_short_term (search_for "coffee" (Some "u1") true) = true /\
  stm_db (world store_u10 [] None) !! key_of "u10" "aaaaaaaa" = Some (cell "u10" 0) /\
  keyword_match "coffee" (entry "u10" 0) = false /\
  stm_db (fst (search_memories (search_for "coffee" (Some "u1") true)
                 (world store_u10 [] None))) !! key_of "u10" "aaaaaaaa"
    = Some (bump_cell (cell "u10" 0)).
Proof.
  split; [apply redis_quiet_world |]. split; [reflexivity |].
  split; [reflexivity |]. split; [vm_compute; reflexivity |].
  rewrite (search_counts_every_match (search_for "coffee" (Some "u1") true)
             (world store_u10 [] None) (key_of "u10" "aaaaaaaa") (cell "u10" 0)
             (redis_quiet_world _ _) eq_refl eq_refl).
  vm_compute. reflexivity.
Defined.

(** The empty query returns both entries of [store2]. *)
Lemma search_empty_query_witness :
  redis_quiet (world store2 [] None) /\
  include_short_term (search_for "" (Some "u1") true) = true /\
  query (search_for "" (Some "u1") true) = ""%string /\
  exists w1 short,
    search_short_term (search_for "" (Some "u1") true) (world store2 [] None)
      = (w1, inr short) /\
    length short = 2%nat.
Proof.
  split; [apply redis_quiet_world |]. split; [reflexivity |]. split; [reflexivity |].
  destruct (search_empty_query (search_for "" (Some "u1") true) (world store2 [] None)
              (redis_quiet_world _ _) eq_refl eq_refl) as [_ (w1 & Hs)].
  eexists _, _. split; [exact Hs |]. vm_compute. reflexivity.
Defined.

(** A search without an owner matches the key of [u1]. *)
Lemma search_without_owner_reads_all_witness :
  search_user_id (search_for "tea" None true) = None /\
  s_user_id (search_kwargs (search_for "tea" None true)) = None /\
  Glob.matches (search_pattern (search_for "tea" None true)) k1 = true.
Proof.
  split; [reflexivity |].
  destruct (search_without_owner_reads_all (search_for "tea" None true)
              (or_introl eq_refl)) as [Hk Hm].
  split; [exact Hk |]. exact (Hm (Some "u1"%string) "20240101000000"%string "aaaaaaaa"%string).
Defined.

(** The query [show CONTENT] matches an entry that says "I like tea". *)
Lemma keyword_matches_dict_keys_witness :
  "content"%string ∈ Py.split (Py.lower "show CONTENT") /\
  stm_messages (entry "u1" 0) <> [] /\
  keyword_match "show CONTENT" (entry "u1" 0) = true.
Proof.
  assert ("content"%string ∈ Py.split (Py.lower "show CONTENT")) as Hin.
  { vm_compute. apply list_elem_of_further, list_elem_of_here. }
  assert (stm_messages (entry "u1" 0) <> []) as Hne by (vm_compute; discriminate).
  split; [exact Hin |]. split; [exact Hne |].
  exact (keyword_matches_dict_keys "show CONTENT" "content" (entry "u1" 0)
           (or_intror eq_refl) Hin Hne).
Defined.


(** A system message before "I like tea" leaves the memory text as it
    is. *)
Lemma format_skips_message_witness :
  message_part system_message = [] /\
  format_messages_as_memory [system_message; tea] = format_messages_as_memory [tea].
Proof.
  assert (message_part system_message = []) as Hm by (vm_compute; reflexivity).
  split; [exact Hm |].
  apply (format_skips_message [] [tea] system_message Hm). vm_compute. discriminate.
Defined.

(** The add of "I like tea" for [u1] on an empty store. *)
Lemma add_memory_stores_entry_witness :
  exists resp,
    snd (add_memory md5 now (add_request true) (world ∅ [] None)) = inr resp /\
    short_term resp = true /\
    stm_db (fst (add_memory md5 now (add_request true) (world ∅ [] None)))
      !! stored_key md5 now (add_request true) =
      Some {| ttl := Some 24; doc := stored_entry now (add_request true) |}.
Proof.
  assert (snd (add_memory md5 now (add_request true) (world ∅ [] None)) =
            inr {| success := true; short_term := true; long_term := false;
                   memory_key := Some "u1:20240101000000:9f86d081"%string;
                   result := None |}) as Hr by (vm_compute; reflexivity).
  eexists. split; [exact Hr |]. split; [reflexivity |].
  exact (proj2 (add_memory_stores_entry md5 now (add_request true) (world ∅ [] None)
                  _ Hr eq_refl)).
Defined.

(** A short-term-only add with a database: one row, of the short-term
    tier. *)
Lemma add_memory_audit_witness :
  db_quiet (world_db ∅ None) /\
  exists rows,
    audit_log (fst (add_memory md5 now (add_request true) (world_db ∅ None))) = rows /\
    map memory_tier rows = [Some "short_term"%string].
Proof.
  assert (db_quiet (world_db ∅ None)) as Hq by (by eexists).
  split; [exact Hq |].
  destruct (add_memory_audit md5 now (add_request true) (world_db ∅ None) Hq)
    as (resp & rows & Hresp & _ & Hlog & Htiers & _).
  exists rows. split; [exact Hlog |].
  vm_compute in Hresp. injection Hresp as <-. exact Htiers.
Defined.

(** The two entries of [store2] expire, and still do after an add. *)
Lemma every_entry_expires_witness :
  all_expire (stm_db (world store2 [] None)) /\
  all_expire (stm_db (fst (add_memory md5 now (add_request true) (world store2 [] None)))).
Proof.
  assert (all_expire (stm_db (world store2 [] None))) as Hall.
  { apply (bool_decide_unpack _). vm_compute. exact I. }
  split; [exact Hall |].
  apply (every_entry_expires md5 (world store2 [] None) Hall).
Defined.

(** The example of the specification, from the theorem: the added entry
    is among the short-term matches of the search for "tea". *)
Lemma add_then_search_finds_witness :
  redis_quiet (world ∅ [] None) /\
  keyword_match (query (search_request "u1" 10)) (stored_entry now (add_request true))
    = true /\
  exists w1 short,
    search_short_term (search_request "u1" 10)
      (fst (add_memory md5 now (add_request true) (world ∅ [] None))) = (w1, inr short) /\
    {| id := "stm:u1:2024-01-01T00:00:00";
       memory_text := "User said: I like tea";
       user_id := Some "u1"%string; agent_id := None;
       score := Some (8 # 10)%Q; source := short_term_source;
       metadata := None |} ∈ short.
Proof.
  assert (keyword_match (query (search_request "u1" 10))
            (stored_entry now (add_request true)) = true) as Hkw
    by (vm_compute; reflexivity).
  split; [apply redis_quiet_world |]. split; [exact Hkw |].
  destruct (add_then_search_finds md5 now (add_request true) (search_request "u1" 10)
              (world ∅ [] None) (redis_quiet_world _ _) eq_refl
              (or_intror (ex_intro _ "u1"%string (conj eq_refl (conj eq_refl eq_refl))))
              Hkw)
    as (w1 & w2 & short & long & resp & Hs & _ & _ & Hin & _).
  exists w1, short. split; [exact Hs | exact Hin].
Defined.

(** Three searches of [u1] after the add of "I like tea". *)
Lemma promotable_after_three_searches_witness :
  redis_quiet (world ∅ [] None) /\
  stm_db (after_searches
            [search_request "u1" 10; search_for "coffee" (Some "u1") true;
             search_request "u1" 0]
            (fst (add_memory md5 now (add_request true) (world ∅ [] None))))
    !! stored_key md5 now (add_request true) =
    Some {| ttl := Some 24;
            doc := set_access_count 3 (stored_entry now (add_request true)) |}.
Proof.
  split; [apply redis_quiet_world |].
  apply (promotable_after_three_searches md5 now (add_request true)
           [search_request "u1" 10; search_for "coffee" (Some "u1") true;
            search_request "u1" 0] "u1" (world ∅ [] None)
           (redis_quiet_world _ _) eq_refl eq_refl eq_refl).
  repeat constructor.
Defined.

(** The entry of [u1] read twice stays when [u1] is promoted. *)
Lemma promote_spares_ineligible_witness :
  stm_db (world store_mixed [] (Some (engine [] []))) !! k3 = Some (cell "u1" 2) /\
  get_access_count (doc (cell "u1" 2)) < PROMOTION_THRESHOLD /\
  stm_db (fst (promote_memories (promote_request None)
                 (world store_mixed [] (Some (engine [] []))))) !! k3
    = Some (cell "u1" 2).
Proof.
  assert (get_access_count (doc (cell "u1" 2)) < PROMOTION_THRESHOLD) as Hlt
    by (vm_compute; reflexivity).
  split; [reflexivity |]. split; [exact Hlt |].
  exact (promote_spares_ineligible (promote_request None)
           (world store_mixed [] (Some (engine [] []))) k3 (cell "u1" 2)
           eq_refl (or_introl Hlt)).
Defined.

(** A second promotion of [u1] over [store2]. *)
Lemma promote_again_promotes_nothing_witness :
  redis_quiet (world store2 [] (Some (engine [] []))) /\
  snd (promote_memories (promote_request None)
         (fst (promote_memories (promote_request None)
                 (world store2 [] (Some (engine [] []))))))
    = inr {| promoted_count := 0; promoted := [] |}.
Proof.
  split; [apply redis_quiet_world |].
  rewrite (promote_again_promotes_nothing (promote_request None)
             (world store2 [] (Some (engine [] []))) (engine [] [])
             (redis_quiet_world _ _) eq_refl); [reflexivity |].
  vm_compute. repeat constructor.
Defined.


(** The count of the statistics before and after the first add. *)
Lemma stats_count_after_add_witness :
  redis_quiet (world ∅ [] None) /\
  exists before after,
    snd (get_stats (world ∅ [] None)) = inr before /\
    snd (get_stats (fst (add_memory md5 now (add_request true) (world ∅ [] None))))
      = inr after /\
    short_term_count after = (short_term_count before + 1)%nat.
Proof.
  split; [apply redis_quiet_world |].
  destruct (stats_count_after_add md5 now (add_request true) (world ∅ [] None)
              (redis_quiet_world _ _)) as (before & after & Hb & Ha & Hc).
  exists before, after. split; [exact Hb |]. split; [exact Ha |]. exact Hc.
Defined.

(** Preferences are put for [u1]; the display name stays. *)
Lemma update_then_get_user_profile_witness :
  profile_faults profiles = [] /\
  exists pdb',
    fst (update_user_profile "2024-02-02T00:00:00" "2024-02-02T00:00:01" "u1"
           set_preferences (Some profiles)) = Some pdb' /\
    snd (get_user_profile "u1" (Some pdb')) =
      inr (Profile "u1"
             {| display_name := Some "Ann"%string; preferences := Some "{}"%string;
                last_seen := Some "2024-02-02T00:00:00"%string;
                created_at := Some "2024-01-01T00:00:00"%string |}).
Proof.
  split; [reflexivity |].
  destruct (update_then_get_user_profile "2024-02-02T00:00:00" "2024-02-02T00:00:01"
              "u1" set_preferences profiles eq_refl) as (pdb' & Hu & _ & Hg).
  exists pdb'. rewrite Hu, Hg. split; reflexivity.
Defined.

(** Notes are put for the agent [a1]; the name given is the stored one,
    the personality is left out. *)
Lemma update_then_get_agent_profile_witness :
  profile_faults profiles = [] /\
  exists pdb' row,
    fst (update_agent_profile "2024-02-02T00:00:00" "2024-02-02T00:00:01"
           "2024-02-02T00:00:02" "a1" set_notes (Some profiles)) = Some pdb' /\
    snd (get_agent_profile "a1" (Some pdb')) = inr (AgentProfileOf "a1" row) /\
    agent_display_name row = Some "Scout"%string /\
    personality row = Some "curious"%string /\
    private_notes row = Some "asked about tea"%string.
Proof.
  split; [reflexivity |].
  destruct (update_then_get_agent_profile "2024-02-02T00:00:00" "2024-02-02T00:00:01"
              "2024-02-02T00:00:02" "a1" set_notes profiles eq_refl)
    as (pdb' & row & Hu & _ & Hg & Hd & Hp & Hn & _).
  exists pdb', row. rewrite Hu, Hg. split; [reflexivity |]. split; [reflexivity |].
  split; [exact Hd |]. split; [exact Hp | exact Hn].
Defined.

(** Two health checks 200 seconds apart, the first on a cold cache. *)
Lemma health_check_caches_embedder_witness :
  (cache_expires cold_cache <= 1000)%Q /\ (1200 < 1000 + 300)%Q /\
  embedder (snd (health_check 1200 None
                   (world ∅ [] None,
                    snd (fst (health_check 1000 None
                                (world ∅ [] (Some (engine [] [])), cold_cache))))))
    = embedder (snd (health_check 1000 None
                       (world ∅ [] (Some (engine [] [])), cold_cache))).
Proof.
  assert (cache_expires cold_cache <= 1000)%Q as H1 by (by vm_compute).
  assert (1200 < 1000 + 300)%Q as H2 by (by vm_compute).
  split; [exact H1 |]. split; [exact H2 |].
  destruct (health_check_caches_embedder 1000 1200 None None
              (world ∅ [] (Some (engine [] []))) (world ∅ [] None) cold_cache H1 H2)
    as (_ & _ & He & _).
  exact He.
Defined.

End MoreRuns.
